(** * Invoice field extraction: a model of [extract_amazon.py]

  The program turns the text of an invoice into a record of 21 string
  fields by applying regular expressions in a fixed order.  This file
  embeds the [InvoiceProcessor] class: Python strings as lists of code
  points, the regular expressions as syntax trees obtained from the
  pattern strings of the source, [re.search], [re.match] and [re.sub] as
  a backtracking matcher, the record as a finite map from field names
  to values, and the [try]/[except] block as a state-and-exception
  monad. *)

From Stdlib Require Import NArith Ascii String List Bool Lia.
From stdpp Require Import gmap strings list.

Local Open Scope N_scope.

(** ** Code points and the Unicode tables used by [str] and [re] *)

(** A Python [str] is a sequence of code points. *)
Abbreviation char := N (only parsing).
Abbreviation str := (list N) (only parsing).

Module Unicode.

(** Decoding of the UTF-8 bytes of a string literal of this file. *)
Fixpoint utf8 (bs : list N) : str :=
  match bs with
  | [] => []
  | b0 :: t0 =>
    if b0 <? 128 then b0 :: utf8 t0
    else match t0 with
      | [] => []
      | b1 :: t1 =>
        if b0 <? 224 then ((b0 - 192) * 64 + (b1 - 128)) :: utf8 t1
        else match t1 with
          | [] => []
          | b2 :: t2 =>
            if b0 <? 240
            then ((b0 - 224) * 4096 + (b1 - 128) * 64 + (b2 - 128)) :: utf8 t2
            else match t2 with
              | [] => []
              | b3 :: t3 =>
                ((b0 - 240) * 262144 + (b1 - 128) * 4096
                 + (b2 - 128) * 64 + (b3 - 128)) :: utf8 t3
              end
          end
      end
  end.

Definition py (s : string) : str :=
  utf8 (map N_of_ascii (list_ascii_of_string s)).

Definition in_range (c : char) (r : N * N) : bool :=
  (fst r <=? c) && (c <=? snd r).

(** [str.isspace] for one code point, which is also the class [\s] of
    [re] on [str] patterns. *)
Definition isspace (c : char) : bool :=
  existsb (in_range c)
    [(9, 13); (28, 32); (133, 133); (160, 160); (5760, 5760);
     (8192, 8202); (8232, 8233); (8239, 8239); (8287, 8287);
     (12288, 12288)].

(** The decimal digits (category Nd, Unicode 14.0.0): [str.isdecimal]
    for one code point and the class [\d] of [re] on [str] patterns. *)
Definition decimal_ranges : list (N * N) := [
(48, 57); (1632, 1641); (1776, 1785); (1984, 1993); (2406, 2415); (2534, 2543); (2662, 2671);
(2790, 2799); (2918, 2927); (3046, 3055); (3174, 3183); (3302, 3311); (3430, 3439);
(3558, 3567); (3664, 3673); (3792, 3801); (3872, 3881); (4160, 4169); (4240, 4249);
(6112, 6121); (6160, 6169); (6470, 6479); (6608, 6617); (6784, 6793); (6800, 6809);
(6992, 7001); (7088, 7097); (7232, 7241); (7248, 7257); (42528, 42537); (43216, 43225);
(43264, 43273); (43472, 43481); (43504, 43513); (43600, 43609); (44016, 44025);
(65296, 65305); (66720, 66729); (68912, 68921); (69734, 69743); (69872, 69881);
(69942, 69951); (70096, 70105); (70384, 70393); (70736, 70745); (70864, 70873);
(71248, 71257); (71360, 71369); (71472, 71481); (71904, 71913); (72016, 72025);
(72784, 72793); (73040, 73049); (73120, 73129); (92768, 92777); (92864, 92873);
(93008, 93017); (120782, 120831); (123200, 123209); (123632, 123641); (125264, 125273);
(130032, 130041) ].

Definition isdecimal (c : char) : bool := existsb (in_range c) decimal_ranges.

(** The simple lower-case mapping (Unicode 14.0.0), as runs
    [(first, last, stride, image of first)]: a code point [c] of a run
    with [(c - first) mod stride = 0] maps to [image + (c - first)]. *)
Definition lower_runs : list (N * N * N * N) := [
(65, 90, 1, 97); (192, 214, 1, 224); (216, 222, 1, 248); (256, 302, 2, 257);
(304, 304, 1, 105); (306, 310, 2, 307); (313, 327, 2, 314); (330, 374, 2, 331);
(376, 376, 1, 255); (377, 381, 2, 378); (385, 385, 1, 595); (386, 388, 2, 387);
(390, 390, 1, 596); (391, 391, 1, 392); (393, 394, 1, 598); (395, 395, 1, 396);
(398, 398, 1, 477); (399, 399, 1, 601); (400, 400, 1, 603); (401, 401, 1, 402);
(403, 403, 1, 608); (404, 404, 1, 611); (406, 406, 1, 617); (407, 407, 1, 616);
(408, 408, 1, 409); (412, 412, 1, 623); (413, 413, 1, 626); (415, 415, 1, 629);
(416, 420, 2, 417); (422, 422, 1, 640); (423, 423, 1, 424); (425, 425, 1, 643);
(428, 428, 1, 429); (430, 430, 1, 648); (431, 431, 1, 432); (433, 434, 1, 650);
(435, 437, 2, 436); (439, 439, 1, 658); (440, 440, 1, 441); (444, 444, 1, 445);
(452, 452, 1, 454); (453, 453, 1, 454); (455, 455, 1, 457); (456, 456, 1, 457);
(458, 458, 1, 460); (459, 475, 2, 460); (478, 494, 2, 479); (497, 497, 1, 499);
(498, 500, 2, 499); (502, 502, 1, 405); (503, 503, 1, 447); (504, 542, 2, 505);
(544, 544, 1, 414); (546, 562, 2, 547); (570, 570, 1, 11365); (571, 571, 1, 572);
(573, 573, 1, 410); (574, 574, 1, 11366); (577, 577, 1, 578); (579, 579, 1, 384);
(580, 580, 1, 649); (581, 581, 1, 652); (582, 590, 2, 583); (880, 882, 2, 881);
(886, 886, 1, 887); (895, 895, 1, 1011); (902, 902, 1, 940); (904, 906, 1, 941);
(908, 908, 1, 972); (910, 911, 1, 973); (913, 929, 1, 945); (931, 939, 1, 963);
(975, 975, 1, 983); (984, 1006, 2, 985); (1012, 1012, 1, 952); (1015, 1015, 1, 1016);
(1017, 1017, 1, 1010); (1018, 1018, 1, 1019); (1021, 1023, 1, 891); (1024, 1039, 1, 1104);
(1040, 1071, 1, 1072); (1120, 1152, 2, 1121); (1162, 1214, 2, 1163); (1216, 1216, 1, 1231);
(1217, 1229, 2, 1218); (1232, 1326, 2, 1233); (1329, 1366, 1, 1377); (4256, 4293, 1, 11520);
(4295, 4295, 1, 11559); (4301, 4301, 1, 11565); (5024, 5103, 1, 43888);
(5104, 5109, 1, 5112); (7312, 7354, 1, 4304); (7357, 7359, 1, 4349); (7680, 7828, 2, 7681);
(7838, 7838, 1, 223); (7840, 7934, 2, 7841); (7944, 7951, 1, 7936); (7960, 7965, 1, 7952);
(7976, 7983, 1, 7968); (7992, 7999, 1, 7984); (8008, 8013, 1, 8000); (8025, 8031, 2, 8017);
(8040, 8047, 1, 8032); (8072, 8079, 1, 8064); (8088, 8095, 1, 8080); (8104, 8111, 1, 8096);
(8120, 8121, 1, 8112); (8122, 8123, 1, 8048); (8124, 8124, 1, 8115); (8136, 8139, 1, 8050);
(8140, 8140, 1, 8131); (8152, 8153, 1, 8144); (8154, 8155, 1, 8054); (8168, 8169, 1, 8160);
(8170, 8171, 1, 8058); (8172, 8172, 1, 8165); (8184, 8185, 1, 8056); (8186, 8187, 1, 8060);
(8188, 8188, 1, 8179); (8486, 8486, 1, 969); (8490, 8490, 1, 107); (8491, 8491, 1, 229);
(8498, 8498, 1, 8526); (8544, 8559, 1, 8560); (8579, 8579, 1, 8580); (9398, 9423, 1, 9424);
(11264, 11311, 1, 11312); (11360, 11360, 1, 11361); (11362, 11362, 1, 619);
(11363, 11363, 1, 7549); (11364, 11364, 1, 637); (11367, 11371, 2, 11368);
(11373, 11373, 1, 593); (11374, 11374, 1, 625); (11375, 11375, 1, 592);
(11376, 11376, 1, 594); (11378, 11378, 1, 11379); (11381, 11381, 1, 11382);
(11390, 11391, 1, 575); (11392, 11490, 2, 11393); (11499, 11501, 2, 11500);
(11506, 11506, 1, 11507); (42560, 42604, 2, 42561); (42624, 42650, 2, 42625);
(42786, 42798, 2, 42787); (42802, 42862, 2, 42803); (42873, 42875, 2, 42874);
(42877, 42877, 1, 7545); (42878, 42886, 2, 42879); (42891, 42891, 1, 42892);
(42893, 42893, 1, 613); (42896, 42898, 2, 42897); (42902, 42920, 2, 42903);
(42922, 42922, 1, 614); (42923, 42923, 1, 604); (42924, 42924, 1, 609);
(42925, 42925, 1, 620); (42926, 42926, 1, 618); (42928, 42928, 1, 670);
(42929, 42929, 1, 647); (42930, 42930, 1, 669); (42931, 42931, 1, 43859);
(42932, 42946, 2, 42933); (42948, 42948, 1, 42900); (42949, 42949, 1, 642);
(42950, 42950, 1, 7566); (42951, 42953, 2, 42952); (42960, 42960, 1, 42961);
(42966, 42968, 2, 42967); (42997, 42997, 1, 42998); (65313, 65338, 1, 65345);
(66560, 66599, 1, 66600); (66736, 66771, 1, 66776); (66928, 66938, 1, 66967);
(66940, 66954, 1, 66979); (66956, 66962, 1, 66995); (66964, 66965, 1, 67003);
(68736, 68786, 1, 68800); (71840, 71871, 1, 71872); (93760, 93791, 1, 93792);
(125184, 125217, 1, 125218) ].

Fixpoint lookup_run (c : char) (runs : list (N * N * N * N)) : char :=
  match runs with
  | [] => c
  | (lo, hi, stride, img) :: runs' =>
    if (lo <=? c) && (c <=? hi) && ((c - lo) mod stride =? 0)
    then img + (c - lo)
    else lookup_run c runs'
  end.

(** [_sre.unicode_tolower] *)
Definition tolower (c : char) : char := lookup_run c lower_runs.

(** [re._casefix._EXTRA_CASES]: the other lower-case code points that
    have the same upper case as the key. *)
Definition extra_cases : list (N * list N) := [
(105, [305]); (115, [383]); (181, [956]); (305, [105]); (383, [115]); (837, [953; 8126]);
(912, [8147]); (944, [8163]); (946, [976]); (949, [1013]); (952, [977]); (953, [837; 8126]);
(954, [1008]); (956, [181]); (960, [982]); (961, [1009]); (962, [963]); (963, [962]);
(966, [981]); (976, [946]); (977, [952]); (981, [966]); (982, [960]); (1008, [954]);
(1009, [961]); (1013, [949]); (1074, [7296]); (1076, [7297]); (1086, [7298]); (1089, [7299]);
(1090, [7300; 7301]); (1098, [7302]); (1123, [7303]); (7296, [1074]); (7297, [1076]);
(7298, [1086]); (7299, [1089]); (7300, [1090; 7301]); (7301, [1090; 7300]); (7302, [1098]);
(7303, [1123]); (7304, [42571]); (7777, [7835]); (7835, [7777]); (8126, [837; 953]);
(8147, [912]); (8163, [944]); (42571, [7304]); (64261, [64262]); (64262, [64261]) ].

Fixpoint fixes (lo : char) (tbl : list (N * list N)) : list N :=
  match tbl with
  | [] => []
  | (k, v) :: tbl' => if k =? lo then v else fixes lo tbl'
  end.

(** The code points that match the pattern character [c] under
    [re.IGNORECASE]: [x] matches when [tolower x] is one of them.  (For
    an uncased [c] the compiler emits a plain comparison; no uncased
    code point is the lower case of another one, so the test is the
    same.) *)
Definition fold_set (c : char) : list N :=
  tolower c :: fixes (tolower c) extra_cases.

Definition mem (c : char) (l : list N) : bool := existsb (N.eqb c) l.

(** [str.lower] of one code point.  The full mapping differs from the
    simple one at U+0130 only, which becomes two code points.  U+03A3
    becomes U+03C3 here; in word-final position Python writes U+03C2. *)
Definition lower_char (c : char) : str :=
  if c =? 304 then [105; 775] else [tolower c].

End Unicode.
Export Unicode.

(** ** The [str] methods the program calls *)

Module Str.

Definition ch (a : ascii) : char := N_of_ascii a.

(** [not s] *)
Definition is_empty (s : str) : bool :=
  match s with [] => true | _ => false end.

Fixpoint lstrip (s : str) : str :=
  match s with
  | [] => []
  | c :: t => if isspace c then lstrip t else s
  end.

Definition rstrip (s : str) : str := rev (lstrip (rev s)).

(** [s.strip()] *)
Definition strip (s : str) : str := rstrip (lstrip s).

(** [s.lower()] *)
Definition lower (s : str) : str := flat_map lower_char s.

(** [s.startswith(p)] *)
Fixpoint startswith (s p : str) : bool :=
  match p, s with
  | [], _ => true
  | a :: p', b :: s' => (a =? b) && startswith s' p'
  | _ :: _, [] => false
  end.

(** [needle in s] *)
Fixpoint contains (needle s : str) : bool :=
  startswith s needle ||
  match s with
  | [] => false
  | _ :: t => contains needle t
  end.

(** [s.replace(old, new)] for a non-empty [old]: the occurrences are
    taken from the left and do not overlap; [skip] counts the code points
    of an occurrence that are still to be dropped. *)
Fixpoint replace_from (old new : str) (skip : nat) (s : str) : str :=
  match s with
  | [] => []
  | c :: t =>
    match skip with
    | S k => replace_from old new k t
    | O =>
      if startswith s old
      then new ++ replace_from old new (length old - 1) t
      else c :: replace_from old new 0 t
    end
  end.

Definition replace (s old new : str) : str :=
  match old with
  | [] => new ++ flat_map (fun c => c :: new) s
  | _ :: _ => replace_from old new 0 s
  end.

(** [s.split(sep)] for a separator of one code point. *)
Fixpoint split (s : str) (sep : char) : list str :=
  match s with
  | [] => [[]]
  | c :: t =>
    if c =? sep then [] :: split t sep
    else match split t sep with
         | l :: ls => (c :: l) :: ls
         | [] => [[c]]
         end
  end.

(** [sep.join(parts)] *)
Fixpoint join (sep : str) (parts : list str) : str :=
  match parts with
  | [] => []
  | [p] => p
  | p :: ps => p ++ sep ++ join sep ps
  end.

(** [s == t] *)
Fixpoint eqb (s t : str) : bool :=
  match s, t with
  | [], [] => true
  | a :: s', b :: t' => (a =? b) && eqb s' t'
  | _, _ => false
  end.

End Str.

(** ** Regular expressions: syntax, parser and backtracking matcher *)

Module Re.
Import Str.

Record flags := { IGNORECASE : bool; DOTALL : bool }.

Definition NOFLAG : flags := {| IGNORECASE := false; DOTALL := false |}.
Definition I : flags := {| IGNORECASE := true; DOTALL := false |}.
Definition I_DOTALL : flags := {| IGNORECASE := true; DOTALL := true |}.

(** Members of a character class [[...]]. *)
Inductive citem :=
| IChar (c : char)
| IRange (lo hi : char)
| IDigit
| ISpace.

Inductive regex :=
| REmpty
| RLit (c : char)
| RAny
| RSet (neg : bool) (items : list citem)
| RCat (a b : regex)
| RAlt (a b : regex)
| RRep (lo : nat) (hi : option nat) (greedy : bool) (a : regex)
| RGroup (i : nat) (a : regex)
| RLook (a : regex)
| RBol
| REol.

(** A class that no code point belongs to. *)
Definition RFail : regex := RSet false [].

(** *** Parser for the pattern syntax used by the program *)

Definition is_ascii_digit (c : char) : bool := (48 <=? c) && (c <=? 57).
Definition is_ascii_alnum (c : char) : bool :=
  is_ascii_digit c || ((65 <=? c) && (c <=? 90)) || ((97 <=? c) && (c <=? 122)).

Fixpoint parse_nat (acc : nat) (s : str) : nat * str :=
  match s with
  | c :: t =>
    if is_ascii_digit c then parse_nat (10 * acc + N.to_nat (c - 48)) t
    else (acc, s)
  | [] => (acc, s)
  end.

(** An escape [\c] outside a class. *)
Definition parse_escape (c : char) : option regex :=
  if c =? ch "d" then Some (RSet false [IDigit])
  else if c =? ch "s" then Some (RSet false [ISpace])
  else if c =? ch "n" then Some (RLit 10)
  else if c =? ch "r" then Some (RLit 13)
  else if c =? ch "t" then Some (RLit 9)
  else if is_ascii_alnum c then None
  else Some (RLit c).

(** An escape [\c] inside a class. *)
Definition parse_class_escape (c : char) : option citem :=
  if c =? ch "d" then Some IDigit
  else if c =? ch "s" then Some ISpace
  else if c =? ch "n" then Some (IChar 10)
  else if c =? ch "r" then Some (IChar 13)
  else if c =? ch "t" then Some (IChar 9)
  else if is_ascii_alnum c then None
  else Some (IChar c).

(** One member of a class and the rest of the pattern. *)
Definition parse_class_atom (s : str) : option (citem * str) :=
  match s with
  | [] => None
  | c :: t =>
    if c =? ch "\" then
      match t with
      | e :: t' => match parse_class_escape e with
                   | Some it => Some (it, t')
                   | None => None
                   end
      | [] => None
      end
    else Some (IChar c, t)
  end.

(** The members of a class up to the closing bracket. *)
Fixpoint parse_class (fuel : nat) (s : str) : option (list citem * str) :=
  match fuel with
  | O => None
  | S f =>
    match s with
    | [] => None
    | c :: t =>
      if c =? ch "]" then Some ([], t)
      else
        match parse_class_atom s with
        | None => None
        | Some (it, s1) =>
          match it, s1 with
          | IChar lo, d :: s2 =>
            if (d =? ch "-") && negb (startswith s2 [ch "]"]) then
              match parse_class_atom s2 with
              | Some (IChar hi, s3) =>
                match parse_class f s3 with
                | Some (its, s4) => Some (IRange lo hi :: its, s4)
                | None => None
                end
              | _ => None
              end
            else
              match parse_class f s1 with
              | Some (its, s4) => Some (it :: its, s4)
              | None => None
              end
          | _, _ =>
            match parse_class f s1 with
            | Some (its, s4) => Some (it :: its, s4)
            | None => None
            end
          end
        end
    end
  end.

(** A quantifier, if one follows the atom [a]. *)
Definition parse_quant (a : regex) (s : str) : regex * str :=
  let lazy (lo : nat) (hi : option nat) (t : str) :=
    match t with
    | q :: t' => if q =? ch "?" then (RRep lo hi false a, t') else (RRep lo hi true a, t)
    | [] => (RRep lo hi true a, t)
    end in
  match s with
  | [] => (a, s)
  | c :: t =>
    if c =? ch "*" then lazy O None t
    else if c =? ch "+" then lazy 1%nat None t
    else if c =? ch "?" then lazy O (Some 1%nat) t
    else if c =? ch "{" then
      let '(lo, t1) := parse_nat O t in
      match t1 with
      | d :: t2 =>
        if d =? ch "}" then lazy lo (Some lo) t2
        else if d =? ch "," then
          match t2 with
          | e :: t3 =>
            if e =? ch "}" then lazy lo None t3
            else
              let '(hi, t4) := parse_nat O t2 in
              match t4 with
              | g :: t5 => if g =? ch "}" then lazy lo (Some hi) t5 else (a, s)
              | [] => (a, s)
              end
          | [] => (a, s)
          end
        else (a, s)
      | [] => (a, s)
      end
    else (a, s)
  end.

(** The parser proper; [n] is the number of the next capturing group. *)
Fixpoint parse_alt (fuel : nat) (s : str) (n : nat) : option (regex * str * nat) :=
  match fuel with
  | O => None
  | S f =>
    match parse_seq f s n with
    | None => None
    | Some (r, s1, n1) =>
      match s1 with
      | c :: s2 =>
        if c =? ch "|" then
          match parse_alt f s2 n1 with
          | Some (r2, s3, n3) => Some (RAlt r r2, s3, n3)
          | None => None
          end
        else Some (r, s1, n1)
      | [] => Some (r, s1, n1)
      end
    end
  end
with parse_seq (fuel : nat) (s : str) (n : nat) : option (regex * str * nat) :=
  match fuel with
  | O => None
  | S f =>
    match s with
    | [] => Some (REmpty, s, n)
    | c :: _ =>
      if (c =? ch "|") || (c =? ch ")") then Some (REmpty, s, n)
      else
        match parse_atom f s n with
        | None => None
        | Some (a, s1, n1) =>
          let '(q, s2) := parse_quant a s1 in
          match parse_seq f s2 n1 with
          | Some (r, s3, n3) => Some (RCat q r, s3, n3)
          | None => None
          end
        end
    end
  end
with parse_atom (fuel : nat) (s : str) (n : nat) : option (regex * str * nat) :=
  match fuel with
  | O => None
  | S f =>
    let close (mk : regex -> regex) (res : option (regex * str * nat)) :=
      match res with
      | Some (r, c :: s', n') =>
        if c =? ch ")" then Some (mk r, s', n') else None
      | _ => None
      end in
    match s with
    | [] => None
    | c :: t =>
      if c =? ch "(" then
        if startswith t [ch "?"; ch ":"] then
          close (fun r => r) (parse_alt f (drop 2 t) n)
        else if startswith t [ch "?"; ch "="] then
          close RLook (parse_alt f (drop 2 t) n)
        else if startswith t [ch "?"] then None
        else close (RGroup n) (parse_alt f t (S n))
      else if c =? ch "[" then
        let '(neg, t1) :=
          if startswith t [ch "^"] then (true, drop 1 t) else (false, t) in
        match parse_class (S (length t1)) t1 with
        | Some (its, s') => Some (RSet neg its, s', n)
        | None => None
        end
      else if c =? ch "\" then
        match t with
        | e :: t' => match parse_escape e with
                     | Some r => Some (r, t', n)
                     | None => None
                     end
        | [] => None
        end
      else if c =? ch "." then Some (RAny, t, n)
      else if c =? ch "^" then Some (RBol, t, n)
      else if c =? ch "$" then Some (REol, t, n)
      else if (c =? ch "*") || (c =? ch "+") || (c =? ch "?") || (c =? ch "{") then None
      else Some (RLit c, t, n)
    end
  end.

Definition parse (p : str) : option regex :=
  match parse_alt (3 * length p + 3) p 1 with
  | Some (r, [], _) => Some r
  | _ => None
  end.

(** [re.compile(p)] for a pattern written as in the source. *)
Definition compile (p : string) : regex :=
  match parse (py p) with
  | Some r => r
  | None => RFail
  end.

(** *** Matching *)

(** The matcher walks the subject from a position: [pos] code points are
    behind it, [rest] is what is left, [caps] are the groups closed so
    far (latest first). *)
Record mstate := { pos : nat; rest : str; caps : list (nat * str) }.

Definition cont := mstate -> option mstate.

Definition range (lo hi : char) : list N :=
  map N.of_nat (seq (N.to_nat lo) (S (N.to_nat hi) - N.to_nat lo)).

(** Does the subject code point [x] match the pattern character [c]? *)
Definition lit_match (fl : flags) (c x : char) : bool :=
  if IGNORECASE fl then mem (tolower x) (fold_set c) else x =? c.

Definition item_match (fl : flags) (it : citem) (x : char) : bool :=
  match it with
  | IChar c => lit_match fl c x
  | IRange lo hi =>
    if IGNORECASE fl then existsb (fun c => lit_match fl c x) (range lo hi)
    else (lo <=? x) && (x <=? hi)
  | IDigit => isdecimal (if IGNORECASE fl then tolower x else x)
  | ISpace => isspace (if IGNORECASE fl then tolower x else x)
  end.

Definition set_match (fl : flags) (neg : bool) (items : list citem) (x : char) : bool :=
  xorb neg (existsb (fun it => item_match fl it x) items).

(** [.] *)
Definition any_match (fl : flags) (x : char) : bool :=
  DOTALL fl || negb (x =? 10).

(** Consume one code point that satisfies [p]. *)
Definition step (p : char -> bool) (k : cont) (st : mstate) : option mstate :=
  match rest st with
  | x :: t => if p x then k {| pos := S (pos st); rest := t; caps := caps st |} else None
  | [] => None
  end.

Definition set_cap (i : nat) (from to : mstate) : mstate :=
  {| pos := pos to; rest := rest to;
     caps := (i, take (pos to - pos from) (rest from)) :: caps to |}.

(** [$] without [re.MULTILINE]: the end, or just before a final newline. *)
Definition at_end (s : str) : bool :=
  match s with
  | [] => true
  | [c] => c =? 10
  | _ => false
  end.

(** The iterations of a repetition that may still follow: at most [fuel]
    of them, each of which has to consume something; longest first if
    [greedy], shortest first otherwise.  [ma] matches the repeated
    expression once. *)
Fixpoint rep_more (ma : cont -> cont) (greedy : bool) (k : cont) (fuel : nat) (st1 : mstate)
  {struct fuel} : option mstate :=
  match fuel with
  | O => k st1
  | S f =>
    let again :=
      ma (fun st2 => if (pos st1 <? pos st2)%nat then rep_more ma greedy k f st2 else None) in
    if greedy then
      match again st1 with
      | Some st' => Some st'
      | None => k st1
      end
    else
      match k st1 with
      | Some st' => Some st'
      | None => again st1
      end
  end.

(** The [n] iterations that a repetition demands. *)
Fixpoint rep_must (ma : cont -> cont) (n : nat) (k : cont) {struct n} : cont :=
  match n with
  | O => k
  | S n' => ma (rep_must ma n' k)
  end.

(** Backtracking matcher in continuation-passing style: [m fl r k st]
    tries the ways [r] can match at [st] in the order of priority of
    [re], and returns the first for which the continuation [k] succeeds.
    A repetition [a{lo,hi}] runs [a] [lo] times and then up to [hi - lo]
    more times; without an upper bound the rest of the subject bounds
    the number of iterations, each of which consumes something. *)
Fixpoint m (fl : flags) (r : regex) (k : cont) (st : mstate) {struct r} : option mstate :=
  match r with
  | REmpty => k st
  | RLit c => step (lit_match fl c) k st
  | RAny => step (any_match fl) k st
  | RSet neg items => step (set_match fl neg items) k st
  | RCat a b => m fl a (m fl b k) st
  | RAlt a b =>
    match m fl a k st with
    | Some st' => Some st'
    | None => m fl b k st
    end
  | RGroup i a => m fl a (fun st' => k (set_cap i st st')) st
  | RLook a =>
    match m fl a Some st with
    | Some st' => k {| pos := pos st; rest := rest st; caps := caps st' |}
    | None => None
    end
  | RBol => if (pos st =? 0)%nat then k st else None
  | REol => if at_end (rest st) then k st else None
  | RRep lo hi greedy a =>
    rep_must (m fl a) lo
      (fun st0 =>
         rep_more (m fl a) greedy k
           (match hi with
            | Some h => (h - lo)%nat
            | None => length (rest st0)
            end) st0) st
  end.

(** A match object: [m.start()], [m.end()] and the groups. *)
Record rmatch := { m_start : nat; m_end : nat; m_groups : list (nat * str) }.

Fixpoint assoc (i : nat) (l : list (nat * str)) : option str :=
  match l with
  | [] => None
  | (j, v) :: l' => if (i =? j)%nat then Some v else assoc i l'
  end.

(** [mt.group(i)] for [i >= 1]: [None] is Python's [None], the value of
    a group that took no part in the match. *)
Definition group (mt : rmatch) (i : nat) : option str := assoc i (m_groups mt).

(** One attempt at position [p], where [s] is the subject from [p] on.
    With [must_advance] an empty match is refused. *)
Definition match_at (fl : flags) (r : regex) (must_advance : bool) (p : nat) (s : str)
  : option rmatch :=
  match m fl r (fun st' => if must_advance && (pos st' =? p)%nat then None else Some st')
          {| pos := p; rest := s; caps := [] |} with
  | Some st' => Some {| m_start := p; m_end := pos st'; m_groups := caps st' |}
  | None => None
  end.

Fixpoint search_from (fl : flags) (r : regex) (p : nat) (s : str) : option rmatch :=
  match match_at fl r false p s with
  | Some mt => Some mt
  | None =>
    match s with
    | [] => None
    | _ :: t => search_from fl r (S p) t
    end
  end.

(** [re.search(pattern, string, flags)] *)
Definition re_search (pattern : regex) (string : str) (fl : flags) : option rmatch :=
  search_from fl pattern 0 string.

(** [re.match(pattern, string, flags)] *)
Definition re_match (pattern : regex) (string : str) (fl : flags) : option rmatch :=
  match_at fl pattern false 0 string.

(** The loop of [re.sub] for a replacement without backslashes: [skip]
    code points of the last match are still to be dropped; otherwise the
    pattern is tried at the position, and after an empty match once more
    with the demand to advance. *)
Fixpoint sub_from (fl : flags) (r : regex) (repl : str) (skip : nat) (p : nat) (s : str)
  : str :=
  match skip with
  | S k =>
    match s with
    | [] => []
    | _ :: t => sub_from fl r repl k (S p) t
    end
  | O =>
    match match_at fl r false p s with
    | None =>
      match s with
      | [] => []
      | c :: t => c :: sub_from fl r repl 0 (S p) t
      end
    | Some mt =>
      if (m_end mt =? p)%nat then
        repl ++ match s with
                | [] => []
                | c :: t =>
                  match match_at fl r true p s with
                  | Some mt' => repl ++ sub_from fl r repl (m_end mt' - p - 1) (S p) t
                  | None => c :: sub_from fl r repl 0 (S p) t
                  end
                end
      else
        repl ++ match s with
                | [] => []
                | _ :: t => sub_from fl r repl (m_end mt - p - 1) (S p) t
                end
    end
  end.

(** [re.sub(pattern, repl, string)] *)
Definition re_sub (pattern : regex) (repl : str) (string : str) : str :=
  sub_from NOFLAG pattern repl 0 0 string.

End Re.

(** ** Values, exceptions and the record under construction *)

Import Str Re.

(** The values that reach the record: a [str], or the [None] that
    [group] returns for a group outside the match. *)
Inductive pyval :=
| PNone
| PStr (s : str).

Inductive exn :=
| AttributeError
| TypeError
| IndexError.

(** The outcome of an expression that may raise. *)
Inductive result (A : Type) :=
| Ok (a : A)
| Raise (e : exn).
Arguments Ok {A} a.
Arguments Raise {A} e.

(** The dictionary [data], keyed by field name. *)
Abbreviation dict := (gmap string pyval) (only parsing).

(** Statements of the [try] block: they read and update [data] and end
    normally or by an exception; the dictionary is mutated in place, so
    the updates made before an exception stay. *)
Definition M (A : Type) : Type := gmap string pyval -> result A * gmap string pyval.

Definition ret {A : Type} (a : A) : M A := fun d => (Ok a, d).

Definition bind {A B : Type} (c : M A) (f : A -> M B) : M B :=
  fun d =>
    match c d with
    | (Ok a, d') => f a d'
    | (Raise e, d') => (Raise e, d')
    end.

Definition lift {A : Type} (r : result A) : M A := fun d => (r, d).

(** [data[key] = value] *)
Definition setitem (key : string) (value : pyval) : M unit :=
  fun d => (Ok tt, <[key := value]> d).

#[global] Instance M_ret : MRet M := @ret.
#[global] Instance M_bind : MBind M := fun A B f c => bind c f.

(** [try: body except Exception: print(...)], followed by [return data]. *)
Definition try_except (body : M unit) (data : gmap string pyval) : gmap string pyval :=
  snd (body data).

(** [for x in xs: ...] where the body tells whether it ran [break]. *)
Fixpoint for_break {A : Type} (xs : list A) (body : A -> M bool) : M unit :=
  match xs with
  | [] => ret tt
  | x :: xs' => b ← body x; if b : bool then ret tt else for_break xs' body
  end.

(** [if match: ...] *)
Definition if_match (o : option rmatch) (body : rmatch -> M unit) : M unit :=
  match o with
  | Some mt => body mt
  | None => ret tt
  end.

(** [mt.group(i)] as a value. *)
Definition group_val (mt : rmatch) (i : nat) : pyval :=
  match group mt i with
  | Some s => PStr s
  | None => PNone
  end.

(** [v.strip()] *)
Definition method_strip (v : pyval) : result str :=
  match v with
  | PStr s => Ok (strip s)
  | PNone => Raise AttributeError
  end.

(** [len(v)] *)
Definition len (v : pyval) : result nat :=
  match v with
  | PStr s => Ok (length s)
  | PNone => Raise TypeError
  end.

(** [str(v)], also the text of [v] in an f-string. *)
Definition str_of (v : pyval) : str :=
  match v with
  | PStr s => s
  | PNone => py "None"
  end.

(** [not v] *)
Definition falsy (v : pyval) : bool :=
  match v with
  | PStr s => is_empty s
  | PNone => true
  end.

(** [v != s] for a string [s] *)
Definition differs (v : pyval) (s : str) : bool :=
  match v with
  | PStr s' => negb (eqb s' s)
  | PNone => true
  end.

(** ** [InvoiceProcessor] *)

Definition whitespace_run : regex := Eval vm_compute in compile "\s+".

(** [clean_text] *)
Definition clean_text (text : str) : str :=
  if is_empty text then []
  else
    let text := re_sub whitespace_run (py " ") text in
    let text := replace (replace text [13; 10] [10]) [13] [10] in
    strip text.

Definition not_numeric : regex := Eval vm_compute in compile "[^\d.,]".
Definition comma : regex := Eval vm_compute in compile ",".

(** [clean_currency] *)
Definition clean_currency (amount_str : pyval) : str :=
  if falsy amount_str then py "0.00"
  else
    let cleaned := re_sub not_numeric [] (str_of amount_str) in
    let cleaned := re_sub comma [] cleaned in
    if is_empty cleaned then py "0.00" else cleaned.

(** The [patterns] of [standardize_date]. *)
Definition date_patterns : list regex := Eval vm_compute in
  [ compile "(\d{2})\.(\d{2})\.(\d{4})";
    compile "(\d{2})/(\d{2})/(\d{4})";
    compile "(\d{2})-(\d{2})-(\d{4})";
    compile "(\d{4})-(\d{2})-(\d{2})" ].

(** The loop of [standardize_date] over the patterns that are left. *)
Fixpoint standardize_with (patterns : list regex) (date_str : str) : result str :=
  match patterns with
  | [] => Ok date_str
  | pattern :: patterns' =>
    match re_search pattern date_str NOFLAG with
    | Some mt =>
      match len (group_val mt 1) with
      | Raise e => Raise e
      | Ok n =>
        if (n =? 4)%nat
        then Ok (str_of (group_val mt 3) ++ py "/" ++ str_of (group_val mt 2)
                 ++ py "/" ++ str_of (group_val mt 1))
        else Ok (str_of (group_val mt 1) ++ py "/" ++ str_of (group_val mt 2)
                 ++ py "/" ++ str_of (group_val mt 3))
      end
    | None => standardize_with patterns' date_str
    end
  end.

(** [standardize_date] *)
Definition standardize_date (date_str : str) : result str :=
  if is_empty date_str || eqb date_str (py "N/A") then Ok (py "N/A")
  else standardize_with date_patterns date_str.

Local Open Scope string_scope.

(** The field names, in the order of [column_order]. *)
Definition column_order : list string :=
  [ "File Name"; "Invoice Source"; "Order Number"; "Invoice Number";
    "Order Date"; "Invoice Date"; "Product Name"; "HSN Code";
    "Quantity"; "Unit Price"; "Net Amount"; "Tax Rate"; "Tax Amount";
    "Total Amount"; "Shipping Charges"; "Grand Total"; "Payment Mode";
    "Seller Name"; "Seller GST"; "Billing Address"; "Shipping Address" ].

(** The dictionary that both parsers start from. *)
Definition initial_data (filename : str) (source : string) : gmap string pyval :=
  list_to_map
    [ ("File Name", PStr filename);
      ("Invoice Source", PStr (py source));
      ("Order Number", PStr (py "N/A"));
      ("Invoice Number", PStr (py "N/A"));
      ("Order Date", PStr (py "N/A"));
      ("Invoice Date", PStr (py "N/A"));
      ("Product Name", PStr (py "N/A"));
      ("HSN Code", PStr (py "N/A"));
      ("Quantity", PStr (py "1"));
      ("Unit Price", PStr (py "0.00"));
      ("Net Amount", PStr (py "0.00"));
      ("Tax Rate", PStr (py "N/A"));
      ("Tax Amount", PStr (py "0.00"));
      ("Total Amount", PStr (py "0.00"));
      ("Shipping Charges", PStr (py "0.00"));
      ("Grand Total", PStr (py "0.00"));
      ("Payment Mode", PStr (py "N/A"));
      ("Seller Name", PStr (py "N/A"));
      ("Seller GST", PStr (py "N/A"));
      ("Billing Address", PStr (py "N/A"));
      ("Shipping Address", PStr (py "N/A")) ].

Local Close Scope string_scope.

(** The statement [if mt: data[key] = mt.group(1).strip()]. *)
Definition set_stripped (key : string) (o : option rmatch) : M unit :=
  if_match o (fun mt =>
    v ← lift (method_strip (group_val mt 1));
    setitem key (PStr v)).

(** The statement
    [if mt: data[key] = InvoiceProcessor.standardize_date(mt.group(1).strip())]. *)
Definition set_date (key : string) (o : option rmatch) : M unit :=
  if_match o (fun mt =>
    v ← lift (method_strip (group_val mt 1));
    d ← lift (standardize_date v);
    setitem key (PStr d)).

(** The statement
    [if mt: data[key] = InvoiceProcessor.clean_currency(mt.group(1))]. *)
Definition set_currency (key : string) (o : option rmatch) : M unit :=
  if_match o (fun mt => setitem key (PStr (clean_currency (group_val mt 1)))).

(** The address statements: strip the group, collapse the white space,
    keep 150 code points. *)
Definition set_address (key : string) (o : option rmatch) : M unit :=
  if_match o (fun mt =>
    addr ← lift (method_strip (group_val mt 1));
    let addr := re_sub whitespace_run (py " ") addr in
    setitem key (PStr (take 150 addr))).

(** [bool(mt)] for the result of [re.search] or [re.match]. *)
Definition matched (o : option rmatch) : bool :=
  match o with
  | Some _ => true
  | None => false
  end.

(** [enumerate(xs)] *)
Definition enumerate {A : Type} (xs : list A) : list (nat * A) :=
  zip (seq 0 (length xs)) xs.

(** *** The Amazon parser *)

Module Amazon.

Definition order_patterns : list regex := Eval vm_compute in
  [ compile "Order\s*Number[:\s]*([0-9\-]+)";
    compile "Order\s*ID[:\s]*([0-9\-]+)";
    compile "Amazon\s*Order[:\s]*([0-9\-]+)" ].

Definition invoice_pattern : regex := Eval vm_compute in
  compile "Invoice\s*Number[:\s]*([A-Z0-9\-]+)".
Definition order_date_pattern : regex := Eval vm_compute in
  compile "Order\s*Date[:\s]*([0-9./\-]+)".
Definition invoice_date_pattern : regex := Eval vm_compute in
  compile "Invoice\s*Date[:\s]*([0-9./\-]+)".

Definition item_number : regex := Eval vm_compute in compile "^\s*1\s+".
Definition section_start : regex := Eval vm_compute in
  compile "^(HSN|₹|\d+%|IGST|Shipping)".
Definition price_information : regex := Eval vm_compute in
  compile "₹[\d,.]+ \d+ ₹[\d,.]+.*$".
Definition keywords : list str := [py "total"; py "amount"; py "tax"; py "gst"].

Definition hsn_pattern : regex := Eval vm_compute in compile "HSN[:\s]*([0-9]+)".
Definition unit_price_pattern : regex := Eval vm_compute in
  compile "₹([\d,]+\.?\d*)\s+1\s+₹".
Definition qty_pattern : regex := Eval vm_compute in
  compile "₹[\d,]+\.?\d*\s+(\d+)\s+₹".
Definition net_amount_pattern : regex := Eval vm_compute in
  compile "₹[\d,]+\.?\d*\s+\d+\s+₹([\d,]+\.?\d*)".
Definition tax_rate_pattern : regex := Eval vm_compute in compile "(\d+)%\s+IGST".
Definition tax_amount_pattern : regex := Eval vm_compute in
  compile "IGST\s+₹([\d,]+\.?\d*)".
Definition total_amount_pattern : regex := Eval vm_compute in
  compile "IGST\s+₹[\d,]+\.?\d*\s+₹([\d,]+\.?\d*)".
Definition shipping_pattern : regex := Eval vm_compute in
  compile "Shipping\s+Charges\s+₹([\d,]+\.?\d*)".

Definition grand_total_patterns : list regex := Eval vm_compute in
  [ compile "TOTAL[:\s]*₹([\d,]+\.?\d*)";
    compile "Invoice\s*Value[:\s]*₹?([\d,]+\.?\d*)";
    compile "Grand\s*Total[:\s]*₹([\d,]+\.?\d*)" ].

Definition payment_pattern : regex := Eval vm_compute in
  compile "Mode\s*of\s*Payment[:\s]*([^\n]+)".
Definition seller_pattern : regex := Eval vm_compute in
  compile "Sold\s*By[:\s]*([^\n*]+)".
Definition after_star : regex := Eval vm_compute in compile "\*.*$".
Definition gst_pattern : regex := Eval vm_compute in
  compile "GST\s*Registration\s*No[:\s]*([A-Z0-9]+)".
Definition billing_pattern : regex := Eval vm_compute in
  compile "Billing\s*Address[:\s]*([^:]+?)(?=Shipping\s*Address|State/UT|$)".
Definition shipping_address_pattern : regex := Eval vm_compute in
  compile "Shipping\s*Address[:\s]*([^:]+?)(?=Place\s*of|State/UT|$)".

(** The loop [while j < len(lines) and j < i + 5] that collects the lines
    continuing the product name.  [n] is [i + 5 - j], so that [j < i + 5]
    reads [n > 0] and each turn ([j += 1]) takes one off. *)
Fixpoint continuation (lines : list str) (n j : nat) (product_parts : list str)
  : result (list str) :=
  match n with
  | O => Ok product_parts
  | S n' =>
    if (j <? length lines)%nat then
      match lines !! j with
      | None => Raise IndexError
      | Some l =>
        let next_line := strip l in
        if negb (is_empty next_line)
           && negb (matched (re_match section_start next_line NOFLAG))
        then
          let product_parts :=
            if negb (existsb (fun keyword => contains keyword (lower next_line)) keywords)
            then product_parts ++ [next_line]
            else product_parts in
          continuation lines n' (S j) product_parts
        else Ok product_parts
      end
    else Ok product_parts
  end.

(** The body of [for i, line in enumerate(lines)]; [true] stands for
    [break]. *)
Definition product_line (lines : list str) (il : nat * str) : M bool :=
  let '(i, line) := il in
  if matched (re_search item_number line NOFLAG) then
    let product_line := re_sub item_number [] line in
    let j := (i + 1)%nat in
    product_parts ← lift (continuation lines (i + 5 - j) j [product_line]);
    let full_product := join (py " ") product_parts in
    let full_product := re_sub price_information [] full_product in
    setitem "Product Name" (PStr (take 200 (strip full_product)));;
    mret true
  else mret false.

(** The body of the loops [for pattern in ...] whose match is stored
    stripped. *)
Definition first_stripped (key : string) (text : str) (fl : flags) (pattern : regex)
  : M bool :=
  match re_search pattern text fl with
  | Some mt =>
    v ← lift (method_strip (group_val mt 1));
    setitem key (PStr v);;
    mret true
  | None => mret false
  end.

(** The body of the loops [for pattern in ...] whose match is stored as
    an amount. *)
Definition first_currency (key : string) (text : str) (fl : flags) (pattern : regex)
  : M bool :=
  match re_search pattern text fl with
  | Some mt =>
    setitem key (PStr (clean_currency (group_val mt 1)));;
    mret true
  | None => mret false
  end.

(** The statements of the [try] block. *)
Definition body (text : str) : M unit :=
  (* ORDER NUMBER *)
  for_break order_patterns (first_stripped "Order Number" text I);;
  (* INVOICE NUMBER *)
  set_stripped "Invoice Number" (re_search invoice_pattern text I);;
  (* DATES *)
  set_date "Order Date" (re_search order_date_pattern text I);;
  set_date "Invoice Date" (re_search invoice_date_pattern text I);;
  (* PRODUCT DETAILS *)
  (let lines := split text 10 in
   for_break (enumerate lines) (product_line lines));;
  (* HSN CODE *)
  set_stripped "HSN Code" (re_search hsn_pattern text I);;
  (* PRICING DETAILS *)
  set_currency "Unit Price" (re_search unit_price_pattern text NOFLAG);;
  (* QUANTITY *)
  if_match (re_search qty_pattern text NOFLAG)
    (fun qty_match => setitem "Quantity" (group_val qty_match 1));;
  (* NET AMOUNT *)
  set_currency "Net Amount" (re_search net_amount_pattern text NOFLAG);;
  (* TAX DETAILS *)
  if_match (re_search tax_rate_pattern text NOFLAG)
    (fun tax_rate_match =>
       setitem "Tax Rate" (PStr (str_of (group_val tax_rate_match 1) ++ py "%")));;
  set_currency "Tax Amount" (re_search tax_amount_pattern text NOFLAG);;
  (* TOTAL AMOUNT *)
  set_currency "Total Amount" (re_search total_amount_pattern text NOFLAG);;
  (* SHIPPING CHARGES *)
  set_currency "Shipping Charges" (re_search shipping_pattern text I);;
  (* GRAND TOTAL *)
  for_break grand_total_patterns (first_currency "Grand Total" text I);;
  (* PAYMENT MODE *)
  set_stripped "Payment Mode" (re_search payment_pattern text I);;
  (* SELLER DETAILS *)
  if_match (re_search seller_pattern text I)
    (fun seller_match =>
       seller_name ← lift (method_strip (group_val seller_match 1));
       let seller_name := strip (re_sub after_star [] seller_name) in
       setitem "Seller Name" (PStr (take 100 seller_name)));;
  (* SELLER GST *)
  set_stripped "Seller GST" (re_search gst_pattern text I);;
  (* BILLING ADDRESS *)
  set_address "Billing Address" (re_search billing_pattern text I_DOTALL);;
  (* SHIPPING ADDRESS *)
  set_address "Shipping Address" (re_search shipping_address_pattern text I_DOTALL).

End Amazon.

(** [extract_amazon_invoice] *)
Definition extract_amazon_invoice (text filename : str) : gmap string pyval :=
  let data := initial_data filename "Amazon" in
  try_except (Amazon.body text) data.

(** *** The Flipkart parser *)

Module Flipkart.

Definition order_pattern : regex := Eval vm_compute in
  compile "Order\s*(?:ID|Number)[:\s]*([A-Z0-9]+)".
Definition invoice_patterns : list regex := Eval vm_compute in
  [ compile "Invoice\s*(?:Number|No)[:\s#]*([A-Z0-9]+)";
    compile "#\s*([A-Z0-9]{10,})" ].
Definition order_date_pattern : regex := Eval vm_compute in
  compile "Order\s*Date[:\s]*([0-9.\-/]+)".
Definition invoice_date_pattern : regex := Eval vm_compute in
  compile "Invoice\s*Date[:\s]*([0-9.\-/]+)".

Definition product_patterns : list regex := Eval vm_compute in
  [ compile "Product\s*Description\s+Qty.*?\n([^\n]+)";
    compile "Description\s+Qty.*?\n([^\n]+)";
    compile "([A-Za-z].*?)\s+HSN[:\s]*\d+";
    compile "Ordered\s*Through.*?\n([^\n]+)" ].
Definition trailing_numbers : regex := Eval vm_compute in
  compile "\d+\s+[\d,]+\.?\d*.*$".
Definition leading_numbers : regex := Eval vm_compute in compile "^\d+\s+".

Definition hsn_pattern : regex := Eval vm_compute in compile "HSN[:\s]*(\d+)".
Definition qty_pattern : regex := Eval vm_compute in compile "Qty\s+(\d+)".
Definition gross_amount_pattern : regex := Eval vm_compute in
  compile "Gross\s*Amount[^₹]*₹?\s*([\d,]+\.?\d*)".
Definition taxable_pattern : regex := Eval vm_compute in
  compile "Taxable\s*[Vv]alue[^₹]*₹?\s*([\d,]+\.?\d*)".
Definition tax_rate_pattern : regex := Eval vm_compute in
  compile "(\d+\.?\d*)%\s*IGST".
Definition tax_amount_pattern : regex := Eval vm_compute in
  compile "IGST[^₹]*₹?\s*([\d,]+\.?\d*)".

Definition total_patterns : list regex := Eval vm_compute in
  [ compile "Total[^₹]*₹?\s*([\d,]+\.?\d*)";
    compile "Grand\s*Total[^₹]*₹?\s*([\d,]+\.?\d*)" ].
Definition shipping_patterns : list regex := Eval vm_compute in
  [ compile "Shipping\s*(?:and\s*)?(?:Handling\s*)?Charges[^₹]*₹?\s*([\d,]+\.?\d*)";
    compile "Delivery\s*Charges[^₹]*₹?\s*([\d,]+\.?\d*)" ].

Definition seller_pattern : regex := Eval vm_compute in
  compile "Sold\s*By[:\s]*([^,\n]+)".
Definition gst_patterns : list regex := Eval vm_compute in
  [ compile "GSTIN[:\s-]*([A-Z0-9]{15})";
    compile "GST[:\s]*([A-Z0-9]{15})" ].
Definition billing_pattern : regex := Eval vm_compute in
  compile "Bill\s*To\s*([^:]+?)(?=Ship\s*To|Order\s*ID|$)".
Definition shipping_address_pattern : regex := Eval vm_compute in
  compile "Ship\s*To\s*([^:]+?)(?=Bill\s*To|Order\s*ID|$)".

(** The body of [for pattern in product_patterns]. *)
Definition product_name (text : str) (pattern : regex) : M bool :=
  match re_search pattern text I_DOTALL with
  | Some mt =>
    product_name ← lift (method_strip (group_val mt 1));
    let product_name := re_sub trailing_numbers [] product_name in
    let product_name := re_sub leading_numbers [] product_name in
    if (10 <? length product_name)%nat then
      setitem "Product Name" (PStr (take 200 product_name));;
      mret true
    else mret false
  | None => mret false
  end.

(** The body of [for pattern in shipping_patterns]. *)
Definition shipping_charges (text : str) (pattern : regex) : M bool :=
  match re_search pattern text I with
  | Some mt =>
    if differs (group_val mt 1) (py "0.00") then
      setitem "Shipping Charges" (PStr (clean_currency (group_val mt 1)));;
      mret true
    else mret false
  | None => mret false
  end.

(** The statements of the [try] block. *)
Definition body (text : str) : M unit :=
  (* ORDER NUMBER *)
  set_stripped "Order Number" (re_search order_pattern text I);;
  (* INVOICE NUMBER *)
  for_break invoice_patterns (Amazon.first_stripped "Invoice Number" text I);;
  (* DATES *)
  set_date "Order Date" (re_search order_date_pattern text I);;
  set_date "Invoice Date" (re_search invoice_date_pattern text I);;
  (* PRODUCT NAME *)
  for_break product_patterns (product_name text);;
  (* HSN CODE *)
  set_stripped "HSN Code" (re_search hsn_pattern text I);;
  (* QUANTITY *)
  if_match (re_search qty_pattern text I)
    (fun qty_match => setitem "Quantity" (group_val qty_match 1));;
  (* PRICING *)
  set_currency "Unit Price" (re_search gross_amount_pattern text I);;
  set_currency "Net Amount" (re_search taxable_pattern text I);;
  (* TAX DETAILS *)
  if_match (re_search tax_rate_pattern text NOFLAG)
    (fun tax_rate_match =>
       setitem "Tax Rate" (PStr (str_of (group_val tax_rate_match 1) ++ py "%")));;
  set_currency "Tax Amount" (re_search tax_amount_pattern text I);;
  (* TOTAL AMOUNT *)
  for_break total_patterns (Amazon.first_currency "Grand Total" text I);;
  (* SHIPPING CHARGES *)
  for_break shipping_patterns (shipping_charges text);;
  (* SELLER DETAILS *)
  if_match (re_search seller_pattern text I)
    (fun seller_match =>
       seller_name ← lift (method_strip (group_val seller_match 1));
       setitem "Seller Name" (PStr (take 100 seller_name)));;
  (* SELLER GST *)
  for_break gst_patterns (Amazon.first_stripped "Seller GST" text I);;
  (* ADDRESSES *)
  set_address "Billing Address" (re_search billing_pattern text I_DOTALL);;
  set_address "Shipping Address" (re_search shipping_address_pattern text I_DOTALL).

End Flipkart.

(** [extract_flipkart_invoice] *)
Definition extract_flipkart_invoice (text filename : str) : gmap string pyval :=
  let data := initial_data filename "Flipkart" in
  try_except (Flipkart.body text) data.

(** [detect_invoice_type] *)
Definition detect_invoice_type (text filename : str) : str :=
  let text_lower := lower text in
  let filename_lower := lower filename in
  if contains (py "amazon") filename_lower then py "amazon"
  else if contains (py "flipkart") filename_lower then py "flipkart"
  else if contains (py "amazon") text_lower || contains (py "ASSPL-Amazon") text
  then py "amazon"
  else if contains (py "flipkart") text_lower then py "flipkart"
  else py "unknown".

(** What [process_invoices] does with the text of one file: no record
    for an empty text, otherwise the record of the parser chosen by
    [detect_invoice_type]. *)
Definition process_text (full_text filename : str) : option (gmap string pyval) :=
  let clean_text := clean_text full_text in
  if is_empty clean_text then None
  else
    let invoice_type := detect_invoice_type clean_text filename in
    if eqb invoice_type (py "amazon") then
      Some (extract_amazon_invoice clean_text filename)
    else if eqb invoice_type (py "flipkart") then
      Some (extract_flipkart_invoice clean_text filename)
    else
      let result := extract_amazon_invoice clean_text filename in
      Some (<["Invoice Source" := PStr (py "Unknown")]> result).

(** ** What a match means *)

Module Sem.

(** One code point that satisfies [p] is consumed. *)
Definition one (p : char -> bool) (st st' : mstate) : Prop :=
  exists x, rest st = x :: rest st' /\ p x = true /\
            pos st' = S (pos st) /\ caps st' = caps st.

(** [n] steps of [R] in a row. *)
Fixpoint pow (R : mstate -> mstate -> Prop) (n : nat) (st st' : mstate) : Prop :=
  match n with
  | O => st' = st
  | S n' => exists st1, R st st1 /\ pow R n' st1 st'
  end.

(** [den fl r st st']: the expression [r] can take the matcher from
    [st] to [st'], whatever the priorities. *)
Fixpoint den (fl : flags) (r : regex) (st st' : mstate) {struct r} : Prop :=
  match r with
  | REmpty => st' = st
  | RLit c => one (lit_match fl c) st st'
  | RAny => one (any_match fl) st st'
  | RSet neg items => one (set_match fl neg items) st st'
  | RCat a b => exists st1, den fl a st st1 /\ den fl b st1 st'
  | RAlt a b => den fl a st st' \/ den fl b st st'
  | RGroup i a => exists st1, den fl a st st1 /\ st' = set_cap i st st1
  | RLook a =>
    exists st1, den fl a st st1 /\
                st' = {| pos := pos st; rest := rest st; caps := caps st1 |}
  | RBol => pos st = O /\ st' = st
  | REol => at_end (rest st) = true /\ st' = st
  | RRep lo hi greedy a =>
    exists n, (lo <= n)%nat /\
              match hi with
              | Some h => (n <= lo + (h - lo))%nat
              | None => True
              end /\
              pow (den fl a) n st st'
  end.

(** Group [i] is closed by every match of [r]. *)
Fixpoint binds (i : nat) (r : regex) : bool :=
  match r with
  | RCat a b => binds i a || binds i b
  | RAlt a b => binds i a && binds i b
  | RGroup j a => (i =? j)%nat || binds i a
  | RRep lo _ _ a => negb (lo =? 0)%nat && binds i a
  | RLook a => binds i a
  | _ => false
  end.

(** [st'] lies [w] further in the subject than [st]. *)
Definition ahead (st st' : mstate) (w : str) : Prop :=
  rest st = w ++ rest st' /\ pos st' = (pos st + length w)%nat.

End Sem.

(** ** The searches behind each field *)

(** For each field, the searches that its statement of the [try] block
    makes on [text]: the rule of the field has matched when one of them
    has. *)
Module Rules.

Local Open Scope string_scope.

Definition amazon (text : str) : list (string * list (option rmatch)) :=
  [ ("Order Number", map (fun p => re_search p text I) Amazon.order_patterns);
    ("Invoice Number", [re_search Amazon.invoice_pattern text I]);
    ("Order Date", [re_search Amazon.order_date_pattern text I]);
    ("Invoice Date", [re_search Amazon.invoice_date_pattern text I]);
    ("Product Name",
     map (fun line => re_search Amazon.item_number line NOFLAG) (split text 10));
    ("HSN Code", [re_search Amazon.hsn_pattern text I]);
    ("Unit Price", [re_search Amazon.unit_price_pattern text NOFLAG]);
    ("Quantity", [re_search Amazon.qty_pattern text NOFLAG]);
    ("Net Amount", [re_search Amazon.net_amount_pattern text NOFLAG]);
    ("Tax Rate", [re_search Amazon.tax_rate_pattern text NOFLAG]);
    ("Tax Amount", [re_search Amazon.tax_amount_pattern text NOFLAG]);
    ("Total Amount", [re_search Amazon.total_amount_pattern text NOFLAG]);
    ("Shipping Charges", [re_search Amazon.shipping_pattern text I]);
    ("Grand Total", map (fun p => re_search p text I) Amazon.grand_total_patterns);
    ("Payment Mode", [re_search Amazon.payment_pattern text I]);
    ("Seller Name", [re_search Amazon.seller_pattern text I]);
    ("Seller GST", [re_search Amazon.gst_pattern text I]);
    ("Billing Address", [re_search Amazon.billing_pattern text I_DOTALL]);
    ("Shipping Address", [re_search Amazon.shipping_address_pattern text I_DOTALL]) ].

Definition flipkart (text : str) : list (string * list (option rmatch)) :=
  [ ("Order Number", [re_search Flipkart.order_pattern text I]);
    ("Invoice Number", map (fun p => re_search p text I) Flipkart.invoice_patterns);
    ("Order Date", [re_search Flipkart.order_date_pattern text I]);
    ("Invoice Date", [re_search Flipkart.invoice_date_pattern text I]);
    ("Product Name", map (fun p => re_search p text I_DOTALL) Flipkart.product_patterns);
    ("HSN Code", [re_search Flipkart.hsn_pattern text I]);
    ("Quantity", [re_search Flipkart.qty_pattern text I]);
    ("Unit Price", [re_search Flipkart.gross_amount_pattern text I]);
    ("Net Amount", [re_search Flipkart.taxable_pattern text I]);
    ("Tax Rate", [re_search Flipkart.tax_rate_pattern text NOFLAG]);
    ("Tax Amount", [re_search Flipkart.tax_amount_pattern text I]);
    ("Grand Total", map (fun p => re_search p text I) Flipkart.total_patterns);
    ("Shipping Charges", map (fun p => re_search p text I) Flipkart.shipping_patterns);
    ("Seller Name", [re_search Flipkart.seller_pattern text I]);
    ("Seller GST", map (fun p => re_search p text I) Flipkart.gst_patterns);
    ("Billing Address", [re_search Flipkart.billing_pattern text I_DOTALL]);
    ("Shipping Address", [re_search Flipkart.shipping_address_pattern text I_DOTALL]) ].

Fixpoint searches (key : string) (table : list (string * list (option rmatch)))
  : list (option rmatch) :=
  match table with
  | [] => []
  | (k, v) :: table' => if String.eqb key k then v else searches key table'
  end.

(** Has a pattern of the rule of [key] matched? *)
Definition matched_rule (key : string) (table : list (string * list (option rmatch))) : bool :=
  existsb matched (searches key table).

End Rules.

(** ** Properties as the specification words them *)

Module Spec.

(** The shape of an amount: [^\d*\.?\d*$]. *)
Definition amount_shape : regex := Eval vm_compute in compile "^\d*\.?\d*$".

End Spec.

Module Scenario.

(** The text and the file name of the scenario of the specification. *)
Definition text : str :=
  py "Order Number: 402-1234567-1234567" ++ [10]
  ++ py "Invoice Date: 01.02.2023" ++ [10]
  ++ py "...₹199.00 1 ₹199.00...5% IGST ₹9.95".

Definition filename : str := py "amazon_invoice.pdf".

(** An item whose name goes on after a line about tax. *)
Definition item_lines : list str := [py "1 Widget"; py "Tax note"; py "Blue"].
Definition item_text : str := join [10] item_lines.

End Scenario.

(** ** The product name of the Amazon parser, line by line *)

Fixpoint take_while {A : Type} (f : A -> bool) (l : list A) : list A :=
  match l with
  | [] => []
  | x :: l' => if f x then x :: take_while f l' else []
  end.

Module Product.

(** A line, trimmed, lets the scan go on: it is not empty and does not
    start a section of the table. *)
Definition goes_on (next_line : str) : bool :=
  negb (is_empty next_line)
  && negb (matched (re_match Amazon.section_start next_line NOFLAG)).

(** A line names an aggregate: its lower case holds a keyword. *)
Definition aggregate (next_line : str) : bool :=
  existsb (fun keyword => contains keyword (lower next_line)) Amazon.keywords.

(** The lines after line [i] that the scan reads: of the four that
    follow, trimmed, those before the first that stops the scan. *)
Definition scanned (lines : list str) (i : nat) : list str :=
  take_while goes_on (map strip (take 4 (drop (S i) lines))).

(** The scanned lines that are appended. *)
Definition appended (lines : list str) (i : nat) : list str :=
  List.filter (fun l => negb (aggregate l)) (scanned lines i).

(** The product name made from the item line [line], which is line [i]. *)
Definition name (lines : list str) (i : nat) (line : str) : str :=
  let product_parts := re_sub Amazon.item_number [] line :: appended lines i in
  take 200 (strip (re_sub Amazon.price_information [] (join (py " ") product_parts))).

(** As the specification words it: a line that starts a section or names
    an aggregate ends the appending. *)
Definition spec_appended (lines : list str) (i : nat) : list str :=
  take_while
    (fun l => negb (matched (re_match Amazon.section_start l NOFLAG) || aggregate l))
    (map strip (take 4 (drop (S i) lines))).

Definition spec_name (lines : list str) (i : nat) (line : str) : str :=
  let product_parts := re_sub Amazon.item_number [] line :: spec_appended lines i in
  take 200 (strip (re_sub Amazon.price_information [] (join (py " ") product_parts))).

End Product.

(** ** Words of a pattern *)

Module Words.

(** The words [ws], one after the other, each in the relation [R] to
    what follows it. *)
Fixpoint chain (R : str -> str -> Prop) (ws : list str) (tail : str) : Prop :=
  match ws with
  | [] => True
  | w :: ws' => R w (concat ws' ++ tail) /\ chain R ws' tail
  end.

(** [accepts fl r w tail]: the pattern [r] can consume the word [w] when
    [tail] follows it.  (A pattern with [^] accepts nothing here.) *)
Fixpoint accepts (fl : flags) (r : regex) (w tail : str) {struct r} : Prop :=
  match r with
  | REmpty => w = []
  | RLit c => exists x, w = [x] /\ lit_match fl c x = true
  | RAny => exists x, w = [x] /\ any_match fl x = true
  | RSet neg items => exists x, w = [x] /\ set_match fl neg items x = true
  | RCat a b =>
    exists w1 w2, w = w1 ++ w2 /\ accepts fl a w1 (w2 ++ tail) /\ accepts fl b w2 tail
  | RAlt a b => accepts fl a w tail \/ accepts fl b w tail
  | RRep lo hi _ a =>
    exists ws, w = concat ws /\ (lo <= length ws)%nat /\
               match hi with
               | Some h => (length ws <= lo + (h - lo))%nat
               | None => True
               end /\
               chain (accepts fl a) ws tail
  | RGroup _ a => accepts fl a w tail
  | RLook a => w = [] /\ exists w' tail', tail = w' ++ tail' /\ accepts fl a w' tail'
  | RBol => False
  | REol => w = [] /\ at_end tail = true
  end.

(** No [^] in the pattern. *)
Fixpoint no_bol (r : regex) : bool :=
  match r with
  | RBol => false
  | RCat a b | RAlt a b => no_bol a && no_bol b
  | RRep _ _ _ a | RGroup _ a | RLook a => no_bol a
  | _ => true
  end.

(** The pattern that is [items] in a row and then [last]. *)
Definition seq_app (items : list regex) (last : regex) : regex :=
  fold_right RCat last items.

(** The items of a pattern before its first group. *)
Fixpoint before_group (r : regex) : list regex :=
  match r with
  | RCat (RGroup _ _) _ => []
  | RCat a b => a :: before_group b
  | _ => []
  end.

(** The pattern from its first group on. *)
Fixpoint from_group (r : regex) : regex :=
  match r with
  | RCat (RGroup _ _) _ => r
  | RCat _ b => from_group b
  | _ => r
  end.

End Words.

(** ** The address fields *)

Module Address.

(** The start of an address pattern, up to its group. *)
Definition start (pattern : regex) : regex :=
  Words.seq_app (Words.before_group pattern) REmpty.

(** The markers that end the span of an address pattern: what its
    look-ahead tries. *)
Definition stop (pattern : regex) : regex :=
  match Words.from_group pattern with
  | RCat _ (RCat (RLook a) _) => RLook a
  | _ => RFail
  end.

(** The value of an address field for the span captured. *)
Definition value (span : str) : pyval :=
  PStr (take 150 (re_sub whitespace_run (py " ") (strip span))).

(** The span of an address as the specification words it: from the start
    marker of either vendor to the nearest marker of the one closed set. *)
Definition spec_billing : regex := Eval vm_compute in
  compile "(?:Billing\s*Address|Bill\s*To)[:\s]*(.+?)(?=Shipping\s*Address|Ship\s*To|State/UT|Place\s*of|Order\s*ID|$)".
Definition spec_shipping : regex := Eval vm_compute in
  compile "(?:Shipping\s*Address|Ship\s*To)[:\s]*(.+?)(?=Shipping\s*Address|Ship\s*To|State/UT|Place\s*of|Order\s*ID|$)".

Definition spec_value (pattern : regex) (text : str) : pyval :=
  match re_search pattern text I_DOTALL with
  | Some mt =>
    match group mt 1 with
    | Some span => value span
    | None => PStr (py "N/A")
    end
  | None => PStr (py "N/A")
  end.

End Address.

Module Span.
Import Words.

(** [span] is a lazy span of the address pattern in [text]: it follows a
    word of the start of the pattern, is not empty, holds no colon, is
    followed by a stop marker of the pattern (or ends the text), and no
    shorter span from the same place is. *)
Definition lazy_span (pattern : regex) (text span : str) : Prop :=
  exists pre marker post,
    text = pre ++ marker ++ span ++ post /\
    accepts I_DOTALL (Address.start pattern) marker (span ++ post) /\
    span <> [] /\ ~ In 58 span /\
    accepts I_DOTALL (Address.stop pattern) [] post /\
    forall j, (0 < j < length span)%nat ->
              ~ accepts I_DOTALL (Address.stop pattern) [] (drop j span ++ post).

(** What an address field holds after the parser has run: the default
    when the pattern finds nothing, otherwise the value of a lazy span. *)
Definition captured (pattern : regex) (text : str) (field : option pyval) : Prop :=
  match re_search pattern text I_DOTALL with
  | None => field = Some (PStr (py "N/A"))
  | Some mt =>
    exists span, group mt 1 = Some span /\ lazy_span pattern text span /\
                 field = Some (Address.value span)
  end.

End Span.

(** ** The record, field by field *)

(** What each statement of the [try] blocks makes of the field it
    writes, as a function of the value [old] that the field had. *)
Module Field.

(** [if mt: data[key] = mt.group(1).strip()] *)
Definition stripped (o : option rmatch) (old : pyval) : pyval :=
  match o with
  | Some mt =>
    match group mt 1 with
    | Some g => PStr (strip g)
    | None => old
    end
  | None => old
  end.

(** [if mt: data[key] = standardize_date(mt.group(1).strip())] *)
Definition date (o : option rmatch) (old : pyval) : pyval :=
  match o with
  | Some mt =>
    match group mt 1 with
    | Some g =>
      match standardize_date (strip g) with
      | Ok d => PStr d
      | Raise _ => old
      end
    | None => old
    end
  | None => old
  end.

(** [if mt: data[key] = clean_currency(mt.group(1))] *)
Definition currency (o : option rmatch) (old : pyval) : pyval :=
  match o with
  | Some mt => PStr (clean_currency (group_val mt 1))
  | None => old
  end.

(** [if mt: data["Quantity"] = mt.group(1)] *)
Definition quantity (o : option rmatch) (old : pyval) : pyval :=
  match o with
  | Some mt => group_val mt 1
  | None => old
  end.

(** [if mt: data["Tax Rate"] = f"{mt.group(1)}%"] *)
Definition tax_rate (o : option rmatch) (old : pyval) : pyval :=
  match o with
  | Some mt => PStr (str_of (group_val mt 1) ++ py "%")
  | None => old
  end.

(** The address statements. *)
Definition address (o : option rmatch) (old : pyval) : pyval :=
  match o with
  | Some mt =>
    match group mt 1 with
    | Some g => Address.value g
    | None => old
    end
  | None => old
  end.

(** The seller of the Amazon parser: what follows an asterisk is cut. *)
Definition amazon_seller (o : option rmatch) (old : pyval) : pyval :=
  match o with
  | Some mt =>
    match group mt 1 with
    | Some g => PStr (take 100 (strip (re_sub Amazon.after_star [] (strip g))))
    | None => old
    end
  | None => old
  end.

(** The seller of the Flipkart parser. *)
Definition flipkart_seller (o : option rmatch) (old : pyval) : pyval :=
  match o with
  | Some mt =>
    match group mt 1 with
    | Some g => PStr (take 100 (strip g))
    | None => old
    end
  | None => old
  end.

(** The match of the first pattern of the list that finds something. *)
Fixpoint first_match (patterns : list regex) (text : str) (fl : flags) : option rmatch :=
  match patterns with
  | [] => None
  | pattern :: patterns' =>
    match re_search pattern text fl with
    | Some mt => Some mt
    | None => first_match patterns' text fl
    end
  end.

(** The product name of the Amazon parser: that of the first line with
    an item number. *)
Fixpoint amazon_product (lines : list str) (i : nat) (todo : list str) (old : pyval)
  : pyval :=
  match todo with
  | [] => old
  | line :: todo' =>
    if matched (re_search Amazon.item_number line NOFLAG)
    then PStr (Product.name lines i line)
    else amazon_product lines (S i) todo' old
  end.

(** The product name that a match of a Flipkart pattern gives, before the
    test of its length. *)
Definition flipkart_candidate (g : str) : str :=
  re_sub Flipkart.leading_numbers [] (re_sub Flipkart.trailing_numbers [] (strip g)).

(** The product name of the Flipkart parser: that of the first pattern
    whose candidate is longer than 10 code points. *)
Fixpoint flipkart_product (patterns : list regex) (text : str) (old : pyval) : pyval :=
  match patterns with
  | [] => old
  | pattern :: patterns' =>
    match re_search pattern text I_DOTALL with
    | Some mt =>
      match group mt 1 with
      | Some g =>
        if (10 <? length (flipkart_candidate g))%nat
        then PStr (take 200 (flipkart_candidate g))
        else flipkart_product patterns' text old
      | None => old
      end
    | None => flipkart_product patterns' text old
    end
  end.

(** The shipping charges of the Flipkart parser: the amount of the first
    pattern that finds something other than "0.00". *)
Fixpoint flipkart_shipping (patterns : list regex) (text : str) (old : pyval) : pyval :=
  match patterns with
  | [] => old
  | pattern :: patterns' =>
    match re_search pattern text I with
    | Some mt =>
      if differs (group_val mt 1) (py "0.00")
      then PStr (clean_currency (group_val mt 1))
      else flipkart_shipping patterns' text old
    | None => flipkart_shipping patterns' text old
    end
  end.

Local Open Scope string_scope.

(** The record of the Amazon parser. *)
Definition amazon (text filename : str) : list (string * pyval) :=
  let na := PStr (py "N/A") in
  let zero := PStr (py "0.00") in
  [ ("File Name", PStr filename);
    ("Invoice Source", PStr (py "Amazon"));
    ("Order Number", stripped (first_match Amazon.order_patterns text I) na);
    ("Invoice Number", stripped (re_search Amazon.invoice_pattern text I) na);
    ("Order Date", date (re_search Amazon.order_date_pattern text I) na);
    ("Invoice Date", date (re_search Amazon.invoice_date_pattern text I) na);
    ("Product Name", amazon_product (split text 10) 0 (split text 10) na);
    ("HSN Code", stripped (re_search Amazon.hsn_pattern text I) na);
    ("Quantity", quantity (re_search Amazon.qty_pattern text NOFLAG) (PStr (py "1")));
    ("Unit Price", currency (re_search Amazon.unit_price_pattern text NOFLAG) zero);
    ("Net Amount", currency (re_search Amazon.net_amount_pattern text NOFLAG) zero);
    ("Tax Rate", tax_rate (re_search Amazon.tax_rate_pattern text NOFLAG) na);
    ("Tax Amount", currency (re_search Amazon.tax_amount_pattern text NOFLAG) zero);
    ("Total Amount", currency (re_search Amazon.total_amount_pattern text NOFLAG) zero);
    ("Shipping Charges", currency (re_search Amazon.shipping_pattern text I) zero);
    ("Grand Total", currency (first_match Amazon.grand_total_patterns text I) zero);
    ("Payment Mode", stripped (re_search Amazon.payment_pattern text I) na);
    ("Seller Name", amazon_seller (re_search Amazon.seller_pattern text I) na);
    ("Seller GST", stripped (re_search Amazon.gst_pattern text I) na);
    ("Billing Address", address (re_search Amazon.billing_pattern text I_DOTALL) na);
    ("Shipping Address",
     address (re_search Amazon.shipping_address_pattern text I_DOTALL) na) ].

(** The record of the Flipkart parser. *)
Definition flipkart (text filename : str) : list (string * pyval) :=
  let na := PStr (py "N/A") in
  let zero := PStr (py "0.00") in
  [ ("File Name", PStr filename);
    ("Invoice Source", PStr (py "Flipkart"));
    ("Order Number", stripped (re_search Flipkart.order_pattern text I) na);
    ("Invoice Number", stripped (first_match Flipkart.invoice_patterns text I) na);
    ("Order Date", date (re_search Flipkart.order_date_pattern text I) na);
    ("Invoice Date", date (re_search Flipkart.invoice_date_pattern text I) na);
    ("Product Name", flipkart_product Flipkart.product_patterns text na);
    ("HSN Code", stripped (re_search Flipkart.hsn_pattern text I) na);
    ("Quantity", quantity (re_search Flipkart.qty_pattern text I) (PStr (py "1")));
    ("Unit Price", currency (re_search Flipkart.gross_amount_pattern text I) zero);
    ("Net Amount", currency (re_search Flipkart.taxable_pattern text I) zero);
    ("Tax Rate", tax_rate (re_search Flipkart.tax_rate_pattern text NOFLAG) na);
    ("Tax Amount", currency (re_search Flipkart.tax_amount_pattern text I) zero);
    ("Total Amount", zero);
    ("Shipping Charges", flipkart_shipping Flipkart.shipping_patterns text zero);
    ("Grand Total", currency (first_match Flipkart.total_patterns text I) zero);
    ("Payment Mode", na);
    ("Seller Name", flipkart_seller (re_search Flipkart.seller_pattern text I) na);
    ("Seller GST", stripped (first_match Flipkart.gst_patterns text I) na);
    ("Billing Address", address (re_search Flipkart.billing_pattern text I_DOTALL) na);
    ("Shipping Address",
     address (re_search Flipkart.shipping_address_pattern text I_DOTALL) na) ].

End Field.

(** ** White space, run by run *)

(** The text with one space for each run of white space; [in_run] says
    that the run the text starts in has its space already. *)
Fixpoint collapse_from (in_run : bool) (s : str) : str :=
  match s with
  | [] => []
  | c :: t =>
    if isspace c then
      if in_run then collapse_from true t else 32 :: collapse_from true t
    else c :: collapse_from false t
  end.

(** The words of a text, those that white space separates, [word] being
    the part read of the word that goes on. *)
Fixpoint words_from (word s : str) : list str :=
  match s with
  | [] => if is_empty word then [] else [word]
  | c :: t =>
    if isspace c then
      if is_empty word then words_from [] t else word :: words_from [] t
    else words_from (word ++ [c]) t
  end.

(** [s.split()] *)
Definition words (s : str) : list str := words_from [] s.

(** ** [process_invoices] *)

(** [s.endswith(suffix)] *)
Definition endswith (s suffix : str) : bool :=
  eqb (drop (length s - length suffix) s) suffix.

(** The files of the listing that are read. *)
Definition pdf_files (listing : list str) : list str :=
  List.filter (fun f => endswith (lower f) (py ".pdf")) listing.

(** The texts that [extract_text] gave for the pages of a file, joined;
    a page without text gives [None] or the empty string and is left
    out. *)
Definition full_text (pages : list pyval) : str :=
  let text_parts :=
    flat_map (fun page_text => if falsy page_text then [] else [str_of page_text]) pages in
  join [10] text_parts.

(** What the loop over the files has made so far. *)
Record progress := {
  all_invoices : list (gmap string pyval);
  processed_files : nat;
  failed_files : list str
}.

(** Before the loop. *)
Definition initial_progress : progress :=
  {| all_invoices := []; processed_files := 0; failed_files := [] |}.

Definition failed (filename : str) (st : progress) : progress :=
  {| all_invoices := all_invoices st;
     processed_files := processed_files st;
     failed_files := failed_files st ++ [filename] |}.

Definition processed (result : gmap string pyval) (st : progress) : progress :=
  {| all_invoices := all_invoices st ++ [result];
     processed_files := S (processed_files st);
     failed_files := failed_files st |}.

Section Files.

(** What [pdfplumber] gives for a file: the results of [extract_text]
    for its pages, or the exception that opening or reading raised. *)
Variable read_pages : str -> result (list pyval).

(** The body of [for filename in files]. *)
Definition process_file (st : progress) (filename : str) : progress :=
  match read_pages filename with
  | Raise _ => failed filename st
  | Ok pages =>
    match process_text (full_text pages) filename with
    | None => failed filename st
    | Some result => processed result st
    end
  end.

Definition process_files (files : list str) : progress :=
  fold_left process_file files initial_progress.

(** A file gives a record. *)
Definition gives_record (filename : str) : bool :=
  match read_pages filename with
  | Raise _ => false
  | Ok pages =>
    match process_text (full_text pages) filename with
    | None => false
    | Some _ => true
    end
  end.

End Files.



(** ** What a pattern cannot do without *)

(** Every match of [r] consumes a code point for the literal [c]. *)
Fixpoint needs (c : char) (r : regex) : bool :=
  match r with
  | RLit c' => c' =? c
  | RCat a b => needs c a || needs c b
  | RAlt a b => needs c a && needs c b
  | RRep lo _ _ a => (0 <? lo)%nat && needs c a
  | RGroup _ a => needs c a
  | _ => false
  end.

(** ** What a group can hold *)

(** The least number of code points that a match of [r] consumes. *)
Fixpoint min_len (r : regex) : nat :=
  match r with
  | RLit _ | RAny | RSet _ _ => 1
  | RCat a b => min_len a + min_len b
  | RAlt a b => Nat.min (min_len a) (min_len b)
  | RRep lo _ _ a => lo * min_len a
  | RGroup _ a => min_len a
  | _ => 0
  end.

(** Every code point that [r] consumes satisfies [Q]. *)
Fixpoint consumes (fl : flags) (Q : char -> Prop) (r : regex) : Prop :=
  match r with
  | RLit c => forall x, lit_match fl c x = true -> Q x
  | RAny => forall x, any_match fl x = true -> Q x
  | RSet neg items => forall x, set_match fl neg items x = true -> Q x
  | RCat a b | RAlt a b => consumes fl Q a /\ consumes fl Q b
  | RRep _ _ _ a | RGroup _ a => consumes fl Q a
  | _ => True
  end.

(** Every group [i] of [r] is around an expression that consumes at
    least [n] code points, all of which satisfy [Q]. *)
Fixpoint captures (fl : flags) (i n : nat) (Q : char -> Prop) (r : regex) : Prop :=
  match r with
  | RGroup j a =>
    (if (i =? j)%nat then (n <= min_len a)%nat /\ consumes fl Q a else True) /\
    captures fl i n Q a
  | RCat a b | RAlt a b => captures fl i n Q a /\ captures fl i n Q b
  | RRep _ _ _ a | RLook a => captures fl i n Q a
  | _ => True
  end.

(** The code points of no interval [lo .. hi] are in one of [ranges]. *)
Definition apart (lo hi : N) (ranges : list (N * N)) : bool :=
  forallb (fun '(a, b) => (b <? lo) || (hi <? a)) ranges.

(** ** Notions that the statements and their proofs use *)

Import Sem Words.

(** Group [i] has been closed on the way to [st]. *)
Definition closed (i : nat) (st : mstate) : Prop := is_Some (assoc i (caps st)).

(** The dictionary has the fields of [column_order], each bound to a
    [str]. *)
Definition well_formed (d : gmap string pyval) : Prop :=
  dom d = list_to_set column_order /\
  forall k v, d !! k = Some v -> exists s, v = PStr s.

(** [c] ends normally and keeps the dictionary well formed. *)
Definition runs {A : Type} (c : M A) : Prop :=
  forall d, well_formed d -> exists a d', c d = (Ok a, d') /\ well_formed d'.

(** [c] leaves the field [k] as it is. *)
Definition preserves {A : Type} (k : string) (c : M A) : Prop :=
  forall d, (c d).2 !! k = d !! k.

(** The class [\s] as the matcher tests it. *)
Definition is_space_set (x : char) : bool := set_match NOFLAG false [ISpace] x.

(** The class [\d]. *)
Definition digit_set : regex := RSet false [IDigit].

(** A group [(\d{n})]. *)
Definition digits_group (i n : nat) : regex :=
  RGroup i (RCat (RRep n (Some n) true digit_set) REmpty).

(** A date pattern: three groups of digits with a separator between. *)
Definition date_pattern (n1 n2 n3 : nat) (sep : char) : regex :=
  RCat (digits_group 1 n1)
    (RCat (RLit sep)
       (RCat (digits_group 2 n2)
          (RCat (RLit sep)
             (RCat (digits_group 3 n3) REmpty)))).

(** The date that [standardize_date] writes. *)
Definition written_date (a b c d e f g h : char) : str :=
  [a; b; 47; c; d; 47; e; f; g; h].

(** [s] holds [needle]. *)
Definition holds (needle s : str) : Prop :=
  exists pre post, s = pre ++ needle ++ post.

(** [s] holds [needle] up to case: a piece of [s] is [needle] in lower
    case. *)
Definition holds_ignoring_case (needle s : str) : Prop :=
  exists pre mid post, s = pre ++ mid ++ post /\ lower mid = needle.

(** The needles of the program: lower-case text that does not end in
    "i" and has no combining dot, the two code points that come from the
    one upper-case letter whose lower case is two code points long. *)
Definition plain (needle : str) : Prop := ~ In 775 needle /\ List.last needle 0 <> 105.

(** [c] ends normally, keeps the dictionary well formed and leaves [v]
    in the field [k]. *)
Definition assigns {A : Type} (k : string) (v : pyval) (c : M A) : Prop :=
  forall d, well_formed d ->
    exists a d', c d = (Ok a, d') /\ well_formed d' /\ d' !! k = Some v.

(** The continuation [k] goes on from every state that has [tail] left
    at position [p]. *)
Definition goes_on_at (k : cont) (tail : str) (p : nat) : Prop :=
  forall st', rest st' = tail -> pos st' = p -> k st' <> None.

(** The matcher [ma] of an expression finds every word in [A]. *)
Definition finds (ma : cont -> cont) (A : str -> str -> Prop) : Prop :=
  forall w tail, A w tail ->
  forall k st, rest st = w ++ tail ->
    goes_on_at k tail (pos st + length w) -> ma k st <> None.

(** The number of words that are not empty. *)
Definition nonempty_words (ws : list str) : nat :=
  length (List.filter (fun w => negb (is_empty w)) ws).

(** The state [n] code points further on. *)
Definition advance (st : mstate) (n : nat) : mstate :=
  {| pos := pos st + n; rest := drop n (rest st); caps := caps st |}.

(** The group [([...]+?)] of a class. *)
Definition lazy_group (neg : bool) (items : list citem) : regex :=
  RGroup 1 (RCat (RRep 1 None false (RSet neg items)) REmpty).

(** No group in the pattern. *)
Fixpoint no_group (r : regex) : bool :=
  match r with
  | RGroup _ _ => false
  | RCat a b | RAlt a b => no_group a && no_group b
  | RRep _ _ _ a | RLook a => no_group a
  | _ => true
  end.

(** The shape of the four address patterns: some items, the group
    [([^:]+?)] and a look-ahead. *)
Definition address_shape (pattern stops : regex) : Prop :=
  pattern = seq_app (before_group pattern)
              (RCat (lazy_group true [IChar 58]) (RCat (RLook stops) REmpty)) /\
  Address.stop pattern = RLook stops /\
  no_bol (Address.start pattern) = true /\
  no_bol stops = true /\ no_group stops = true.

(** [c] ends normally, keeps the dictionary well formed and makes [f] of
    the field [k]. *)
Definition updates {A : Type} (k : string) (f : pyval -> pyval) (c : M A) : Prop :=
  forall d, well_formed d ->
    exists a d', c d = (Ok a, d') /\ well_formed d' /\ d' !! k = f <$> d !! k.

(** The field holds a string of at most [n] code points. *)
Definition at_most (n : nat) (field : option pyval) : Prop :=
  exists s, field = Some (PStr s) /\ (length s <= n)%nat.

(** The field holds a non-empty string of decimal digits and periods. *)
Definition is_amount (field : option pyval) : Prop :=
  exists s, field = Some (PStr s) /\ s <> [] /\
            Forall (fun c => isdecimal c = true \/ c = 46) s.

(** The fields that hold amounts. *)
Definition amount_fields : list string :=
  [ "Unit Price"; "Net Amount"; "Tax Amount"; "Total Amount";
    "Shipping Charges"; "Grand Total" ]%string.

(** A string of code points none of which is white space. *)
Definition solid (w : str) : Prop := Forall (fun c => isspace c = false) w.

(** The words, each after a space. *)
Definition spaced (ws : list str) : str := flat_map (fun w => 32 :: w) ws.

(** The string ends with a code point that is not white space. *)
Definition ends_word (x : str) : Prop := exists y c, x = y ++ [c] /\ isspace c = false.

(** The name that a record carries. *)
Definition file_name (record : gmap string pyval) : option pyval :=
  record !! "File Name"%string.


(** A date written with the separator [sep], day first. *)
Definition day_first (sep : char) (a b c d e f g h : char) : str :=
  [a; b; sep; c; d; sep; e; f; g; h].

(** A date written year first, with hyphens. *)
Definition year_first (a b c d e f g h : char) : str :=
  [a; b; c; d; 45; e; f; 45; g; h].

(** The words of a page. *)
Definition page_words (page_text : pyval) : list str :=
  match page_text with
  | PStr s => words s
  | PNone => []
  end.

(** The group [i] holds at least [n] code points, all of which satisfy
    [Q]. *)
Definition holds_group (i n : nat) (Q : char -> Prop) (st : mstate) : Prop :=
  forall g, assoc i (caps st) = Some g -> (n <= length g)%nat /\ Forall Q g.

(** The field holds a non-empty string of decimal digits. *)
Definition is_number (field : option pyval) : Prop :=
  exists w, field = Some (PStr w) /\ w <> [] /\ Forall (fun c => isdecimal c = true) w.

(** The field holds "N/A", or a non-empty string of code points that
    satisfy [Q] followed by a percent sign. *)
Definition is_rate (Q : char -> Prop) (field : option pyval) : Prop :=
  field = Some (PStr (py "N/A")) \/
  exists w, field = Some (PStr (w ++ py "%")) /\ w <> [] /\ Forall Q w.

(** The code points that an item of a class stands for. *)
Definition in_item (it : citem) (x : char) : Prop :=
  match it with
  | IChar c => x = c
  | IRange lo hi => lo <= x <= hi
  | IDigit => isdecimal x = true
  | ISpace => isspace x = true
  end.

(** A character without another case: it folds to itself, and it is the
    lower case of nothing else. *)
Definition caseless (c : char) : Prop := c < 97 /\ fold_set c = [c].

(** An item of a class that [re.IGNORECASE] leaves as it is. *)
Definition plain_item (it : citem) : Prop :=
  match it with
  | IChar c => caseless c
  | IRange lo hi => Forall caseless (range lo hi)
  | IDigit => True
  | ISpace => False
  end.

(** The field holds "N/A" or a non-empty string of code points that
    satisfy [Q]. *)
Definition is_code (Q : char -> Prop) (field : option pyval) : Prop :=
  field = Some (PStr (py "N/A")) \/
  exists g, field = Some (PStr g) /\ g <> [] /\ Forall Q g.

(** The field is "N/A" when the pattern finds nothing, and otherwise
    the words of the span that it captured, with one space between them,
    cut after 150 code points. *)
Definition words_of_span (pattern : regex) (text : str) (field : option pyval) : Prop :=
  match re_search pattern text I_DOTALL with
  | Some mt =>
    exists span, group mt 1 = Some span /\
                 field = Some (PStr (take 150 (join [32] (words span))))
  | None => field = Some (PStr (py "N/A"))
  end.

(** The class of all code points but [stops]. *)
Definition all_but (stops : list char) : list citem := map IChar stops.

(** The capture [g] is a stretch of [text] that holds none of [stops]
    and goes on until one of them or the end of the text. *)
Definition runs_to (stops : list char) (text g : str) : Prop :=
  g <> [] /\ Forall (fun c => ~ In c stops) g /\
  exists before after,
    text = before ++ g ++ after /\
    match after with
    | [] => True
    | y :: _ => In y stops
    end.

(** The group [([^...]+)] of a class. *)
Definition greedy_group (items : list citem) : regex :=
  RGroup 1 (RCat (RRep 1 None true (RSet true items)) REmpty).

(** A pattern that ends with the greedy group of all code points but
    [stops]. *)
Definition ends_greedy (pattern : regex) (stops : list char) : Prop :=
  pattern = seq_app (before_group pattern) (RCat (greedy_group (all_but stops)) REmpty) /\
  Forall caseless stops.

(** The field is "N/A" when the pattern finds nothing, and otherwise
    [value] of a capture that runs to one of [stops] or to the end of
    the text. *)
Definition greedy_field (pattern : regex) (stops : list char) (value : str -> str)
  (text : str) (field : option pyval) : Prop :=
  match re_search pattern text I with
  | Some mt =>
    exists g, group mt 1 = Some g /\ runs_to stops text g /\
              field = Some (PStr (value g))
  | None => field = Some (PStr (py "N/A"))
  end.

(** * Properties of the matcher and of the parsers *)

(** ** The matcher on small subjects *)

(** What Python's [re] answers on the same subjects. *)
Example search_is_leftmost_and_greedy :
  option_map (fun mt => (m_start mt, m_end mt, group mt 1))
    (re_search (compile "Order\s*Number[:\s]*([0-9\-]+)")
               (py "xx order number:  402-123 z") I)
  = Some (3%nat, 25%nat, Some (py "402-123")).
Proof. vm_compute. reflexivity. Qed.

Example search_is_case_sensitive_without_the_flag :
  re_search (compile "(\d+)%\s+IGST") (py "5% igst") NOFLAG = None.
Proof. vm_compute. reflexivity. Qed.

Example lazy_span_stops_at_the_first_marker :
  option_map (fun mt => group mt 1)
    (re_search (compile "Bill\s*To\s*([^:]+?)(?=Ship\s*To|Order\s*ID|$)")
               (py "Bill To A B Ship To C Ship To D") I_DOTALL)
  = Some (Some (py "A B ")).
Proof. vm_compute. reflexivity. Qed.

Example sub_replaces_empty_matches_too :
  re_sub (compile "x*") (py "-") (py "abxd") = py "-a-b--d-".
Proof. vm_compute. reflexivity. Qed.

Example dollar_before_a_final_line_feed :
  re_sub (compile "\*.*$") [] (py "a*b" ++ [10]) = py "a" ++ [10].
Proof. vm_compute. reflexivity. Qed.

(** Every pattern of the program has been parsed. *)
Lemma patterns_are_parsed :
  Forall (fun p => p <> RFail)
    ([whitespace_run; not_numeric; comma] ++ date_patterns
     ++ Amazon.order_patterns
     ++ [Amazon.invoice_pattern; Amazon.order_date_pattern; Amazon.invoice_date_pattern;
         Amazon.item_number; Amazon.section_start; Amazon.price_information;
         Amazon.hsn_pattern; Amazon.unit_price_pattern; Amazon.qty_pattern;
         Amazon.net_amount_pattern; Amazon.tax_rate_pattern; Amazon.tax_amount_pattern;
         Amazon.total_amount_pattern; Amazon.shipping_pattern]
     ++ Amazon.grand_total_patterns
     ++ [Amazon.payment_pattern; Amazon.seller_pattern; Amazon.after_star;
         Amazon.gst_pattern; Amazon.billing_pattern; Amazon.shipping_address_pattern;
         Flipkart.order_pattern]
     ++ Flipkart.invoice_patterns
     ++ [Flipkart.order_date_pattern; Flipkart.invoice_date_pattern]
     ++ Flipkart.product_patterns
     ++ [Flipkart.trailing_numbers; Flipkart.leading_numbers; Flipkart.hsn_pattern;
         Flipkart.qty_pattern; Flipkart.gross_amount_pattern; Flipkart.taxable_pattern;
         Flipkart.tax_rate_pattern; Flipkart.tax_amount_pattern]
     ++ Flipkart.total_patterns ++ Flipkart.shipping_patterns
     ++ [Flipkart.seller_pattern] ++ Flipkart.gst_patterns
     ++ [Flipkart.billing_pattern; Flipkart.shipping_address_pattern;
         Spec.amount_shape; Address.spec_billing; Address.spec_shipping]).
Proof. repeat constructor; discriminate. Qed.

(** ** The matcher finds only matches *)

Section Soundness.
Variable fl : flags.

Lemma step_sound (p : char -> bool) (k : cont) (st res : mstate) :
  step p k st = Some res -> exists st', one p st st' /\ k st' = Some res.
Proof.
  unfold step. destruct (rest st) as [|x t] eqn:Hr; [discriminate|].
  destruct (p x) eqn:Hp; [|discriminate]. intros Hk.
  eexists. split; [|exact Hk]. exists x. simpl. auto.
Qed.

Lemma rep_must_sound (ma : cont -> cont) (R : mstate -> mstate -> Prop) :
  (forall k st res, ma k st = Some res -> exists st', R st st' /\ k st' = Some res) ->
  forall n k st res, rep_must ma n k st = Some res ->
    exists st', pow R n st st' /\ k st' = Some res.
Proof.
  intros Hma. induction n as [|n IH]; simpl; intros k st res H.
  - eauto.
  - apply Hma in H as (st1 & H1 & H). apply IH in H as (st' & H2 & H). eauto.
Qed.

Lemma rep_more_sound (ma : cont -> cont) (R : mstate -> mstate -> Prop) (greedy : bool) (k : cont) :
  (forall k st res, ma k st = Some res -> exists st', R st st' /\ k st' = Some res) ->
  forall fuel st res, rep_more ma greedy k fuel st = Some res ->
    exists n st', (n <= fuel)%nat /\ pow R n st st' /\ k st' = Some res.
Proof.
  intros Hma. induction fuel as [|f IH]; simpl; intros st res H.
  - exists O, st. simpl. auto.
  - assert (Hagain : forall res',
      ma (fun st2 => if (pos st <? pos st2)%nat then rep_more ma greedy k f st2 else None) st
        = Some res' ->
      exists n st', (n <= S f)%nat /\ pow R n st st' /\ k st' = Some res').
    { intros res' H'. apply Hma in H' as (st1 & H1 & H').
      destruct (pos st <? pos st1)%nat; [|discriminate].
      apply IH in H' as (n & st' & Hn & Hp & Hk).
      exists (S n), st'. simpl. split; [lia|]. eauto. }
    assert (Hstop : forall res', k st = Some res' ->
      exists n st', (n <= S f)%nat /\ pow R n st st' /\ k st' = Some res').
    { intros res' H'. exists O, st. simpl. split; [lia|]. auto. }
    destruct greedy.
    + destruct (ma _ st) as [r1|] eqn:E.
      * inversion H; subst. eauto.
      * eauto.
    + destruct (k st) as [r1|] eqn:E.
      * inversion H; subst. eauto.
      * eauto.
Qed.

Lemma pow_le_trans (R : mstate -> mstate -> Prop) n1 n2 st st1 st' :
  pow R n1 st st1 -> pow R n2 st1 st' -> pow R (n1 + n2) st st'.
Proof.
  revert st. induction n1 as [|n1 IH]; simpl; intros st H1 H2.
  - subst. exact H2.
  - destruct H1 as (s & Hs & H1). eauto.
Qed.

Theorem m_sound (r : regex) :
  forall k st res, m fl r k st = Some res ->
    exists st', den fl r st st' /\ k st' = Some res.
Proof.
  induction r as [| c | | neg items | a IHa b IHb | a IHa b IHb
                 | lo hi greedy a IHa | i a IHa | a IHa | | ];
    simpl; intros k st res H.
  - eauto.
  - apply step_sound in H. exact H.
  - apply step_sound in H. exact H.
  - apply step_sound in H. exact H.
  - apply IHa in H as (st1 & H1 & H). apply IHb in H as (st' & H2 & H). eauto.
  - destruct (m fl a k st) as [r1|] eqn:E.
    + inversion H; subst. apply IHa in E as (st' & ? & ?). eauto.
    + apply IHb in H as (st' & ? & ?). eauto.
  - apply (rep_must_sound _ _ IHa) in H as (st0 & H0 & H).
    apply (rep_more_sound _ _ _ _ IHa) in H as (n & st' & Hn & Hp & Hk).
    exists st'. split; [|exact Hk].
    exists (lo + n)%nat. split; [lia|]. split.
    + destruct hi; [lia|exact Logic.I].
    + eapply pow_le_trans; eauto.
  - apply IHa in H as (st1 & H1 & H). eauto.
  - destruct (m fl a Some st) as [st1|] eqn:E; [|discriminate].
    apply IHa in E as (st1' & H1 & E). inversion E; subst. eauto.
  - destruct (pos st =? 0)%nat eqn:E; [|discriminate].
    apply Nat.eqb_eq in E. eauto.
  - destruct (at_end (rest st)) eqn:E; [|discriminate]. eauto.
Qed.

End Soundness.

Section Consequences.
Variable fl : flags.

Lemma pow_ind_rel (R : mstate -> mstate -> Prop) (P : mstate -> mstate -> Prop) :
  (forall st, P st st) ->
  (forall st st1 st', R st st1 -> P st1 st' -> P st st') ->
  forall n st st', pow R n st st' -> P st st'.
Proof.
  intros Hrefl Hstep. induction n as [|n IH]; simpl; intros st st' H.
  - subst. apply Hrefl.
  - destruct H as (st1 & H1 & H). eauto.
Qed.

Lemma ahead_refl st : ahead st st [].
Proof. split; simpl; [reflexivity|lia]. Qed.

Lemma ahead_trans st st1 st' w1 w2 :
  ahead st st1 w1 -> ahead st1 st' w2 -> ahead st st' (w1 ++ w2).
Proof.
  intros [H1 H2] [H3 H4]. split.
  - rewrite H1, H3, app_assoc. reflexivity.
  - rewrite H4, H2, length_app. lia.
Qed.

Lemma one_ahead p st st' : one p st st' -> exists x, p x = true /\ ahead st st' [x].
Proof.
  intros (x & Hr & Hp & Hpos & _). exists x. split; [exact Hp|].
  split; simpl; [exact Hr|lia].
Qed.

(** A match consumes a piece of the subject. *)
Lemma den_ahead (r : regex) :
  forall st st', den fl r st st' -> exists w, ahead st st' w.
Proof.
  induction r as [| c | | neg items | a IHa b IHb | a IHa b IHb
                 | lo hi greedy a IHa | i a IHa | a IHa | | ];
    simpl; intros st st' H.
  - subst. eexists. apply ahead_refl.
  - apply one_ahead in H as (x & _ & H). eauto.
  - apply one_ahead in H as (x & _ & H). eauto.
  - apply one_ahead in H as (x & _ & H). eauto.
  - destruct H as (st1 & H1 & H2).
    apply IHa in H1 as (w1 & H1). apply IHb in H2 as (w2 & H2).
    eexists. eapply ahead_trans; eauto.
  - destruct H as [H|H]; eauto.
  - destruct H as (n & _ & _ & H).
    refine (pow_ind_rel _ (fun s s' => exists w, ahead s s' w) _ _ _ _ _ H).
    + intros s. eexists. apply ahead_refl.
    + intros s s1 s' H1 (w2 & H2). apply IHa in H1 as (w1 & H1).
      eexists. eapply ahead_trans; eauto.
  - destruct H as (st1 & H1 & ->). apply IHa in H1 as (w & H1). exists w. exact H1.
  - destruct H as (st1 & H1 & ->). exists []. split; simpl; [reflexivity|lia].
  - destruct H as [_ ->]. eexists. apply ahead_refl.
  - destruct H as [_ ->]. eexists. apply ahead_refl.
Qed.

Lemma closed_set_cap i j st st1 : closed i st1 -> closed i (set_cap j st st1).
Proof.
  unfold closed, set_cap. simpl. destruct (i =? j)%nat; eauto.
Qed.

Lemma closed_set_cap_eq i st st1 : closed i (set_cap i st st1).
Proof.
  unfold closed, set_cap. simpl. rewrite Nat.eqb_refl. eauto.
Qed.

(** A group that is closed stays closed. *)
Lemma den_closed_mono (i : nat) (r : regex) :
  forall st st', den fl r st st' -> closed i st -> closed i st'.
Proof.
  induction r as [| c | | neg items | a IHa b IHb | a IHa b IHb
                 | lo hi greedy a IHa | j a IHa | a IHa | | ];
    simpl; intros st st' H Hc.
  - subst. exact Hc.
  - destruct H as (x & _ & _ & _ & Hcaps). unfold closed. rewrite Hcaps. exact Hc.
  - destruct H as (x & _ & _ & _ & Hcaps). unfold closed. rewrite Hcaps. exact Hc.
  - destruct H as (x & _ & _ & _ & Hcaps). unfold closed. rewrite Hcaps. exact Hc.
  - destruct H as (st1 & H1 & H2). eauto.
  - destruct H as [H|H]; eauto.
  - destruct H as (n & _ & _ & H).
    refine (pow_ind_rel _ (fun s s' => closed i s -> closed i s') _ _ _ _ _ H Hc); eauto.
  - destruct H as (st1 & H1 & ->). apply closed_set_cap. eauto.
  - destruct H as (st1 & H1 & ->). unfold closed. simpl. apply (IHa _ _ H1 Hc).
  - destruct H as [_ ->]. exact Hc.
  - destruct H as [_ ->]. exact Hc.
Qed.

(** A group that every match of the pattern goes through is closed. *)
Lemma den_binds (i : nat) (r : regex) :
  binds i r = true -> forall st st', den fl r st st' -> closed i st'.
Proof.
  induction r as [| c | | neg items | a IHa b IHb | a IHa b IHb
                 | lo hi greedy a IHa | j a IHa | a IHa | | ];
    simpl; intros Hb st st' H; try discriminate.
  - destruct H as (st1 & H1 & H2). apply orb_true_iff in Hb as [Hb|Hb].
    + eapply den_closed_mono; eauto.
    + eauto.
  - apply andb_true_iff in Hb as [Hb1 Hb2]. destruct H as [H|H]; eauto.
  - apply andb_true_iff in Hb as [Hlo Hb].
    destruct H as (n & Hn & _ & H).
    destruct n as [|n].
    { destruct lo; [discriminate|lia]. }
    simpl in H. destruct H as (st1 & H1 & H).
    assert (Hc : closed i st1) by eauto.
    refine (pow_ind_rel _ (fun s s' => closed i s -> closed i s') _ _ _ _ _ H Hc); [eauto|].
    intros s s1 s' Hs Hp Hc'. apply Hp. eapply den_closed_mono; eauto.
  - destruct H as (st1 & H1 & ->). apply orb_true_iff in Hb as [Hb|Hb].
    + apply Nat.eqb_eq in Hb. subst. apply closed_set_cap_eq.
    + apply closed_set_cap. eauto.
  - destruct H as (st1 & H1 & ->). unfold closed. simpl. apply (IHa Hb _ _ H1).
Qed.

(** [re.search] finds a match of the pattern somewhere in the subject. *)
Lemma search_from_sound (r : regex) :
  forall s p mt, search_from fl r p s = Some mt ->
    exists pre suf st',
      s = pre ++ suf /\
      den fl r {| pos := p + length pre; rest := suf; caps := [] |} st' /\
      mt = {| m_start := p + length pre; m_end := pos st'; m_groups := caps st' |}.
Proof.
  induction s as [|c t IH]; intros p mt H; simpl in H.
  - unfold match_at in H.
    destruct (m fl r _ _) as [st'|] eqn:E; [|discriminate].
    apply m_sound in E as (st1 & Hd & E). simpl in E. inversion E; subst.
    inversion H; subst.
    exists [], [], st'. simpl. rewrite Nat.add_0_r. auto.
  - unfold match_at in H.
    destruct (m fl r _ _) as [st'|] eqn:E.
    + apply m_sound in E as (st1 & Hd & E). simpl in E. inversion E; subst.
      inversion H; subst.
      exists [], (c :: t), st'. simpl. rewrite Nat.add_0_r. auto.
    + apply IH in H as (pre & suf & st' & -> & Hd & ->).
      exists (c :: pre), suf, st'. simpl.
      replace (p + S (length pre))%nat with (S p + length pre)%nat by lia. auto.
Qed.

Lemma search_binds (i : nat) (r : regex) (s : str) (mt : rmatch) :
  binds i r = true -> re_search r s fl = Some mt -> is_Some (group mt i).
Proof.
  intros Hb H. apply search_from_sound in H as (pre & suf & st' & _ & Hd & ->).
  apply (den_binds i r Hb) in Hd. exact Hd.
Qed.

End Consequences.

(** ** The statements of the [try] blocks end normally *)

Lemma runs_ret {A : Type} (a : A) : runs (mret a).
Proof. intros d Hd. exists a, d. auto. Qed.

Lemma runs_bind {A B : Type} (c : M A) (f : A -> M B) :
  runs c -> (forall a, runs (f a)) -> runs (c ≫= f).
Proof.
  intros Hc Hf d Hd. destruct (Hc d Hd) as (a & d1 & E & Hd1).
  destruct (Hf a d1 Hd1) as (b & d2 & E2 & Hd2).
  exists b, d2. unfold mbind, M_bind, bind. rewrite E. auto.
Qed.

Lemma runs_lift {A : Type} (r : result A) : (exists a, r = Ok a) -> runs (lift r).
Proof. intros [a ->] d Hd. exists a, d. auto. Qed.

Lemma well_formed_insert (key : string) (s : str) (d : gmap string pyval) :
  key ∈ column_order -> well_formed d -> well_formed (<[key := PStr s]> d).
Proof.
  intros Hk [Hdom Hval]. split.
  - rewrite dom_insert_L, Hdom. apply subseteq_union_1_L.
    apply singleton_subseteq_l, elem_of_list_to_set, Hk.
  - intros k v. rewrite lookup_insert. case_decide.
    + intros [= <-]. eauto.
    + apply Hval.
Qed.

Lemma runs_setitem (key : string) (v : pyval) :
  key ∈ column_order -> (exists s, v = PStr s) -> runs (setitem key v).
Proof.
  intros Hk [s ->] d Hd. exists tt, (<[key := PStr s]> d).
  split; [reflexivity|]. apply well_formed_insert; assumption.
Qed.

Lemma runs_for_break {A : Type} (xs : list A) (body : A -> M bool) :
  (forall x, runs (body x)) -> runs (for_break xs body).
Proof.
  intros Hb. induction xs as [|x xs IH]; simpl.
  - apply runs_ret.
  - apply runs_bind; [apply Hb|]. intros [|]; [apply runs_ret|exact IH].
Qed.

Lemma runs_if_match (o : option rmatch) (body : rmatch -> M unit) :
  (forall mt, o = Some mt -> runs (body mt)) -> runs (if_match o body).
Proof.
  intros H. destruct o as [mt|]; simpl; [apply H; reflexivity|apply (runs_ret tt)].
Qed.

Lemma group_val_str (fl : flags) (r : regex) (s : str) (mt : rmatch) :
  binds 1 r = true -> re_search r s fl = Some mt ->
  exists g, group_val mt 1 = PStr g.
Proof.
  intros Hb H. destruct (search_binds fl 1 r s mt Hb H) as [g Hg].
  exists g. unfold group_val. rewrite Hg. reflexivity.
Qed.

Lemma strip_group_ok (fl : flags) (r : regex) (s : str) (mt : rmatch) :
  binds 1 r = true -> re_search r s fl = Some mt ->
  exists v, method_strip (group_val mt 1) = Ok v.
Proof.
  intros Hb H. destruct (group_val_str fl r s mt Hb H) as [g ->]. simpl. eauto.
Qed.

(** [standardize_date] raises nothing. *)
Lemma standardize_with_ok (patterns : list regex) (date_str : str) :
  Forall (fun p => binds 1 p = true) patterns ->
  exists r, standardize_with patterns date_str = Ok r.
Proof.
  induction 1 as [|p ps Hp _ IH]; simpl; [eauto|].
  destruct (re_search p date_str NOFLAG) as [mt|] eqn:E; [|exact IH].
  destruct (group_val_str _ _ _ _ Hp E) as [g ->]. simpl.
  destruct (length g =? 4)%nat; eauto.
Qed.

Lemma standardize_date_ok (date_str : str) : exists r, standardize_date date_str = Ok r.
Proof.
  unfold standardize_date.
  destruct (is_empty date_str || eqb date_str (py "N/A")); [eauto|].
  apply standardize_with_ok. unfold date_patterns.
  repeat constructor.
Qed.

Lemma runs_set_stripped (key : string) (fl : flags) (r : regex) (text : str) :
  key ∈ column_order -> binds 1 r = true ->
  runs (set_stripped key (re_search r text fl)).
Proof.
  intros Hk Hb. apply runs_if_match. intros mt E.
  apply runs_bind.
  - apply runs_lift. eapply strip_group_ok; eauto.
  - intros v. apply runs_setitem; eauto.
Qed.

Lemma runs_set_date (key : string) (fl : flags) (r : regex) (text : str) :
  key ∈ column_order -> binds 1 r = true ->
  runs (set_date key (re_search r text fl)).
Proof.
  intros Hk Hb. apply runs_if_match. intros mt E.
  apply runs_bind.
  - apply runs_lift. eapply strip_group_ok; eauto.
  - intros v. apply runs_bind.
    + apply runs_lift. apply standardize_date_ok.
    + intros w. apply runs_setitem; eauto.
Qed.

Lemma runs_set_currency (key : string) (o : option rmatch) :
  key ∈ column_order -> runs (set_currency key o).
Proof.
  intros Hk. apply runs_if_match. intros mt _. apply runs_setitem; eauto.
Qed.

Lemma runs_set_address (key : string) (fl : flags) (r : regex) (text : str) :
  key ∈ column_order -> binds 1 r = true ->
  runs (set_address key (re_search r text fl)).
Proof.
  intros Hk Hb. apply runs_if_match. intros mt E.
  apply runs_bind.
  - apply runs_lift. eapply strip_group_ok; eauto.
  - intros v. apply runs_setitem; eauto.
Qed.

Lemma runs_first_stripped (key : string) (text : str) (fl : flags) (r : regex) :
  key ∈ column_order -> binds 1 r = true ->
  runs (Amazon.first_stripped key text fl r).
Proof.
  intros Hk Hb. unfold Amazon.first_stripped.
  destruct (re_search r text fl) as [mt|] eqn:E; [|apply runs_ret].
  apply runs_bind.
  - apply runs_lift. eapply strip_group_ok; eauto.
  - intros v. apply runs_bind; [apply runs_setitem; eauto|]. intros _. apply runs_ret.
Qed.

Lemma runs_first_currency (key : string) (text : str) (fl : flags) (r : regex) :
  key ∈ column_order -> runs (Amazon.first_currency key text fl r).
Proof.
  intros Hk. unfold Amazon.first_currency.
  destruct (re_search r text fl) as [mt|]; [|apply runs_ret].
  apply runs_bind; [apply runs_setitem; eauto|]. intros _. apply runs_ret.
Qed.

Lemma runs_for_patterns (ps : list regex) (P : regex -> Prop) (body : regex -> M bool) :
  Forall P ps -> (forall p, P p -> runs (body p)) -> runs (for_break ps body).
Proof.
  intros HP Hb. induction HP as [|p ps Hp _ IH]; simpl.
  - apply runs_ret.
  - apply runs_bind; [apply Hb, Hp|]. intros [|]; [apply runs_ret|exact IH].
Qed.

(** The [while] loop stays inside [lines]. *)
Lemma continuation_ok (lines : list str) :
  forall n j parts, exists r, Amazon.continuation lines n j parts = Ok r.
Proof.
  induction n as [|n IH]; simpl; intros j parts; [eauto|].
  destruct (j <? length lines)%nat eqn:E; [|eauto].
  apply Nat.ltb_lt in E. destruct (lookup_lt_is_Some_2 lines j E) as [l ->].
  destruct (negb (is_empty (strip l)) && _); eauto.
Qed.

Lemma runs_product_line (lines : list str) (il : nat * str) :
  runs (Amazon.product_line lines il).
Proof.
  destruct il as [i line]. unfold Amazon.product_line.
  destruct (matched _); [|apply runs_ret].
  apply runs_bind; [apply runs_lift, continuation_ok|].
  intros parts. apply runs_bind; [|intros _; apply runs_ret].
  apply runs_setitem; [|eauto].
  unfold column_order; repeat first [apply list_elem_of_here | apply list_elem_of_further].
Qed.

Ltac in_columns :=
  unfold column_order; repeat first [apply list_elem_of_here | apply list_elem_of_further].

Theorem amazon_body_runs (text : str) : runs (Amazon.body text).
Proof.
  unfold Amazon.body.
  repeat (apply runs_bind; [|intros _]).
  - apply runs_for_patterns with (P := fun p => binds 1 p = true).
    + repeat constructor.
    + intros p Hp. apply runs_first_stripped; [in_columns|exact Hp].
  - apply runs_set_stripped; [in_columns|reflexivity].
  - apply runs_set_date; [in_columns|reflexivity].
  - apply runs_set_date; [in_columns|reflexivity].
  - apply runs_for_break. apply runs_product_line.
  - apply runs_set_stripped; [in_columns|reflexivity].
  - apply runs_set_currency; in_columns.
  - apply runs_if_match. intros mt E. apply runs_setitem; [in_columns|].
    eapply group_val_str; [|exact E]. reflexivity.
  - apply runs_set_currency; in_columns.
  - apply runs_if_match. intros mt E. apply runs_setitem; [in_columns|eauto].
  - apply runs_set_currency; in_columns.
  - apply runs_set_currency; in_columns.
  - apply runs_set_currency; in_columns.
  - apply runs_for_break. intros p. apply runs_first_currency; in_columns.
  - apply runs_set_stripped; [in_columns|reflexivity].
  - apply runs_if_match. intros mt E. apply runs_bind.
    + apply runs_lift. eapply strip_group_ok; [|exact E]. reflexivity.
    + intros v. apply runs_setitem; [in_columns|eauto].
  - apply runs_set_stripped; [in_columns|reflexivity].
  - apply runs_set_address; [in_columns|reflexivity].
  - apply runs_set_address; [in_columns|reflexivity].
Qed.

Lemma runs_product_name (text : str) (r : regex) :
  binds 1 r = true -> runs (Flipkart.product_name text r).
Proof.
  intros Hb. unfold Flipkart.product_name.
  destruct (re_search r text I_DOTALL) as [mt|] eqn:E; [|apply runs_ret].
  apply runs_bind.
  - apply runs_lift. eapply strip_group_ok; eauto.
  - intros v. destruct (10 <? _)%nat; [|apply runs_ret].
    apply runs_bind; [apply runs_setitem; [in_columns|eauto]|].
    intros _. apply runs_ret.
Qed.

Lemma runs_shipping_charges (text : str) (r : regex) :
  runs (Flipkart.shipping_charges text r).
Proof.
  unfold Flipkart.shipping_charges.
  destruct (re_search r text I) as [mt|]; [|apply runs_ret].
  destruct (differs _ _); [|apply runs_ret].
  apply runs_bind; [apply runs_setitem; [in_columns|eauto]|].
  intros _. apply runs_ret.
Qed.

Theorem flipkart_body_runs (text : str) : runs (Flipkart.body text).
Proof.
  unfold Flipkart.body.
  repeat (apply runs_bind; [|intros _]).
  - apply runs_set_stripped; [in_columns|reflexivity].
  - apply runs_for_patterns with (P := fun p => binds 1 p = true).
    + repeat constructor.
    + intros p Hp. apply runs_first_stripped; [in_columns|exact Hp].
  - apply runs_set_date; [in_columns|reflexivity].
  - apply runs_set_date; [in_columns|reflexivity].
  - apply runs_for_patterns with (P := fun p => binds 1 p = true).
    + repeat constructor.
    + intros p Hp. apply runs_product_name, Hp.
  - apply runs_set_stripped; [in_columns|reflexivity].
  - apply runs_if_match. intros mt E. apply runs_setitem; [in_columns|].
    eapply group_val_str; [|exact E]. reflexivity.
  - apply runs_set_currency; in_columns.
  - apply runs_set_currency; in_columns.
  - apply runs_if_match. intros mt E. apply runs_setitem; [in_columns|eauto].
  - apply runs_set_currency; in_columns.
  - apply runs_for_break. intros p. apply runs_first_currency; in_columns.
  - apply runs_for_break. intros p. apply runs_shipping_charges.
  - apply runs_if_match. intros mt E. apply runs_bind.
    + apply runs_lift. eapply strip_group_ok; [|exact E]. reflexivity.
    + intros v. apply runs_setitem; [in_columns|eauto].
  - apply runs_for_patterns with (P := fun p => binds 1 p = true).
    + repeat constructor.
    + intros p Hp. apply runs_first_stripped; [in_columns|exact Hp].
  - apply runs_set_address; [in_columns|reflexivity].
  - apply runs_set_address; [in_columns|reflexivity].
Qed.

Lemma initial_data_well_formed (filename : str) (source : string) :
  well_formed (initial_data filename source).
Proof.
  split.
  - unfold initial_data. rewrite dom_list_to_map_L. reflexivity.
  - intros k v H. unfold initial_data in H.
    apply elem_of_list_to_map_2 in H.
    repeat (apply elem_of_cons in H as [H|H]; [inversion H; eauto|]).
    inversion H.
Qed.

Lemma well_formed_lookup (d : gmap string pyval) (k : string) :
  well_formed d -> k ∈ column_order -> exists s, d !! k = Some (PStr s).
Proof.
  intros [Hdom Hval] Hk.
  assert (Hin : k ∈ dom d) by (rewrite Hdom; apply elem_of_list_to_set, Hk).
  apply elem_of_dom in Hin as [v Hv]. destruct (Hval k v Hv) as [s ->]. eauto.
Qed.

(** The [try] block of either parser ends normally, and the parser
    returns the dictionary it leaves. *)
Lemma extract_amazon_normal (text filename : str) :
  exists d, Amazon.body text (initial_data filename "Amazon") = (Ok tt, d) /\
            extract_amazon_invoice text filename = d /\ well_formed d.
Proof.
  destruct (amazon_body_runs text _ (initial_data_well_formed filename "Amazon"))
    as ([] & d & E & Hd).
  exists d. unfold extract_amazon_invoice, try_except. rewrite E. auto.
Qed.

Lemma extract_flipkart_normal (text filename : str) :
  exists d, Flipkart.body text (initial_data filename "Flipkart") = (Ok tt, d) /\
            extract_flipkart_invoice text filename = d /\ well_formed d.
Proof.
  destruct (flipkart_body_runs text _ (initial_data_well_formed filename "Flipkart"))
    as ([] & d & E & Hd).
  exists d. unfold extract_flipkart_invoice, try_except. rewrite E. auto.
Qed.

(** C1: whatever the text and the file name, the record of either
    parser has exactly the 21 fields of [column_order], without a
    duplicate, and each of them is bound to a string. *)
Theorem C1_record_has_the_21_fields (text filename : str) :
  length column_order = 21%nat /\ NoDup column_order /\
  (dom (extract_amazon_invoice text filename) = list_to_set column_order /\
   forall k, k ∈ column_order ->
     exists s, extract_amazon_invoice text filename !! k = Some (PStr s)) /\
  (dom (extract_flipkart_invoice text filename) = list_to_set column_order /\
   forall k, k ∈ column_order ->
     exists s, extract_flipkart_invoice text filename !! k = Some (PStr s)).
Proof.
  split; [reflexivity|]. split.
  { refine (@bool_decide_unpack (NoDup column_order) _ _). vm_compute. exact Logic.I. }
  split.
  - destruct (extract_amazon_normal text filename) as (d & _ & -> & Hd).
    split; [apply Hd|]. intros k Hk. apply well_formed_lookup; assumption.
  - destruct (extract_flipkart_normal text filename) as (d & _ & -> & Hd).
    split; [apply Hd|]. intros k Hk. apply well_formed_lookup; assumption.
Qed.

(** C9: no exception leaves the parsers.  The statements of the [try]
    block of either parser end normally for every text, so the handler
    never runs and the parser returns the dictionary they leave; and
    should a statement raise, [try_except] returns the dictionary as the
    statements before it left it, the later ones not being run. *)
Theorem C9_no_exception_escapes (text filename : str) :
  (exists d, Amazon.body text (initial_data filename "Amazon") = (Ok tt, d) /\
             extract_amazon_invoice text filename = d /\ well_formed d) /\
  (exists d, Flipkart.body text (initial_data filename "Flipkart") = (Ok tt, d) /\
             extract_flipkart_invoice text filename = d /\ well_formed d) /\
  (forall (before after : M unit) (data d' : gmap string pyval) (e : exn),
     before data = (Raise e, d') -> try_except (before ;; after) data = d') /\
  (forall (before after : M unit) (data d' : gmap string pyval) (e : exn),
     before data = (Ok tt, d') -> after d' = (Raise e, d') ->
     try_except (before ;; after) data = d').
Proof.
  split; [apply extract_amazon_normal|]. split; [apply extract_flipkart_normal|].
  split.
  - intros before after data d' e H.
    unfold try_except, mbind, M_bind, bind. rewrite H. reflexivity.
  - intros before after data d' e H1 H2.
    unfold try_except, mbind, M_bind, bind. rewrite H1, H2. reflexivity.
Qed.

(** ** A field changes only by its own statement *)

Lemma preserves_ret {A : Type} (k : string) (a : A) : preserves k (mret a).
Proof. intros d. reflexivity. Qed.

Lemma preserves_lift {A : Type} (k : string) (r : result A) : preserves k (lift r).
Proof. intros d. reflexivity. Qed.

Lemma preserves_bind {A B : Type} (k : string) (c : M A) (f : A -> M B) :
  preserves k c -> (forall a, preserves k (f a)) -> preserves k (c ≫= f).
Proof.
  intros Hc Hf d. unfold mbind, M_bind, bind. specialize (Hc d).
  destruct (c d) as [[a|e] d1]; simpl in *.
  - rewrite Hf. exact Hc.
  - exact Hc.
Qed.

Lemma preserves_setitem (k key : string) (v : pyval) :
  key <> k -> preserves k (setitem key v).
Proof. intros Hne d. simpl. apply lookup_insert_ne, Hne. Qed.

Lemma preserves_for_break {A : Type} (k : string) (xs : list A) (body : A -> M bool) :
  (forall x, In x xs -> preserves k (body x)) -> preserves k (for_break xs body).
Proof.
  induction xs as [|x xs IH]; simpl; intros Hb.
  - apply (preserves_ret k tt).
  - apply preserves_bind; [apply Hb; auto|].
    intros [|]; [apply (preserves_ret k tt)|apply IH; auto].
Qed.

Lemma preserves_if_match (k : string) (o : option rmatch) (body : rmatch -> M unit) :
  (forall mt, preserves k (body mt)) -> preserves k (if_match o body).
Proof. intros H. destruct o; simpl; [apply H|apply (preserves_ret k tt)]. Qed.

Lemma preserves_unmatched (k : string) (o : option rmatch) (body : rmatch -> M unit) :
  matched o = false -> preserves k (if_match o body).
Proof. destruct o; [discriminate|]. intros _. apply (preserves_ret k tt). Qed.

Lemma preserves_set_stripped (k key : string) (o : option rmatch) :
  key <> k -> preserves k (set_stripped key o).
Proof.
  intros Hne. apply preserves_if_match. intros mt.
  apply preserves_bind; [apply preserves_lift|]. intros v. apply preserves_setitem, Hne.
Qed.

Lemma preserves_set_date (k key : string) (o : option rmatch) :
  key <> k -> preserves k (set_date key o).
Proof.
  intros Hne. apply preserves_if_match. intros mt.
  apply preserves_bind; [apply preserves_lift|]. intros v.
  apply preserves_bind; [apply preserves_lift|]. intros w. apply preserves_setitem, Hne.
Qed.

Lemma preserves_set_currency (k key : string) (o : option rmatch) :
  key <> k -> preserves k (set_currency key o).
Proof.
  intros Hne. apply preserves_if_match. intros mt. apply preserves_setitem, Hne.
Qed.

Lemma preserves_set_address (k key : string) (o : option rmatch) :
  key <> k -> preserves k (set_address key o).
Proof.
  intros Hne. apply preserves_if_match. intros mt.
  apply preserves_bind; [apply preserves_lift|]. intros v. apply preserves_setitem, Hne.
Qed.

Lemma preserves_first_stripped (k key : string) (text : str) (fl : flags) (p : regex) :
  key <> k \/ matched (re_search p text fl) = false ->
  preserves k (Amazon.first_stripped key text fl p).
Proof.
  intros H. unfold Amazon.first_stripped.
  destruct (re_search p text fl); [|apply preserves_ret].
  destruct H as [Hne|H]; [|discriminate].
  apply preserves_bind; [apply preserves_lift|]. intros v.
  apply preserves_bind; [apply preserves_setitem, Hne|]. intros _. apply preserves_ret.
Qed.

Lemma preserves_first_currency (k key : string) (text : str) (fl : flags) (p : regex) :
  key <> k \/ matched (re_search p text fl) = false ->
  preserves k (Amazon.first_currency key text fl p).
Proof.
  intros H. unfold Amazon.first_currency.
  destruct (re_search p text fl); [|apply preserves_ret].
  destruct H as [Hne|H]; [|discriminate].
  apply preserves_bind; [apply preserves_setitem, Hne|]. intros _. apply preserves_ret.
Qed.

Lemma preserves_product_line (k : string) (lines : list str) (il : nat * str) :
  "Product Name"%string <> k \/ matched (re_search Amazon.item_number il.2 NOFLAG) = false ->
  preserves k (Amazon.product_line lines il).
Proof.
  intros H. destruct il as [i line]. unfold Amazon.product_line. simpl in H.
  destruct (matched _); [|apply preserves_ret].
  destruct H as [Hne|H]; [|discriminate].
  apply preserves_bind; [apply preserves_lift|]. intros parts.
  apply preserves_bind; [apply preserves_setitem, Hne|]. intros _. apply preserves_ret.
Qed.

Lemma preserves_product_name (k : string) (text : str) (p : regex) :
  "Product Name"%string <> k \/ matched (re_search p text I_DOTALL) = false ->
  preserves k (Flipkart.product_name text p).
Proof.
  intros H. unfold Flipkart.product_name.
  destruct (re_search p text I_DOTALL); [|apply preserves_ret].
  destruct H as [Hne|H]; [|discriminate].
  apply preserves_bind; [apply preserves_lift|]. intros v.
  destruct (10 <? _)%nat; [|apply preserves_ret].
  apply preserves_bind; [apply preserves_setitem, Hne|]. intros _. apply preserves_ret.
Qed.

Lemma preserves_shipping_charges (k : string) (text : str) (p : regex) :
  "Shipping Charges"%string <> k \/ matched (re_search p text I) = false ->
  preserves k (Flipkart.shipping_charges text p).
Proof.
  intros H. unfold Flipkart.shipping_charges.
  destruct (re_search p text I); [|apply preserves_ret].
  destruct H as [Hne|H]; [|discriminate].
  destruct (differs _ _); [|apply preserves_ret].
  apply preserves_bind; [apply preserves_setitem, Hne|]. intros _. apply preserves_ret.
Qed.

Lemma existsb_false_in {A : Type} (f : A -> bool) (l : list A) (x : A) :
  existsb f l = false -> In x l -> f x = false.
Proof.
  intros H Hin. destruct (f x) eqn:E; [|reflexivity].
  rewrite <- H. symmetry. apply existsb_exists. eauto.
Qed.

Lemma in_enumerate {A : Type} (xs : list A) (il : nat * A) :
  In il (enumerate xs) -> In il.2 xs.
Proof.
  unfold enumerate. intros H. destruct il as [i l].
  apply list_elem_of_In in H. apply elem_of_zip_r in H.
  apply list_elem_of_In. exact H.
Qed.

(** The lemma for the body of a loop. *)
Ltac loop_body :=
  lazymatch goal with
  | |- preserves _ (Amazon.first_stripped _ _ _ _) => apply preserves_first_stripped
  | |- preserves _ (Amazon.first_currency _ _ _ _) => apply preserves_first_currency
  | |- preserves _ (Amazon.product_line _ _) => apply preserves_product_line
  | |- preserves _ (Flipkart.product_name _ _) => apply preserves_product_name
  | |- preserves _ (Flipkart.shipping_charges _ _) => apply preserves_shipping_charges
  end.

(** Settles [preserves k stmt] for a statement of a [try] block, [k]
    being a given field name: the statement writes another field, or
    its searches are among those that [H] says have failed. *)
Ltac frame H :=
  lazymatch goal with
  | |- preserves _ (for_break _ _) =>
    apply preserves_for_break; intros ? Hin; loop_body;
    first
      [ left; discriminate
      | right; apply (existsb_false_in matched _ _ H);
        first
          [ apply (in_map (fun p => re_search p _ _)); exact Hin
          | apply (in_map (fun line => re_search Amazon.item_number line NOFLAG));
            apply in_enumerate; exact Hin ] ]
  | |- preserves _ (set_stripped _ _) =>
    first [ apply preserves_set_stripped; discriminate
          | apply preserves_unmatched; apply (existsb_false_in matched _ _ H);
            left; reflexivity ]
  | |- preserves _ (set_date _ _) =>
    first [ apply preserves_set_date; discriminate
          | apply preserves_unmatched; apply (existsb_false_in matched _ _ H);
            left; reflexivity ]
  | |- preserves _ (set_currency _ _) =>
    first [ apply preserves_set_currency; discriminate
          | apply preserves_unmatched; apply (existsb_false_in matched _ _ H);
            left; reflexivity ]
  | |- preserves _ (set_address _ _) =>
    first [ apply preserves_set_address; discriminate
          | apply preserves_unmatched; apply (existsb_false_in matched _ _ H);
            left; reflexivity ]
  | |- preserves _ (if_match _ _) =>
    first
      [ apply preserves_if_match; intros ?;
        solve [ apply preserves_setitem; discriminate
              | apply preserves_bind; [apply preserves_lift|];
                intros ?; apply preserves_setitem; discriminate ]
      | apply preserves_unmatched; apply (existsb_false_in matched _ _ H);
        left; reflexivity ]
  end.

Ltac frame_body H :=
  unfold Rules.matched_rule, Rules.amazon, Rules.flipkart in H;
  cbn [Rules.searches String.eqb Ascii.eqb Bool.eqb] in H;
  cbv zeta;
  repeat (apply preserves_bind; [|intros _]);
  frame H.

Lemma amazon_frame (text : str) (k : string) :
  k ∈ column_order -> Rules.matched_rule k (Rules.amazon text) = false ->
  preserves k (Amazon.body text).
Proof.
  intros Hk H. unfold column_order in Hk.
  repeat (apply elem_of_cons in Hk as [->|Hk];
          [unfold Amazon.body; frame_body H|]).
  inversion Hk.
Qed.

Lemma flipkart_frame (text : str) (k : string) :
  k ∈ column_order -> Rules.matched_rule k (Rules.flipkart text) = false ->
  preserves k (Flipkart.body text).
Proof.
  intros Hk H. unfold column_order in Hk.
  repeat (apply elem_of_cons in Hk as [->|Hk];
          [unfold Flipkart.body; frame_body H|]).
  inversion Hk.
Qed.

Lemma frame_lookup (k : string) (body : M unit) (d : gmap string pyval) :
  preserves k body -> try_except body d !! k = d !! k.
Proof. intros H. apply H. Qed.

(** A field none of whose searches matched keeps the value the parser
    started with. *)
Lemma C5_frame (text filename : str) (key : string) :
  key ∈ column_order ->
  (Rules.matched_rule key (Rules.amazon text) = false ->
   extract_amazon_invoice text filename !! key = initial_data filename "Amazon" !! key) /\
  (Rules.matched_rule key (Rules.flipkart text) = false ->
   extract_flipkart_invoice text filename !! key = initial_data filename "Flipkart" !! key).
Proof.
  intros Hk. split.
  - intros H. apply frame_lookup, amazon_frame; assumption.
  - intros H. apply frame_lookup, flipkart_frame; assumption.
Qed.

(** C5, as the code has it: a field none of whose searches matched keeps
    the value the parser started with, which is "N/A" or "0.00" for all
    fields but three: "Quantity" starts as "1", "File Name" as the file
    name and "Invoice Source" as the name of the vendor. *)
Theorem C5_unmatched_field_keeps_initial_value (text filename : str) (key : string) :
  key ∈ column_order ->
  (Rules.matched_rule key (Rules.amazon text) = false ->
   extract_amazon_invoice text filename !! key = initial_data filename "Amazon" !! key) /\
  (Rules.matched_rule key (Rules.flipkart text) = false ->
   extract_flipkart_invoice text filename !! key = initial_data filename "Flipkart" !! key) /\
  (forall source : string,
     initial_data filename source !! "Quantity"%string = Some (PStr (py "1")) /\
     initial_data filename source !! "File Name"%string = Some (PStr filename) /\
     initial_data filename source !! "Invoice Source"%string = Some (PStr (py source)) /\
     (key <> "Quantity"%string -> key <> "File Name"%string ->
      key <> "Invoice Source"%string ->
      initial_data filename source !! key = Some (PStr (py "N/A")) \/
      initial_data filename source !! key = Some (PStr (py "0.00")))).
Proof.
  intros Hk. split; [apply C5_frame, Hk|]. split; [apply C5_frame, Hk|].
  intros source. repeat split.
  intros H1 H2 H3. unfold column_order in Hk.
  repeat (apply elem_of_cons in Hk as [->|Hk];
          [first [congruence | left; reflexivity | right; reflexivity]|]).
  inversion Hk.
Qed.

(** ** [re.sub] with a pattern of one code point *)

Section SubOne.
Variables (r : regex) (P : char -> bool).
Hypothesis m_one : forall k st, m NOFLAG r k st = step P k st.

Lemma match_at_one (adv : bool) (p : nat) (s : str) :
  match_at NOFLAG r adv p s =
  match s with
  | c :: t => if P c then Some {| m_start := p; m_end := S p; m_groups := [] |} else None
  | [] => None
  end.
Proof.
  unfold match_at. rewrite m_one. unfold step. cbn [rest pos caps].
  destruct s as [|c t]; [reflexivity|]. destruct (P c); [|reflexivity].
  cbn [rest pos caps].
  replace (S p =? p)%nat with false by (symmetry; apply Nat.eqb_neq; lia).
  rewrite andb_false_r. reflexivity.
Qed.

Lemma sub_from_one (repl : str) (s : str) :
  forall p, sub_from NOFLAG r repl 0 p s = flat_map (fun c => if P c then repl else [c]) s.
Proof.
  induction s as [|c t IH]; intros p; simpl; rewrite match_at_one.
  - reflexivity.
  - destruct (P c).
    + cbn [m_end].
      replace (S p =? p)%nat with false by (symmetry; apply Nat.eqb_neq; lia).
      replace (S p - p - 1)%nat with O by lia. rewrite IH. reflexivity.
    + rewrite IH. reflexivity.
Qed.

(** Deleting the matches of such a pattern keeps the other code points. *)
Lemma re_sub_delete (s : str) : re_sub r [] s = List.filter (fun c => negb (P c)) s.
Proof.
  unfold re_sub. rewrite sub_from_one.
  induction s as [|c t IH]; simpl; [reflexivity|].
  rewrite IH. destruct (P c); reflexivity.
Qed.

End SubOne.

(** ** [clean_currency] *)

Lemma not_numeric_one (k : cont) (st : mstate) :
  m NOFLAG not_numeric k st
  = step (set_match NOFLAG true [IDigit; IChar 46; IChar 44]) k st.
Proof. reflexivity. Qed.

Lemma comma_one (k : cont) (st : mstate) :
  m NOFLAG comma k st = step (lit_match NOFLAG 44) k st.
Proof. reflexivity. Qed.

Lemma filter_filter_bool {A : Type} (f g : A -> bool) (l : list A) :
  List.filter g (List.filter f l) = List.filter (fun x => f x && g x) l.
Proof.
  induction l as [|x l IH]; simpl; [reflexivity|].
  destruct (f x); simpl; [destruct (g x); rewrite IH; reflexivity|exact IH].
Qed.

Lemma filter_ext_bool {A : Type} (f g : A -> bool) (l : list A) :
  (forall x, f x = g x) -> List.filter f l = List.filter g l.
Proof.
  intros H. induction l as [|x l IH]; simpl; [reflexivity|].
  rewrite H, IH. reflexivity.
Qed.

Lemma kept_by_clean_currency (c : char) :
  negb (set_match NOFLAG true [IDigit; IChar 46; IChar 44] c)
  && negb (lit_match NOFLAG 44 c)
  = isdecimal c || (c =? 46).
Proof.
  unfold set_match, lit_match. cbn [existsb item_match IGNORECASE NOFLAG lit_match].
  destruct (c =? 44) eqn:E.
  - apply N.eqb_eq in E. subst. reflexivity.
  - destruct (isdecimal c), (c =? 46); reflexivity.
Qed.

(** What [clean_currency] returns for a non-empty string: its decimal
    digits and periods, in order. *)
Lemma clean_currency_filter (s : str) :
  clean_currency (PStr s) =
  let kept := List.filter (fun c => isdecimal c || (c =? 46)) s in
  if is_empty kept then py "0.00" else kept.
Proof.
  unfold clean_currency. cbn [falsy str_of].
  destruct s as [|c t]; [reflexivity|]. cbn [is_empty].
  rewrite (re_sub_delete _ _ not_numeric_one), (re_sub_delete _ _ comma_one).
  rewrite filter_filter_bool.
  rewrite (filter_ext_bool _ _ _ kept_by_clean_currency). reflexivity.
Qed.

(** C2, as the code has it: [clean_currency] returns, for every string,
    the decimal digits and periods of the string in their order, or
    "0.00" if there are none; so the result is "0.00" or a non-empty
    string of digits and periods, with any number of periods. *)
Theorem C2_clean_currency_keeps_digits_and_periods (s : str) :
  clean_currency (PStr s) =
    (if is_empty (List.filter (fun c => isdecimal c || (c =? 46)) s)
     then py "0.00"
     else List.filter (fun c => isdecimal c || (c =? 46)) s) /\
  (clean_currency (PStr s) = py "0.00" \/
   (clean_currency (PStr s) <> [] /\
    Forall (fun c => isdecimal c = true \/ c = 46) (clean_currency (PStr s)))).
Proof.
  split; [apply clean_currency_filter|].
  rewrite clean_currency_filter. cbv zeta.
  destruct (List.filter _ s) as [|c t] eqn:E; [left; reflexivity|].
  right. cbn [is_empty]. split; [discriminate|].
  rewrite <- E. apply Forall_forall. intros x Hx.
  apply list_elem_of_In, filter_In in Hx as [_ Hx].
  apply orb_true_iff in Hx as [Hx|Hx]; [left; exact Hx|right; apply N.eqb_eq, Hx].
Qed.

(** C2, as stated, fails: "1.2.3" comes back unchanged, and it is neither
    "0.00" nor of the shape [^\d*\.?\d*$]. *)
Lemma C2_several_periods_are_kept :
  clean_currency (PStr (py "1.2.3")) = py "1.2.3" /\
  py "1.2.3" <> py "0.00" /\
  re_search Spec.amount_shape (py "1.2.3") NOFLAG = None /\
  re_match Spec.amount_shape (py "1.2.3") NOFLAG = None.
Proof. vm_compute. repeat split. discriminate. Qed.

Example amount_shape_accepts_an_amount :
  matched (re_search Spec.amount_shape (py "199.00") NOFLAG) = true.
Proof. reflexivity. Qed.

(** ** [clean_text] *)

Lemma rep_more_total (ma : cont -> cont) (greedy : bool) (k : cont) :
  (forall st, k st <> None) ->
  forall fuel st, rep_more ma greedy k fuel st <> None.
Proof.
  intros Hk fuel st. destruct fuel as [|f]; simpl; [apply Hk|].
  destruct greedy.
  - destruct (ma _ st); [discriminate|apply Hk].
  - specialize (Hk st). destruct (k st); [discriminate|contradiction].
Qed.

Lemma pow_one_pos (P : char -> bool) (n : nat) :
  forall st st', pow (one P) n st st' -> pos st' = (pos st + n)%nat.
Proof.
  induction n as [|n IH]; simpl; intros st st' H.
  - subst. lia.
  - destruct H as (st1 & (x & _ & _ & Hp & _) & H). apply IH in H. lia.
Qed.

Lemma is_space_set_eq (x : char) : is_space_set x = isspace x.
Proof.
  unfold is_space_set, set_match. cbn [existsb item_match IGNORECASE NOFLAG].
  rewrite orb_false_r. reflexivity.
Qed.

(** [\s+] matches at a white-space code point ... *)
Lemma whitespace_run_matches (p : nat) (c : char) (t : str) :
  isspace c = true -> match_at NOFLAG whitespace_run false p (c :: t) <> None.
Proof.
  intros Hc. unfold match_at, whitespace_run.
  cbn [m rep_must]. unfold step. cbn [rest pos caps].
  change (set_match NOFLAG false [ISpace] c) with (is_space_set c).
  rewrite is_space_set_eq, Hc.
  match goal with
  | |- context [rep_more ?ma ?g ?k ?f ?s0] =>
    assert (H : rep_more ma g k f s0 <> None)
      by (apply rep_more_total; intros s1; cbn [andb]; discriminate);
    destruct (rep_more ma g k f s0); [discriminate|contradiction]
  end.
Qed.

(** ... and nowhere else, and it consumes something. *)
Lemma whitespace_run_sound (adv : bool) (p : nat) (s : str) (mt : rmatch) :
  match_at NOFLAG whitespace_run adv p s = Some mt ->
  (p < m_end mt)%nat /\ exists c t, s = c :: t /\ isspace c = true.
Proof.
  unfold match_at. destruct (m NOFLAG whitespace_run _ _) as [st'|] eqn:E; [|discriminate].
  intros [= <-]. cbn [m_end].
  apply m_sound in E as (st1 & Hd & E).
  assert (st1 = st') as -> by (destruct (adv && _); congruence).
  unfold whitespace_run in Hd. cbn [den] in Hd.
  destruct Hd as (st2 & (n & Hn & _ & Hp) & ->).
  destruct n as [|n]; [lia|].
  pose proof (pow_one_pos _ _ _ _ Hp) as Hpos. cbn [pos] in Hpos.
  split; [lia|].
  cbn [pow] in Hp. destruct Hp as (st3 & (x & Hr & Hx & _) & _).
  cbn [rest] in Hr. exists x, (rest st3). split; [exact Hr|].
  rewrite <- is_space_set_eq. exact Hx.
Qed.

(** After [re.sub(r'\s+', ' ', text)] the only white space left is the
    space. *)
Lemma collapse_only_spaces (s : str) :
  forall skip p,
    Forall (fun c => isspace c = true -> c = 32)
           (sub_from NOFLAG whitespace_run (py " ") skip p s).
Proof.
  induction s as [|c t IH]; intros skip p.
  - destruct skip as [|k]; cbn [sub_from]; [|constructor].
    destruct (match_at _ _ false p []) as [mt|] eqn:E; [|constructor].
    apply whitespace_run_sound in E as (_ & x & u & Hs & _). discriminate.
  - destruct skip as [|k]; cbn [sub_from]; [|apply IH].
    destruct (match_at _ _ false p (c :: t)) as [mt|] eqn:E.
    + apply whitespace_run_sound in E as (Hlt & _).
      replace (m_end mt =? p)%nat with false by (symmetry; apply Nat.eqb_neq; lia).
      constructor; [reflexivity|apply IH].
    + constructor; [|apply IH].
      intros Hc. exfalso. exact (whitespace_run_matches p c t Hc E).
Qed.

Lemma replace_absent (old new s : str) (o : char) (os : str) :
  old = o :: os -> ~ In o s -> replace s old new = s.
Proof.
  intros -> Hn. unfold replace.
  induction s as [|c t IH]; [reflexivity|].
  cbn [replace_from startswith].
  destruct (o =? c) eqn:E.
  - apply N.eqb_eq in E. subst. exfalso. apply Hn. left. reflexivity.
  - cbn [andb]. rewrite IH; [reflexivity|]. intros H. apply Hn. right. exact H.
Qed.

Lemma lstrip_suffix (s : str) : exists w, s = w ++ lstrip s.
Proof.
  induction s as [|c t [w IH]]; [exists []; reflexivity|].
  cbn [lstrip]. destruct (isspace c).
  - exists (c :: w). simpl. rewrite <- IH. reflexivity.
  - exists []. reflexivity.
Qed.

Lemma lstrip_head (s : str) (c : char) (t : str) :
  lstrip s = c :: t -> isspace c = false.
Proof.
  induction s as [|a s IH]; [discriminate|].
  cbn [lstrip]. destruct (isspace a) eqn:E; [exact IH|].
  intros [= <- _]. exact E.
Qed.

Lemma rstrip_prefix (s : str) : exists w, s = rstrip s ++ w.
Proof.
  unfold rstrip. destruct (lstrip_suffix (rev s)) as [w Hw].
  exists (rev w). rewrite <- rev_app_distr, <- Hw, rev_involutive. reflexivity.
Qed.

Lemma rstrip_last (s : str) (t : str) (c : char) :
  rstrip s = t ++ [c] -> isspace c = false.
Proof.
  unfold rstrip. intros H. apply (f_equal (@rev N)) in H.
  rewrite rev_involutive, rev_app_distr in H. simpl in H.
  eapply lstrip_head, H.
Qed.

Lemma strip_head (s : str) (c : char) (t : str) :
  strip s = c :: t -> isspace c = false.
Proof.
  unfold strip. intros H. destruct (rstrip_prefix (lstrip s)) as [w Hw].
  rewrite H in Hw. simpl in Hw. eapply lstrip_head, Hw.
Qed.

Lemma strip_last (s : str) (t : str) (c : char) :
  strip s = t ++ [c] -> isspace c = false.
Proof. unfold strip. apply rstrip_last. Qed.

Lemma strip_in (s : str) (c : char) : In c (strip s) -> In c s.
Proof.
  unfold strip. intros H.
  destruct (rstrip_prefix (lstrip s)) as [w Hw].
  destruct (lstrip_suffix s) as [v Hv].
  rewrite Hv, Hw. apply in_or_app. right. apply in_or_app. left. exact H.
Qed.

Lemma split_absent (s : str) (sep : char) : ~ In sep s -> split s sep = [s].
Proof.
  induction s as [|c t IH]; intros Hn; [reflexivity|].
  cbn [split]. destruct (c =? sep) eqn:E.
  - apply N.eqb_eq in E. subst. exfalso. apply Hn. left. reflexivity.
  - rewrite IH; [reflexivity|]. intros H. apply Hn. right. exact H.
Qed.

(** The text with its white space collapsed holds no line feed and no
    carriage return, so that the two replacements change nothing. *)
Lemma collapse_no_line_break (s : str) :
  let text := re_sub whitespace_run (py " ") s in
  ~ In 10 text /\ ~ In 13 text /\
  replace (replace text [13; 10] [10]) [13] [10] = text.
Proof.
  cbv zeta. pose proof (collapse_only_spaces s 0 0) as H.
  fold (re_sub whitespace_run (py " ") s) in H.
  rewrite Forall_forall in H.
  assert (H10 : ~ In 10 (re_sub whitespace_run (py " ") s)).
  { intros Hin. apply list_elem_of_In in Hin. specialize (H _ Hin eq_refl). discriminate. }
  assert (H13 : ~ In 13 (re_sub whitespace_run (py " ") s)).
  { intros Hin. apply list_elem_of_In in Hin. specialize (H _ Hin eq_refl). discriminate. }
  repeat split; [exact H10|exact H13|].
  rewrite (replace_absent [13; 10] [10] _ 13 [10] eq_refl H13).
  apply (replace_absent [13] [10] _ 13 [] eq_refl H13).
Qed.

(** C10: the text that [clean_text] returns holds no line feed and no
    carriage return, begins and ends with a code point that is not white
    space (if it is not empty), and [split] at line feeds gives that
    text as its single line; the two replacements of carriage returns
    find nothing to replace, the white-space runs being collapsed
    before. *)
Theorem C10_clean_text_is_one_line (s : str) :
  ~ In 10 (clean_text s) /\ ~ In 13 (clean_text s) /\
  (forall c t, clean_text s = c :: t -> isspace c = false) /\
  (forall t c, clean_text s = t ++ [c] -> isspace c = false) /\
  split (clean_text s) 10 = [clean_text s] /\
  length (split (clean_text s) 10) = 1%nat /\
  clean_text s = (if is_empty s then [] else strip (re_sub whitespace_run (py " ") s)).
Proof.
  assert (H : ~ In 10 (clean_text s) /\ ~ In 13 (clean_text s)).
  { unfold clean_text. destruct (is_empty s); [split; intros []|].
    destruct (collapse_no_line_break s) as (H10 & H13 & ->).
    split; intros Hin; apply strip_in in Hin; contradiction. }
  destruct H as [H10 H13].
  assert (Hs : forall u, clean_text s = strip u \/ clean_text s = [] ->
               (forall c t, clean_text s = c :: t -> isspace c = false) /\
               (forall t c, clean_text s = t ++ [c] -> isspace c = false)).
  { intros u [Hu|Hu]; rewrite Hu.
    - split; [apply strip_head|apply strip_last].
    - split; [discriminate|]. intros [|] ? ?; discriminate. }
  assert (Hf : exists u, clean_text s = strip u \/ clean_text s = []).
  { unfold clean_text. destruct (is_empty s); [exists []; right; reflexivity|].
    eexists. left. reflexivity. }
  destruct Hf as [u Hu]. destruct (Hs u Hu) as [Hh Hl].
  repeat split; try assumption.
  - apply split_absent, H10.
  - rewrite (split_absent _ _ H10). reflexivity.
  - unfold clean_text. destruct (is_empty s); [reflexivity|].
    destruct (collapse_no_line_break s) as (_ & _ & ->). reflexivity.
Qed.

(** C7: on the text of the scenario the Amazon parser finds the order
    number, the invoice date, the unit price, the tax rate and the tax
    amount that the specification gives; the file name selects that
    parser, and the whole treatment of the text ([process_text]) returns
    the same record for these fields. *)
Theorem C7_scenario :
  let d := extract_amazon_invoice Scenario.text Scenario.filename in
  d !! "Order Number"%string = Some (PStr (py "402-1234567-1234567")) /\
  d !! "Invoice Date"%string = Some (PStr (py "01/02/2023")) /\
  d !! "Unit Price"%string = Some (PStr (py "199.00")) /\
  d !! "Tax Rate"%string = Some (PStr (py "5%")) /\
  d !! "Tax Amount"%string = Some (PStr (py "9.95")) /\
  detect_invoice_type Scenario.text Scenario.filename = py "amazon" /\
  exists d', process_text Scenario.text Scenario.filename = Some d' /\
    d' !! "Order Number"%string = Some (PStr (py "402-1234567-1234567")) /\
    d' !! "Invoice Date"%string = Some (PStr (py "01/02/2023")) /\
    d' !! "Unit Price"%string = Some (PStr (py "199.00")) /\
    d' !! "Tax Rate"%string = Some (PStr (py "5%")) /\
    d' !! "Tax Amount"%string = Some (PStr (py "9.95")).
Proof.
  cbv zeta. repeat split; try (vm_compute; reflexivity).
  eexists. split; [reflexivity|]. repeat split; vm_compute; reflexivity.
Qed.

(** C5, as stated, fails: with no quantity in the text the field
    "Quantity" holds "1", which is neither "N/A" nor "0.00". *)
Lemma C5_quantity_defaults_to_1 :
  Rules.matched_rule "Quantity" (Rules.amazon (py "Tax Invoice")) = false /\
  extract_amazon_invoice (py "Tax Invoice") (py "invoice.pdf") !! "Quantity"%string
    = Some (PStr (py "1")) /\
  Rules.matched_rule "Quantity" (Rules.flipkart (py "Tax Invoice")) = false /\
  extract_flipkart_invoice (py "Tax Invoice") (py "invoice.pdf") !! "Quantity"%string
    = Some (PStr (py "1")) /\
  py "1" <> py "N/A" /\ py "1" <> py "0.00".
Proof. vm_compute. repeat split; discriminate. Qed.

Lemma C5_witness :
  "Seller GST"%string ∈ column_order /\
  Rules.matched_rule "Seller GST" (Rules.amazon (py "Tax Invoice")) = false /\
  extract_amazon_invoice (py "Tax Invoice") (py "invoice.pdf") !! "Seller GST"%string
    = Some (PStr (py "N/A")).
Proof.
  assert (Hk : "Seller GST"%string ∈ column_order)
    by (unfold column_order; repeat first [apply list_elem_of_here | apply list_elem_of_further]).
  assert (Hm : Rules.matched_rule "Seller GST" (Rules.amazon (py "Tax Invoice")) = false)
    by (vm_compute; reflexivity).
  split; [exact Hk|]. split; [exact Hm|].
  destruct (C5_unmatched_field_keeps_initial_value
              (py "Tax Invoice") (py "invoice.pdf") "Seller GST" Hk) as [Ha _].
  rewrite (Ha Hm). vm_compute. reflexivity.
Defined.

(** ** [standardize_date] *)

(** [n] code points of a class in a row. *)
Lemma pow_one_word (P : char -> bool) (n : nat) :
  forall st st', pow (one P) n st st' ->
    exists w, length w = n /\ Forall (fun x => P x = true) w /\
              rest st = w ++ rest st' /\ pos st' = (pos st + n)%nat /\
              caps st' = caps st.
Proof.
  induction n as [|n IH]; simpl; intros st st' H.
  - subst. exists []. repeat split; [constructor|lia].
  - destruct H as (st1 & (x & Hr & Hx & Hp & Hc) & H).
    apply IH in H as (w & Hl & Hw & Hr' & Hp' & Hc').
    exists (x :: w). simpl. repeat split.
    + lia.
    + constructor; assumption.
    + rewrite Hr, Hr'. reflexivity.
    + lia.
    + congruence.
Qed.

Lemma digit_set_match (x : char) : set_match NOFLAG false [IDigit] x = isdecimal x.
Proof.
  unfold set_match. cbn [existsb item_match IGNORECASE NOFLAG].
  rewrite orb_false_r. reflexivity.
Qed.

Lemma digits_group_den (i n : nat) (st st' : mstate) :
  den NOFLAG (digits_group i n) st st' ->
  exists w, length w = n /\ Forall (fun x => isdecimal x = true) w /\
            rest st = w ++ rest st' /\ pos st' = (pos st + n)%nat /\
            caps st' = (i, w) :: caps st.
Proof.
  unfold digits_group, digit_set. cbn [den].
  intros (st1 & (st2 & (k & Hk1 & Hk2 & Hp) & ->) & ->).
  assert (k = n) as -> by lia.
  apply pow_one_word in Hp as (w & Hl & Hw & Hr & Hp & Hc).
  exists w. unfold set_cap. cbn [rest pos caps].
  repeat split; try assumption.
  - eapply Forall_impl; [exact Hw|]. intros x Hx. rewrite <- digit_set_match. exact Hx.
  - rewrite Hc. f_equal. f_equal.
    replace (pos st2 - pos st)%nat with (length w) by lia.
    rewrite Hr. apply take_app_length.
Qed.

Lemma lit_den (c : char) (st st' : mstate) :
  den NOFLAG (RLit c) st st' ->
  rest st = c :: rest st' /\ pos st' = S (pos st) /\ caps st' = caps st.
Proof.
  cbn [den]. intros (x & Hr & Hx & Hp & Hc).
  unfold lit_match in Hx. cbn [IGNORECASE NOFLAG] in Hx.
  apply N.eqb_eq in Hx. subst. auto.
Qed.

Lemma date_patterns_eq :
  date_patterns =
  [date_pattern 2 2 4 46; date_pattern 2 2 4 47; date_pattern 2 2 4 45;
   date_pattern 4 2 2 45].
Proof. reflexivity. Qed.

(** What a match of a date pattern has found. *)
Lemma date_pattern_search (n1 n2 n3 : nat) (sep : char) (s : str) (mt : rmatch) :
  re_search (date_pattern n1 n2 n3 sep) s NOFLAG = Some mt ->
  exists w1 w2 w3 pre post,
    s = pre ++ w1 ++ [sep] ++ w2 ++ [sep] ++ w3 ++ post /\
    length w1 = n1 /\ length w2 = n2 /\ length w3 = n3 /\
    Forall (fun x => isdecimal x = true) (w1 ++ w2 ++ w3) /\
    group_val mt 1 = PStr w1 /\ group_val mt 2 = PStr w2 /\ group_val mt 3 = PStr w3.
Proof.
  intros H. apply search_from_sound in H as (pre & suf & st' & -> & Hd & ->).
  unfold date_pattern in Hd. cbn [den] in Hd.
  destruct Hd as (s1 & H1 & s2 & H2 & s3 & H3 & s4 & H4 & s5 & H5 & ->).
  apply digits_group_den in H1 as (w1 & L1 & F1 & R1 & P1 & C1).
  apply lit_den in H2 as (R2 & P2 & C2).
  apply digits_group_den in H3 as (w2 & L2 & F2 & R3 & P3 & C3).
  apply lit_den in H4 as (R4 & P4 & C4).
  apply digits_group_den in H5 as (w3 & L3 & F3 & R5 & P5 & C5).
  cbn [rest caps] in *.
  exists w1, w2, w3, pre, (rest s5).
  repeat split; try assumption.
  - rewrite R1, R2, R3, R4, R5. reflexivity.
  - apply Forall_app. split; [exact F1|]. apply Forall_app. split; assumption.
  - unfold group_val, group. cbn [m_groups]. rewrite C5, C4, C3, C2, C1. reflexivity.
  - unfold group_val, group. cbn [m_groups]. rewrite C5, C4, C3. reflexivity.
  - unfold group_val, group. cbn [m_groups]. rewrite C5. reflexivity.
Qed.

Lemma digit_not_sep (x : char) : isdecimal x = true -> x <> 46 /\ x <> 47 /\ x <> 78.
Proof.
  intros H. repeat split; intros ->; vm_compute in H; discriminate.
Qed.

(** On such a date the pattern with periods finds nothing ... *)
Lemma written_date_no_period (a b c d e f g h : char) :
  Forall (fun x => isdecimal x = true) [a; b; c; d; e; f; g; h] ->
  re_search (date_pattern 2 2 4 46) (written_date a b c d e f g h) NOFLAG = None.
Proof.
  intros HF.
  destruct (re_search _ _ _) as [mt|] eqn:E; [|reflexivity]. exfalso.
  apply date_pattern_search in E as (w1 & w2 & w3 & pre & post & Hs & _).
  assert (Hin : In 46 (written_date a b c d e f g h)).
  { rewrite Hs. apply in_or_app. right. apply in_or_app. right. left. reflexivity. }
  rewrite Forall_forall in HF. unfold written_date in Hin.
  assert (Hd : forall x, x ∈ [a; b; c; d; e; f; g; h] -> x <> 46).
  { intros x Hx. apply digit_not_sep, HF, Hx. }
  simpl in Hin.
  repeat (destruct Hin as [Hin|Hin];
          [first [discriminate Hin | revert Hin; apply Hd; set_solver]|]).
  exact Hin.
Qed.

Lemma search_from_hit (fl : flags) (r : regex) (p : nat) (s : str) (mt : rmatch) :
  match_at fl r false p s = Some mt -> search_from fl r p s = Some mt.
Proof. intros H. destruct s; simpl; rewrite H; reflexivity. Qed.

(** ... and the pattern with slashes finds the whole of it. *)
Lemma written_date_slash (a b c d e f g h : char) :
  Forall (fun x => isdecimal x = true) [a; b; c; d; e; f; g; h] ->
  exists mt, re_search (date_pattern 2 2 4 47) (written_date a b c d e f g h) NOFLAG = Some mt /\
             group_val mt 1 = PStr [a; b] /\ group_val mt 2 = PStr [c; d] /\
             group_val mt 3 = PStr [e; f; g; h].
Proof.
  intros HF.
  repeat match goal with
         | H : Forall _ (_ :: _) |- _ => apply Forall_cons in H as [? H]
         end.
  eexists. split.
  - apply search_from_hit. unfold written_date, match_at.
    unfold date_pattern, digits_group, digit_set.
    repeat (cbn [m rep_must rep_more step rest pos caps Nat.sub set_cap
                 lit_match IGNORECASE NOFLAG N.eqb Pos.eqb andb];
            rewrite ?digit_set_match;
            repeat match goal with
                   | H : isdecimal ?x = true |- context [isdecimal ?x] => rewrite H
                   end).
    reflexivity.
  - repeat split.
Qed.

(** A date that [standardize_date] has written comes back as it is. *)
Lemma standardize_written_date (a b c d e f g h : char) :
  Forall (fun x => isdecimal x = true) [a; b; c; d; e; f; g; h] ->
  standardize_date (written_date a b c d e f g h) = Ok (written_date a b c d e f g h).
Proof.
  intros HF. unfold standardize_date.
  replace (is_empty (written_date a b c d e f g h)
           || eqb (written_date a b c d e f g h) (py "N/A")) with false.
  2:{ change (py "N/A") with [78; 47; 65]. unfold written_date. cbn [is_empty eqb orb].
      destruct (a =? 78), (b =? 47); reflexivity. }
  rewrite date_patterns_eq. cbn [standardize_with].
  rewrite (written_date_no_period _ _ _ _ _ _ _ _ HF).
  destruct (written_date_slash _ _ _ _ _ _ _ _ HF) as (mt & -> & -> & -> & ->).
  reflexivity.
Qed.

Lemma joined_date (w1 w2 w3 : str) :
  length w1 = 2%nat -> length w2 = 2%nat -> length w3 = 4%nat ->
  Forall (fun x => isdecimal x = true) (w1 ++ w2 ++ w3) ->
  exists a b c d e f g h,
    Forall (fun x => isdecimal x = true) [a; b; c; d; e; f; g; h] /\
    w1 ++ py "/" ++ w2 ++ py "/" ++ w3 = written_date a b c d e f g h.
Proof.
  intros L1 L2 L3 HF.
  destruct w1 as [|a [|b [|? ?]]]; try discriminate L1.
  destruct w2 as [|c [|d [|? ?]]]; try discriminate L2.
  destruct w3 as [|e [|f [|g [|h [|? ?]]]]]; try discriminate L3.
  exists a, b, c, d, e, f, g, h. split; [exact HF|reflexivity].
Qed.

(** What [standardize_date] can return. *)
Lemma standardize_date_cases (date_str r : str) :
  standardize_date date_str = Ok r ->
  r = py "N/A" \/ r = date_str \/
  exists a b c d e f g h,
    Forall (fun x => isdecimal x = true) [a; b; c; d; e; f; g; h] /\
    r = written_date a b c d e f g h.
Proof.
  unfold standardize_date.
  destruct (is_empty date_str || eqb date_str (py "N/A")).
  { intros [= <-]. left. reflexivity. }
  rewrite date_patterns_eq. cbn [standardize_with].
  assert (Hdmy : forall sep mt,
    re_search (date_pattern 2 2 4 sep) date_str NOFLAG = Some mt ->
    forall r',
      match len (group_val mt 1) with
      | Ok n =>
        if (n =? 4)%nat
        then Ok (str_of (group_val mt 3) ++ py "/" ++ str_of (group_val mt 2)
                 ++ py "/" ++ str_of (group_val mt 1))
        else Ok (str_of (group_val mt 1) ++ py "/" ++ str_of (group_val mt 2)
                 ++ py "/" ++ str_of (group_val mt 3))
      | Raise e => Raise e
      end = Ok r' ->
      exists a b c d e f g h,
        Forall (fun x => isdecimal x = true) [a; b; c; d; e; f; g; h] /\
        r' = written_date a b c d e f g h).
  { intros sep mt E r' Hr.
    apply date_pattern_search in E
      as (w1 & w2 & w3 & pre & post & _ & L1 & L2 & L3 & HF & G1 & G2 & G3).
    rewrite G1, G2, G3 in Hr. cbn [len str_of] in Hr. rewrite L1 in Hr.
    cbn [Nat.eqb] in Hr. injection Hr as <-.
    apply joined_date; assumption. }
  destruct (re_search (date_pattern 2 2 4 46) date_str NOFLAG) as [mt|] eqn:E1.
  { intros Hr. right. right. eapply Hdmy; eauto. }
  destruct (re_search (date_pattern 2 2 4 47) date_str NOFLAG) as [mt|] eqn:E2.
  { intros Hr. right. right. eapply Hdmy; eauto. }
  destruct (re_search (date_pattern 2 2 4 45) date_str NOFLAG) as [mt|] eqn:E3.
  { intros Hr. right. right. eapply Hdmy; eauto. }
  destruct (re_search (date_pattern 4 2 2 45) date_str NOFLAG) as [mt|] eqn:E4.
  { intros Hr. right. right.
    apply date_pattern_search in E4
      as (w1 & w2 & w3 & pre & post & _ & L1 & L2 & L3 & HF & G1 & G2 & G3).
    rewrite G1, G2, G3 in Hr. cbn [len str_of] in Hr. rewrite L1 in Hr.
    cbn [Nat.eqb] in Hr. injection Hr as <-.
    apply joined_date; try assumption.
    apply Forall_app in HF as [F1 HF]. apply Forall_app in HF as [F2 F3].
    repeat (apply Forall_app; split); assumption. }
  intros [= <-]. right. left. reflexivity.
Qed.

(** C3: [standardize_date] raises nothing and is idempotent, on the
    dates of the four patterns as on every other string; and a string of
    the form DD/MM/YYYY comes back unchanged. *)
Theorem C3_standardize_date_idempotent (date_str : str) :
  (exists r, standardize_date date_str = Ok r /\ standardize_date r = Ok r) /\
  (forall a b c d e f g h,
     Forall (fun x => isdecimal x = true) [a; b; c; d; e; f; g; h] ->
     standardize_date [a; b; 47; c; d; 47; e; f; g; h]
     = Ok [a; b; 47; c; d; 47; e; f; g; h]).
Proof.
  split.
  - destruct (standardize_date_ok date_str) as [r Hr]. exists r. split; [exact Hr|].
    destruct (standardize_date_cases _ _ Hr)
      as [-> | [-> | (a & b & c & d & e & f & g & h & HF & ->)]].
    + reflexivity.
    + exact Hr.
    + apply standardize_written_date, HF.
  - intros a b c d e f g h HF. apply (standardize_written_date _ _ _ _ _ _ _ _ HF).
Qed.

(** ** [detect_invoice_type] *)

Lemma startswith_iff (s p : str) : startswith s p = true <-> exists post, s = p ++ post.
Proof.
  revert s. induction p as [|a p IH]; intros s.
  - split; [intros _; exists s; reflexivity|intros _; destruct s; reflexivity].
  - destruct s as [|b s]; cbn [startswith].
    + split; [discriminate|intros [post H]; discriminate].
    + rewrite andb_true_iff, N.eqb_eq, IH. split.
      * intros [-> [post ->]]. eauto.
      * intros [post [= -> ->]]. eauto.
Qed.

Lemma contains_iff (needle s : str) : contains needle s = true <-> holds needle s.
Proof.
  unfold holds. induction s as [|c t IH]; cbn [contains].
  - rewrite orb_false_r, startswith_iff. split.
    + intros [post H]. exists [], post. exact H.
    + intros (pre & post & H). destruct pre; [eauto|discriminate].
  - rewrite orb_true_iff, startswith_iff, IH. split.
    + intros [[post H]|(pre & post & H)].
      * exists [], post. exact H.
      * exists (c :: pre), post. rewrite H. reflexivity.
    + intros (pre & post & H). destruct pre as [|a pre].
      * left. eauto.
      * right. injection H as -> ->. eauto.
Qed.

Lemma lower_app (a b : str) : lower (a ++ b) = lower a ++ lower b.
Proof. apply flat_map_app. Qed.

Lemma plain_tail (x : char) (n : str) : plain (x :: n) -> plain n.
Proof.
  intros [H1 H2]. split.
  - intros H. apply H1. right. exact H.
  - destruct n as [|y n]; [discriminate|]. exact H2.
Qed.

Lemma lower_prefix (needle : str) :
  plain needle -> forall s post, lower s = needle ++ post ->
  exists mid rest, s = mid ++ rest /\ lower mid = needle /\ lower rest = post.
Proof.
  induction needle as [|x n IH]; intros Hp s post H.
  - exists [], s. auto.
  - destruct s as [|c s]; [discriminate|].
    unfold lower in H. cbn [flat_map] in H. fold (lower s) in H.
    unfold lower_char in H. destruct (c =? 304) eqn:E.
    + exfalso. simpl in H. injection H as <- H.
      destruct Hp as [H1 H2]. destruct n as [|y n].
      * apply H2. reflexivity.
      * injection H as <- _. apply H1. right. left. reflexivity.
    + simpl in H. injection H as <- H.
      destruct (IH (plain_tail _ _ Hp) s post H) as (mid & rest & -> & Hm & Hr).
      exists (c :: mid), rest. repeat split; [|exact Hr].
      unfold lower. cbn [flat_map]. fold (lower mid).
      unfold lower_char. rewrite E, Hm. reflexivity.
Qed.

Lemma lower_infix (needle : str) :
  plain needle -> needle <> [] -> forall s pre post, lower s = pre ++ needle ++ post ->
  holds_ignoring_case needle s.
Proof.
  intros Hp Hne s. induction s as [|c s IH]; intros pre post H.
  - destruct pre, needle; try discriminate. contradiction.
  - destruct pre as [|a pre].
    + destruct (lower_prefix needle Hp (c :: s) post H) as (mid & rest & -> & Hm & _).
      exists [], mid, rest. auto.
    + unfold lower in H. cbn [flat_map] in H. fold (lower s) in H.
      unfold lower_char in H. destruct (c =? 304) eqn:E.
      * simpl in H. injection H as <- H. destruct pre as [|b pre].
        -- exfalso. destruct needle as [|x n]; [contradiction|].
           simpl in H. injection H as <- _. destruct Hp as [H1 _].
           apply H1. left. reflexivity.
        -- simpl in H. injection H as <- H.
           destruct (IH pre post H) as (p & mid & q & -> & Hm).
           exists (c :: p), mid, q. auto.
      * simpl in H. injection H as <- H.
        destruct (IH pre post H) as (p & mid & q & -> & Hm).
        exists (c :: p), mid, q. auto.
Qed.

(** The test [needle in s.lower()] decides whether [s] holds the needle
    up to case. *)
Lemma contains_lower_iff (needle s : str) :
  plain needle -> needle <> [] ->
  contains needle (lower s) = true <-> holds_ignoring_case needle s.
Proof.
  intros Hp Hne. rewrite contains_iff. split.
  - intros (pre & post & H). eapply lower_infix; eauto.
  - intros (pre & mid & post & -> & <-). exists (lower pre), (lower post).
    rewrite !lower_app. reflexivity.
Qed.

Lemma plain_amazon : plain (py "amazon") /\ py "amazon" <> [].
Proof.
  split; [split|]; vm_compute; [|discriminate|discriminate].
  intros H. repeat (destruct H as [H|H]; [discriminate H|]). exact H.
Qed.

Lemma plain_flipkart : plain (py "flipkart") /\ py "flipkart" <> [].
Proof.
  split; [split|]; vm_compute; [|discriminate|discriminate].
  intros H. repeat (destruct H as [H|H]; [discriminate H|]). exact H.
Qed.

Lemma amazon_iff (s : str) :
  contains (py "amazon") (lower s) = true <-> holds_ignoring_case (py "amazon") s.
Proof. apply contains_lower_iff; apply plain_amazon. Qed.

Lemma flipkart_iff (s : str) :
  contains (py "flipkart") (lower s) = true <-> holds_ignoring_case (py "flipkart") s.
Proof. apply contains_lower_iff; apply plain_flipkart. Qed.

(** C4: [detect_invoice_type] is a function into the three tags, it
    decides by the first of the five cases that applies, in the order
    file name before text and Amazon before Flipkart, and for the file
    name "amazon_x.pdf" the answer is "amazon" whatever the text. *)
Theorem C4_detect_invoice_type_order (text filename : str) :
  let r := detect_invoice_type text filename in
  (r = py "amazon" \/ r = py "flipkart" \/ r = py "unknown") /\
  (holds_ignoring_case (py "amazon") filename -> r = py "amazon") /\
  (~ holds_ignoring_case (py "amazon") filename ->
   holds_ignoring_case (py "flipkart") filename -> r = py "flipkart") /\
  (~ holds_ignoring_case (py "amazon") filename ->
   ~ holds_ignoring_case (py "flipkart") filename ->
   holds_ignoring_case (py "amazon") text \/ holds (py "ASSPL-Amazon") text ->
   r = py "amazon") /\
  (~ holds_ignoring_case (py "amazon") filename ->
   ~ holds_ignoring_case (py "flipkart") filename ->
   ~ (holds_ignoring_case (py "amazon") text \/ holds (py "ASSPL-Amazon") text) ->
   holds_ignoring_case (py "flipkart") text -> r = py "flipkart") /\
  (~ holds_ignoring_case (py "amazon") filename ->
   ~ holds_ignoring_case (py "flipkart") filename ->
   ~ (holds_ignoring_case (py "amazon") text \/ holds (py "ASSPL-Amazon") text) ->
   ~ holds_ignoring_case (py "flipkart") text -> r = py "unknown") /\
  detect_invoice_type text (py "amazon_x.pdf") = py "amazon".
Proof.
  cbv zeta. unfold detect_invoice_type.
  pose proof (amazon_iff filename) as Haf. pose proof (flipkart_iff filename) as Hff.
  pose proof (amazon_iff text) as Hat. pose proof (flipkart_iff text) as Hft.
  pose proof (contains_iff (py "ASSPL-Amazon") text) as Hm.
  destruct (contains (py "amazon") (lower filename));
    [|destruct (contains (py "flipkart") (lower filename));
      [|destruct (contains (py "amazon") (lower text));
        [|destruct (contains (py "ASSPL-Amazon") text);
          [|destruct (contains (py "flipkart") (lower text))]]]];
    cbn [orb]; repeat split; intros;
    first [reflexivity | solve [auto] | exfalso; intuition discriminate].
Qed.

(** ** The product name of the Amazon parser *)

(** The [while] loop reads the lines that [scanned] describes and
    appends those that name no aggregate. *)
Lemma continuation_spec (lines : list str) :
  forall n j parts,
    Amazon.continuation lines n j parts =
    Ok (parts ++ List.filter (fun l => negb (Product.aggregate l))
                   (take_while Product.goes_on (map strip (take n (drop j lines))))).
Proof.
  induction n as [|n IH]; intros j parts.
  - simpl. rewrite app_nil_r. reflexivity.
  - cbn [Amazon.continuation].
    destruct (j <? length lines)%nat eqn:E.
    + apply Nat.ltb_lt in E.
      destruct (lookup_lt_is_Some_2 lines j E) as [l Hl]. rewrite Hl.
      rewrite (drop_S _ _ _ Hl). cbn [take map take_while].
      fold (Product.goes_on (strip l)). destruct (Product.goes_on (strip l)).
      * rewrite IH. cbn [List.filter]. fold (Product.aggregate (strip l)).
        destruct (Product.aggregate (strip l)); cbn [negb].
        -- reflexivity.
        -- rewrite <- app_assoc. reflexivity.
      * rewrite app_nil_r. reflexivity.
    + apply Nat.ltb_ge in E. rewrite drop_ge by exact E.
      rewrite take_nil. simpl. rewrite app_nil_r. reflexivity.
Qed.

Lemma scanned_at_most_4 (lines : list str) (i : nat) :
  (length (Product.scanned lines i) <= 4)%nat /\
  (length (Product.appended lines i) <= length (Product.scanned lines i))%nat.
Proof.
  split.
  - unfold Product.scanned.
    assert (H : forall (f : str -> bool) l, (length (take_while f l) <= length l)%nat).
    { intros f l. induction l as [|x l IH]; simpl; [lia|]. destruct (f x); simpl; lia. }
    etransitivity; [apply H|]. rewrite length_map, length_take. lia.
  - unfold Product.appended. apply filter_length_le.
Qed.

(** The statement of the product name, run on line [i], writes the name
    that [Product.name] describes. *)
Lemma product_line_sets (lines : list str) (i : nat) (line : str) (d : gmap string pyval) :
  matched (re_search Amazon.item_number line NOFLAG) = true ->
  Amazon.product_line lines (i, line) d
  = (Ok true, <["Product Name"%string := PStr (Product.name lines i line)]> d).
Proof.
  intros Hm. unfold Amazon.product_line. rewrite Hm.
  replace (i + 5 - (i + 1))%nat with 4%nat by lia.
  unfold mbind, M_bind, bind, lift. rewrite continuation_spec.
  replace (i + 1)%nat with (S i) by lia. reflexivity.
Qed.

Lemma product_line_skips (lines : list str) (i : nat) (line : str) (d : gmap string pyval) :
  matched (re_search Amazon.item_number line NOFLAG) = false ->
  Amazon.product_line lines (i, line) d = (Ok false, d).
Proof. intros Hm. unfold Amazon.product_line. rewrite Hm. reflexivity. Qed.

Lemma zip_seq_cons {A : Type} (k : nat) (x : A) (xs : list A) :
  zip (seq k (length (x :: xs))) (x :: xs) = (k, x) :: zip (seq (S k) (length xs)) xs.
Proof. reflexivity. Qed.

(** The loop over the lines stops at the first line with an item
    number. *)
Lemma product_loop (lines : list str) (d : gmap string pyval) :
  forall (pre : list str) (line : str) (post : list str) (k : nat),
    Forall (fun l => matched (re_search Amazon.item_number l NOFLAG) = false) pre ->
    matched (re_search Amazon.item_number line NOFLAG) = true ->
    for_break (zip (seq k (length (pre ++ line :: post))) (pre ++ line :: post))
              (Amazon.product_line lines) d
    = (Ok tt, <["Product Name"%string := PStr (Product.name lines (k + length pre) line)]> d).
Proof.
  induction pre as [|l pre IH]; intros line post k Hpre Hline.
  - cbn [app]. rewrite zip_seq_cons. cbn [for_break]. unfold mbind, M_bind, bind.
    rewrite (product_line_sets _ _ _ _ Hline). cbn [length]. rewrite Nat.add_0_r.
    reflexivity.
  - apply Forall_cons in Hpre as [Hl Hpre].
    cbn [app]. rewrite zip_seq_cons. cbn [for_break]. unfold mbind, M_bind, bind.
    rewrite (product_line_skips _ _ _ _ Hl).
    rewrite (IH line post (S k) Hpre Hline). cbn [length].
    replace (S k + length pre)%nat with (k + S (length pre))%nat by lia. reflexivity.
Qed.

Lemma assigns_bind_l {A B : Type} (k : string) (v : pyval) (c : M A) (f : A -> M B) :
  assigns k v c -> (forall a, runs (f a)) -> (forall a, preserves k (f a)) ->
  assigns k v (c ≫= f).
Proof.
  intros Hc Hr Hp d Hd. destruct (Hc d Hd) as (a & d1 & E & Hd1 & Hv).
  destruct (Hr a d1 Hd1) as (b & d2 & E2 & Hd2).
  exists b, d2. unfold mbind, M_bind, bind. rewrite E. split; [exact E2|].
  split; [exact Hd2|]. specialize (Hp a d1). rewrite E2 in Hp. simpl in Hp.
  rewrite Hp. exact Hv.
Qed.

Lemma assigns_bind_r {A B : Type} (k : string) (v : pyval) (c : M A) (f : A -> M B) :
  runs c -> (forall a, assigns k v (f a)) -> assigns k v (c ≫= f).
Proof.
  intros Hc Hf d Hd. destruct (Hc d Hd) as (a & d1 & E & Hd1).
  destruct (Hf a d1 Hd1) as (b & d2 & E2 & Hd2 & Hv).
  exists b, d2. unfold mbind, M_bind, bind. rewrite E. auto.
Qed.

(** Settles [runs stmt] for a statement of a [try] block. *)
Ltac runs_stmt :=
  lazymatch goal with
  | |- runs (set_stripped _ _) => apply runs_set_stripped; [in_columns|reflexivity]
  | |- runs (set_date _ _) => apply runs_set_date; [in_columns|reflexivity]
  | |- runs (set_currency _ _) => apply runs_set_currency; in_columns
  | |- runs (set_address _ _) => apply runs_set_address; [in_columns|reflexivity]
  | |- runs (for_break _ (Amazon.first_stripped _ _ _)) =>
    apply runs_for_patterns with (P := fun p => binds 1 p = true);
    [ repeat constructor
    | let p := fresh "p" in let Hp := fresh "Hp" in
      intros p Hp; apply runs_first_stripped; [in_columns|exact Hp] ]
  | |- runs (for_break _ (Amazon.first_currency _ _ _)) =>
    apply runs_for_break; intros ?; apply runs_first_currency; in_columns
  | |- runs (for_break _ (Amazon.product_line _)) =>
    apply runs_for_break, runs_product_line
  | |- runs (if_match _ _) =>
    let mt := fresh "mt" in let E := fresh "E" in
    apply runs_if_match; intros mt E;
    first
      [ apply runs_setitem;
        [ in_columns
        | first [ eapply group_val_str; [|exact E]; reflexivity | eexists; reflexivity ] ]
      | apply runs_bind;
        [ apply runs_lift; eapply strip_group_ok; [|exact E]; reflexivity
        | intros ?; apply runs_setitem; [in_columns|eexists; reflexivity] ] ]
  end.

Lemma amazon_product_name (text : str) (pre post : list str) (line : str) :
  split text 10 = pre ++ line :: post ->
  Forall (fun l => matched (re_search Amazon.item_number l NOFLAG) = false) pre ->
  matched (re_search Amazon.item_number line NOFLAG) = true ->
  assigns "Product Name"
          (PStr (Product.name (split text 10) (length pre) line)) (Amazon.body text).
Proof.
  intros Hs Hpre Hline. unfold Amazon.body. cbv zeta.
  do 4 (apply assigns_bind_r; [runs_stmt|intros _]).
  apply assigns_bind_l.
  - intros d Hd. unfold enumerate.
    assert (Hz : zip (seq 0 (length (split text 10))) (split text 10)
                 = zip (seq 0 (length (pre ++ line :: post))) (pre ++ line :: post))
      by (rewrite Hs; reflexivity).
    rewrite Hz, (product_loop _ d pre line post 0 Hpre Hline). cbn [Nat.add].
    eexists tt, _. split; [reflexivity|]. split.
    + apply well_formed_insert; [in_columns|exact Hd].
    + apply lookup_insert_eq.
  - intros _. repeat (apply runs_bind; [|intros _]); runs_stmt.
  - intros _. repeat (apply preserves_bind; [|intros _]); frame Logic.I.
Qed.

(** C6, as the code has it: the item line is the first line that begins
    with the item number "1"; of the four lines after it, trimmed, the
    scan reads those before the first that is empty or starts a section
    of the table; it appends the lines read, except that a line naming
    an aggregate is left out while the scan goes on; the parts are joined
    by single spaces, the text from the first price-quantity-price
    pattern on is removed, and the result is trimmed and cut to 200 code
    points. *)
Theorem C6_product_name (text filename : str) (pre post : list str) (line : str) :
  split text 10 = pre ++ line :: post ->
  Forall (fun l => matched (re_search Amazon.item_number l NOFLAG) = false) pre ->
  matched (re_search Amazon.item_number line NOFLAG) = true ->
  let lines := split text 10 in
  let i := length pre in
  extract_amazon_invoice text filename !! "Product Name"%string
    = Some (PStr (Product.name lines i line)) /\
  Product.name lines i line
    = take 200 (strip (re_sub Amazon.price_information []
                         (join (py " ") (re_sub Amazon.item_number [] line
                                         :: Product.appended lines i)))) /\
  Product.appended lines i
    = List.filter (fun l => negb (Product.aggregate l)) (Product.scanned lines i) /\
  Product.scanned lines i
    = take_while Product.goes_on (map strip (take 4 (drop (S i) lines))) /\
  (length (Product.appended lines i) <= length (Product.scanned lines i) <= 4)%nat /\
  (length (Product.name lines i line) <= 200)%nat.
Proof.
  intros Hs Hpre Hline. cbv zeta.
  split; [|split; [reflexivity|split; [reflexivity|split; [reflexivity|split]]]].
  - destruct (amazon_product_name text pre post line Hs Hpre Hline
                (initial_data filename "Amazon") (initial_data_well_formed _ _))
      as ([] & d & E & _ & Hv).
    unfold extract_amazon_invoice, try_except. rewrite E. exact Hv.
  - destruct (scanned_at_most_4 (split text 10) (length pre)). lia.
  - unfold Product.name. cbv zeta. rewrite length_take. lia.
Qed.

(** C6, as stated, fails: a line naming an aggregate does not end the
    appending; the line after it is still appended. *)
Lemma C6_aggregate_line_does_not_stop :
  split Scenario.item_text 10 = Scenario.item_lines /\
  extract_amazon_invoice Scenario.item_text (py "invoice.pdf") !! "Product Name"%string
    = Some (PStr (py "Widget Blue")) /\
  Product.aggregate (py "Tax note") = true /\
  Product.spec_name Scenario.item_lines 0 (py "1 Widget") = py "Widget" /\
  py "Widget Blue" <> py "Widget".
Proof. vm_compute. repeat split. discriminate. Qed.

Lemma C6_witness :
  split Scenario.item_text 10 = [] ++ py "1 Widget" :: [py "Tax note"; py "Blue"] /\
  matched (re_search Amazon.item_number (py "1 Widget") NOFLAG) = true /\
  extract_amazon_invoice Scenario.item_text (py "invoice.pdf") !! "Product Name"%string
    = Some (PStr (Product.name (split Scenario.item_text 10) 0 (py "1 Widget"))).
Proof.
  assert (Hs : split Scenario.item_text 10
               = [] ++ py "1 Widget" :: [py "Tax note"; py "Blue"])
    by (vm_compute; reflexivity).
  assert (Hm : matched (re_search Amazon.item_number (py "1 Widget") NOFLAG) = true)
    by (vm_compute; reflexivity).
  split; [exact Hs|]. split; [exact Hm|].
  exact (proj1 (C6_product_name Scenario.item_text (py "invoice.pdf") []
                  [py "Tax note"; py "Blue"] (py "1 Widget") Hs (List.Forall_nil _) Hm)).
Defined.

(** ** From matches to words and back *)

Section WordsOfMatches.
Variable fl : flags.

Lemma one_spans (p : char -> bool) (st st' : mstate) :
  one p st st' -> exists x, ahead st st' [x] /\ p x = true.
Proof.
  intros (x & Hr & Hp & Hpos & _). exists x. split; [|exact Hp].
  split; simpl; [exact Hr|lia].
Qed.

Lemma pow_chain (R : mstate -> mstate -> Prop) (A : str -> str -> Prop) :
  (forall st st', R st st' -> exists w, ahead st st' w /\ A w (rest st')) ->
  forall n st st', pow R n st st' ->
    exists ws, length ws = n /\ ahead st st' (concat ws) /\ chain A ws (rest st').
Proof.
  intros HR. induction n as [|n IH]; simpl; intros st st' H.
  - subst. exists []. split; [reflexivity|]. split; [|exact Logic.I].
    split; simpl; [reflexivity|lia].
  - destruct H as (st1 & H1 & H). apply HR in H1 as (w & [Hr Hp] & Hw).
    apply IH in H as (ws & Hl & [Hr' Hp'] & Hc).
    exists (w :: ws). simpl. repeat split.
    + lia.
    + rewrite Hr, Hr', app_assoc. reflexivity.
    + rewrite length_app. lia.
    + rewrite <- Hr'. exact Hw.
    + exact Hc.
Qed.

(** A match of a pattern without [^] consumes a word of the pattern. *)
Lemma den_accepts (r : regex) :
  no_bol r = true ->
  forall st st', den fl r st st' ->
    exists w, ahead st st' w /\ accepts fl r w (rest st').
Proof.
  induction r as [| c | | neg items | a IHa b IHb | a IHa b IHb
                 | lo hi greedy a IHa | i a IHa | a IHa | | ];
    cbn [no_bol den accepts]; intros Hnb st st' H; try discriminate.
  - subst. exists []. split; [split; simpl; [reflexivity|lia]|reflexivity].
  - apply one_spans in H as (x & Hs & Hx). exists [x]. eauto.
  - apply one_spans in H as (x & Hs & Hx). exists [x]. eauto.
  - apply one_spans in H as (x & Hs & Hx). exists [x]. eauto.
  - apply andb_true_iff in Hnb as [Ha Hb].
    destruct H as (st1 & H1 & H2).
    apply (IHa Ha) in H1 as (w1 & [Hr1 Hp1] & A1).
    apply (IHb Hb) in H2 as (w2 & [Hr2 Hp2] & A2).
    exists (w1 ++ w2). split; [split|].
    + rewrite Hr1, Hr2, app_assoc. reflexivity.
    + rewrite length_app. lia.
    + exists w1, w2. rewrite <- Hr2. auto.
  - apply andb_true_iff in Hnb as [Ha Hb].
    destruct H as [H|H]; [apply (IHa Ha) in H|apply (IHb Hb) in H];
      destruct H as (w & Hs & Hw); exists w; auto.
  - destruct H as (n & Hlo & Hhi & Hp).
    apply (pow_chain _ (accepts fl a) (IHa Hnb)) in Hp as (ws & Hl & Hs & Hc).
    exists (concat ws). split; [exact Hs|]. exists ws. subst n. auto.
  - destruct H as (st1 & H1 & ->). apply (IHa Hnb) in H1 as (w & Hs & Hw).
    exists w. split; [exact Hs|exact Hw].
  - destruct H as (st1 & H1 & ->). apply (IHa Hnb) in H1 as (w & [Hr Hp] & Hw).
    exists []. cbn [rest]. split; [split; simpl; [reflexivity|lia]|].
    split; [reflexivity|]. eauto.
  - destruct H as [He ->]. exists []. split; [split; simpl; [reflexivity|lia]|]. auto.
Qed.

End WordsOfMatches.

Section Completeness.
Variable fl : flags.

Lemma nonempty_words_le_length (ws : list str) : (nonempty_words ws <= length ws)%nat.
Proof. apply filter_length_le. Qed.

Lemma nonempty_words_le_concat (ws : list str) :
  (nonempty_words ws <= length (concat ws))%nat.
Proof.
  unfold nonempty_words. induction ws as [|w ws IH]; simpl; [lia|].
  rewrite length_app. destruct w; simpl in *; lia.
Qed.

Lemma chain_app (A : str -> str -> Prop) (ws1 ws2 : list str) (tail : str) :
  chain A (ws1 ++ ws2) tail -> chain A ws1 (concat ws2 ++ tail) /\ chain A ws2 tail.
Proof.
  induction ws1 as [|w ws1 IH]; simpl; [auto|].
  intros [Hw Hc]. destruct (IH Hc) as [H1 H2]. repeat split; try assumption.
  rewrite concat_app, <- app_assoc in Hw. exact Hw.
Qed.

Lemma rep_more_stops (ma : cont -> cont) (greedy : bool) (k : cont) (fuel : nat) (st : mstate) :
  k st <> None -> rep_more ma greedy k fuel st <> None.
Proof.
  intros Hk. destruct fuel as [|f]; simpl; [exact Hk|].
  destruct greedy.
  - destruct (ma _ st); [discriminate|exact Hk].
  - destruct (k st); [discriminate|contradiction].
Qed.

Lemma rep_more_complete (ma : cont -> cont) (A : str -> str -> Prop)
      (greedy : bool) (k : cont) (tail : str) :
  finds ma A ->
  forall ws fuel st,
    chain A ws tail -> (nonempty_words ws <= fuel)%nat ->
    rest st = concat ws ++ tail ->
    goes_on_at k tail (pos st + length (concat ws)) ->
    rep_more ma greedy k fuel st <> None.
Proof.
  intros Hma. induction ws as [|w ws IH]; intros fuel st Hc Hf Hr Hk.
  - apply rep_more_stops. apply Hk; [exact Hr|simpl; lia].
  - cbn [chain] in Hc. destruct Hc as [Hw Hc].
    destruct w as [|x w].
    + apply IH; assumption.
    + unfold nonempty_words in Hf. cbn [List.filter is_empty negb length] in Hf.
      destruct fuel as [|f]; [lia|]. cbn [rep_more].
      assert (Hagain :
        ma (fun st2 => if (pos st <? pos st2)%nat
                       then rep_more ma greedy k f st2 else None) st <> None).
      { apply (Hma _ _ Hw).
        - rewrite Hr. cbn [concat]. rewrite <- app_assoc. reflexivity.
        - intros st2 Hr2 Hp2.
          replace (pos st <? pos st2)%nat with true
            by (symmetry; apply Nat.ltb_lt; rewrite Hp2; simpl; lia).
          apply IH; try assumption.
          + unfold nonempty_words. lia.
          + intros st' Hr' Hp'. apply Hk; [exact Hr'|].
            rewrite Hp', Hp2. cbn [concat]. rewrite !length_app. lia. }
      destruct greedy.
      * destruct (ma _ st); [discriminate|contradiction].
      * destruct (k st); [discriminate|exact Hagain].
Qed.

Lemma rep_must_complete (ma : cont -> cont) (A : str -> str -> Prop) (k : cont) (tail : str) :
  finds ma A ->
  forall ws st,
    chain A ws tail -> rest st = concat ws ++ tail ->
    goes_on_at k tail (pos st + length (concat ws)) ->
    rep_must ma (length ws) k st <> None.
Proof.
  intros Hma. induction ws as [|w ws IH]; intros st Hc Hr Hk.
  - simpl. apply Hk; [exact Hr|simpl; lia].
  - cbn [chain] in Hc. destruct Hc as [Hw Hc]. cbn [length rep_must].
    apply (Hma _ _ Hw).
    + rewrite Hr. cbn [concat]. rewrite <- app_assoc. reflexivity.
    + intros st1 Hr1 Hp1. apply IH; try assumption.
      intros st' Hr' Hp'. apply Hk; [exact Hr'|].
      rewrite Hp', Hp1. cbn [concat]. rewrite !length_app. lia.
Qed.

(** The matcher finds every word of a pattern: where the pattern accepts
    a word and the continuation goes on after it, the match succeeds. *)
Theorem m_complete (r : regex) : finds (m fl r) (accepts fl r).
Proof.
  induction r as [| c | | neg items | a IHa b IHb | a IHa b IHb
                 | lo hi greedy a IHa | i a IHa | a IHa | | ];
    intros w tail Hw k st Hr Hk; cbn [accepts] in Hw; cbn [m].
  - subst. apply Hk; [exact Hr|simpl; lia].
  - destruct Hw as (x & -> & Hx). unfold step. rewrite Hr. simpl. rewrite Hx.
    apply Hk; simpl; [reflexivity|lia].
  - destruct Hw as (x & -> & Hx). unfold step. rewrite Hr. simpl. rewrite Hx.
    apply Hk; simpl; [reflexivity|lia].
  - destruct Hw as (x & -> & Hx). unfold step. rewrite Hr. simpl. rewrite Hx.
    apply Hk; simpl; [reflexivity|lia].
  - destruct Hw as (w1 & w2 & -> & H1 & H2).
    apply (IHa _ _ H1).
    + rewrite Hr, <- app_assoc. reflexivity.
    + intros st1 Hr1 Hp1. apply (IHb _ _ H2); [exact Hr1|].
      intros st' Hr' Hp'. apply Hk; [exact Hr'|]. rewrite Hp', Hp1, length_app. lia.
  - destruct Hw as [Hw|Hw].
    + pose proof (IHa _ _ Hw k st Hr Hk) as H. destruct (m fl a k st); [discriminate|contradiction].
    + destruct (m fl a k st); [discriminate|]. apply (IHb _ _ Hw); assumption.
  - destruct Hw as (ws & -> & Hlo & Hhi & Hc).
    rewrite <- (firstn_skipn lo ws) in Hc, Hr, Hk.
    apply chain_app in Hc as [Hc1 Hc2].
    rewrite concat_app in Hr, Hk. rewrite <- app_assoc in Hr.
    assert (Hl1 : length (firstn lo ws) = lo) by (rewrite length_firstn; lia).
    rewrite <- Hl1 at 1.
    apply (rep_must_complete _ _ _ _ IHa _ _ Hc1 Hr).
    intros st0 Hr0 Hp0.
    apply (rep_more_complete _ _ _ _ _ IHa _ _ _ Hc2).
    + destruct hi as [h|].
      * etransitivity; [apply nonempty_words_le_length|].
        rewrite length_skipn. lia.
      * etransitivity; [apply nonempty_words_le_concat|].
        rewrite Hr0, length_app. lia.
    + exact Hr0.
    + intros st' Hr' Hp'. apply Hk; [exact Hr'|].
      rewrite Hp', Hp0, length_app. lia.
  - apply (IHa _ _ Hw); [exact Hr|].
    intros st1 Hr1 Hp1. apply Hk; [exact Hr1|exact Hp1].
  - destruct Hw as (-> & w' & tail' & -> & Hw).
    assert (H : m fl a Some st <> None).
    { apply (IHa _ _ Hw); [exact Hr|]. intros st' _ _. discriminate. }
    destruct (m fl a Some st); [|contradiction].
    apply Hk; simpl; [exact Hr|lia].
  - destruct Hw.
  - destruct Hw as [-> He]. simpl in Hr. rewrite Hr, He.
    apply Hk; [exact Hr|simpl; lia].
Qed.

End Completeness.

(** ** Lazy ahead *)

Section Lazy.
Variable fl : flags.

Lemma advance_0 (st : mstate) : advance st 0 = st.
Proof. destruct st. unfold advance. simpl. f_equal. lia. Qed.

Lemma advance_S (st : mstate) (x : char) (t : str) (n : nat) :
  rest st = x :: t ->
  advance st (S n) = advance {| pos := S (pos st); rest := t; caps := caps st |} n.
Proof. intros Hr. unfold advance. simpl. rewrite Hr. simpl. f_equal. lia. Qed.

(** A lazy repetition of a class stops at the first place where the
    continuation succeeds. *)
Lemma lazy_more (P : char -> bool) (K : cont) :
  forall fuel st res,
    rep_more (step P) false K fuel st = Some res ->
    exists n, (n <= length (rest st))%nat /\
              Forall (fun x => P x = true) (take n (rest st)) /\
              K (advance st n) = Some res /\
              forall j, (j < n)%nat -> K (advance st j) = None.
Proof.
  induction fuel as [|f IH]; intros st res H; cbn [rep_more] in H.
  - exists O. rewrite advance_0. repeat split; [lia|constructor|exact H|lia].
  - destruct (K st) as [r|] eqn:EK.
    + exists O. rewrite advance_0. repeat split; [lia|constructor|congruence|lia].
    + unfold step in H. destruct (rest st) as [|x t] eqn:Hr; [discriminate|].
      destruct (P x) eqn:Hx; [|discriminate]. cbn [pos] in H.
      replace (pos st <? S (pos st))%nat with true in H
        by (symmetry; apply Nat.ltb_lt; lia).
      apply IH in H as (n & Hn & HF & HK & Hmin). cbn [rest] in Hn, HF.
      exists (S n). rewrite (advance_S st x t n Hr).
      repeat split.
      * simpl. lia.
      * cbn [take]. constructor; assumption.
      * exact HK.
      * intros [|j] Hj; [rewrite advance_0; exact EK|].
        rewrite (advance_S st x t j Hr). apply Hmin. lia.
Qed.

Lemma lazy_group_span (neg : bool) (items : list citem) (K : cont) (st res : mstate) :
  m fl (lazy_group neg items) K st = Some res ->
  exists n, (0 < n <= length (rest st))%nat /\
            Forall (fun x => set_match fl neg items x = true) (take n (rest st)) /\
            K (set_cap 1 st (advance st n)) = Some res /\
            forall j, (0 < j < n)%nat -> K (set_cap 1 st (advance st j)) = None.
Proof.
  unfold lazy_group. cbn [m rep_must]. unfold step at 1.
  destruct (rest st) as [|x t] eqn:Hr; [discriminate|].
  destruct (set_match fl neg items x) eqn:Hx; [|discriminate].
  cbn [rest]. intros H.
  apply (lazy_more (set_match fl neg items)
                   (fun st' => K (set_cap 1 st st'))) in H
    as (n & Hn & HF & HK & Hmin).
  cbn [rest] in Hn, HF.
  exists (S n). rewrite (advance_S st x t n Hr). repeat split.
  - lia.
  - simpl. lia.
  - cbn [take]. constructor; assumption.
  - exact HK.
  - intros [|j] Hj; [lia|]. rewrite (advance_S st x t j Hr). apply Hmin. lia.
Qed.

(** A pattern that starts with [items]: the matcher goes through them
    first. *)
Lemma m_seq_sound (items : list regex) (last : regex) :
  forall k st res,
    m fl (seq_app items last) k st = Some res ->
    exists st1, den fl (seq_app items REmpty) st st1 /\ m fl last k st1 = Some res.
Proof.
  induction items as [|a items IH]; intros k st res H.
  - exists st. split; [reflexivity|exact H].
  - cbn [seq_app fold_right m] in H. apply m_sound in H as (st1 & H1 & H).
    apply IH in H as (st2 & H2 & H). exists st2. split; [|exact H].
    cbn [seq_app fold_right den]. eauto.
Qed.

Lemma den_no_group (r : regex) :
  no_group r = true -> forall st st', den fl r st st' -> caps st' = caps st.
Proof.
  induction r as [| c | | neg items | a IHa b IHb | a IHa b IHb
                 | lo hi greedy a IHa | i a IHa | a IHa | | ];
    cbn [no_group den]; intros Hg st st' H; try discriminate.
  - subst. reflexivity.
  - destruct H as (x & _ & _ & _ & Hc). exact Hc.
  - destruct H as (x & _ & _ & _ & Hc). exact Hc.
  - destruct H as (x & _ & _ & _ & Hc). exact Hc.
  - apply andb_true_iff in Hg as [Ha Hb]. destruct H as (st1 & H1 & H2).
    rewrite (IHb Hb _ _ H2). apply (IHa Ha _ _ H1).
  - apply andb_true_iff in Hg as [Ha Hb]. destruct H as [H|H]; eauto.
  - destruct H as (n & _ & _ & H).
    refine (pow_ind_rel _ (fun s s' => caps s' = caps s) _ _ _ _ _ H).
    + reflexivity.
    + intros s s1 s' H1 H2. rewrite H2. apply (IHa Hg _ _ H1).
  - destruct H as (st1 & H1 & ->). simpl. apply (IHa Hg _ _ H1).
  - destruct H as [_ ->]. reflexivity.
  - destruct H as [_ ->]. reflexivity.
Qed.

End Lazy.

(** ** The address patterns *)

Lemma search_from_at (fl : flags) (r : regex) :
  forall s p mt, search_from fl r p s = Some mt ->
    exists pre suf, s = pre ++ suf /\
                    match_at fl r false (p + length pre) suf = Some mt.
Proof.
  induction s as [|c t IH]; intros p mt H; cbn [search_from] in H.
  - destruct (match_at fl r false p []) as [mt'|] eqn:E; [|discriminate].
    exists [], []. simpl. rewrite Nat.add_0_r. split; [reflexivity|congruence].
  - destruct (match_at fl r false p (c :: t)) as [mt'|] eqn:E.
    + exists [], (c :: t). simpl. rewrite Nat.add_0_r. split; [reflexivity|congruence].
    + apply IH in H as (pre & suf & -> & H). exists (c :: pre), suf. simpl.
      replace (p + S (length pre))%nat with (S p + length pre)%nat by lia. auto.
Qed.

Lemma not_colon (x : char) : set_match I_DOTALL true [IChar 58] x = true -> x <> 58.
Proof. intros H ->. vm_compute in H. discriminate. Qed.

Lemma look_fails (stops : regex) (st : mstate) :
  m I_DOTALL stops Some st = None ->
  ~ accepts I_DOTALL (RLook stops) [] (rest st).
Proof.
  intros H (_ & w' & tail' & Hr & Hw).
  apply (m_complete I_DOTALL stops _ _ Hw Some st Hr); [|exact H].
  intros st' _ _. discriminate.
Qed.

Lemma address_match (pattern stops : regex) (p : nat) (s : str) (mt : rmatch) :
  address_shape pattern stops ->
  match_at I_DOTALL pattern false p s = Some mt ->
  exists marker span post,
    s = marker ++ span ++ post /\
    accepts I_DOTALL (Address.start pattern) marker (span ++ post) /\
    span <> [] /\ ~ In 58 span /\
    accepts I_DOTALL (Address.stop pattern) [] post /\
    (forall j, (0 < j < length span)%nat ->
               ~ accepts I_DOTALL (Address.stop pattern) [] (drop j span ++ post)) /\
    group mt 1 = Some span.
Proof.
  intros (Hshape & Hstop & Hnb & Hnbs & Hng) H.
  unfold match_at in H.
  destruct (m I_DOTALL pattern _ _) as [st'|] eqn:E; [|discriminate].
  injection H as <-. rewrite Hshape in E.
  apply m_seq_sound in E as (st1 & Hd & E).
  fold (Address.start pattern) in Hd.
  apply (den_accepts _ _ Hnb) in Hd as (marker & [Hr Hp] & Hacc).
  cbn [rest pos] in Hr, Hp.
  cbn [m] in E.
  apply lazy_group_span in E as (n & Hn & HF & HK & Hmin).
  set (span := take n (rest st1)) in *.
  set (post := drop n (rest st1)).
  assert (Hsplit : rest st1 = span ++ post) by (symmetry; apply take_drop).
  assert (Hlen : length span = n) by (unfold span; rewrite length_take; lia).
  (* the look-ahead at the end of the span *)
  destruct (m I_DOTALL stops Some (set_cap 1 st1 (advance st1 n))) as [s2|] eqn:EL;
    [|discriminate].
  cbn [andb] in HK. injection HK as <-.
  pose proof EL as EL'. apply m_sound in EL' as (s3 & Hd3 & [= ->]).
  pose proof (den_no_group _ _ Hng _ _ Hd3) as Hcaps.
  apply (den_accepts _ _ Hnbs) in Hd3 as (w' & [Hr3 _] & Hw').
  cbn [rest set_cap advance] in Hr3.
  exists marker, span, post. rewrite Hstop. repeat split.
  - rewrite Hr, Hsplit. reflexivity.
  - rewrite <- Hsplit. exact Hacc.
  - intros Hs. rewrite Hs in Hlen. simpl in Hlen. lia.
  - intros Hin. rewrite Forall_forall in HF.
    apply list_elem_of_In in Hin. exact (not_colon 58 (HF _ Hin) eq_refl).
  - exists w', (rest s2). split; [exact Hr3|exact Hw'].
  - intros j Hj. specialize (Hmin j ltac:(lia)).
    destruct (m I_DOTALL stops Some (set_cap 1 st1 (advance st1 j))) as [s4|] eqn:E4;
      [discriminate|].
    apply look_fails in E4. cbn [rest set_cap advance] in E4.
    rewrite Hsplit in E4. rewrite drop_app_le in E4 by lia. exact E4.
  - unfold group. cbn [m_groups caps]. rewrite Hcaps. cbn [set_cap caps assoc Nat.eqb].
    f_equal. cbn [pos advance]. replace (pos st1 + n - pos st1)%nat with n by lia.
    reflexivity.
Qed.

Lemma address_search (pattern stops : regex) (text : str) (mt : rmatch) :
  address_shape pattern stops ->
  re_search pattern text I_DOTALL = Some mt ->
  exists span, group mt 1 = Some span /\ Span.lazy_span pattern text span.
Proof.
  intros Hshape H. apply search_from_at in H as (pre & suf & -> & H).
  apply (address_match _ _ _ _ _ Hshape) in H
    as (marker & span & post & -> & H1 & H2 & H3 & H4 & H5 & H6).
  exists span. split; [exact H6|]. exists pre, marker, post. auto 10.
Qed.

Lemma amazon_billing_shape :
  exists stops, address_shape Amazon.billing_pattern stops.
Proof. eexists. repeat split. Qed.

Lemma amazon_shipping_shape :
  exists stops, address_shape Amazon.shipping_address_pattern stops.
Proof. eexists. repeat split. Qed.

Lemma flipkart_billing_shape :
  exists stops, address_shape Flipkart.billing_pattern stops.
Proof. eexists. repeat split. Qed.

Lemma flipkart_shipping_shape :
  exists stops, address_shape Flipkart.shipping_address_pattern stops.
Proof. eexists. repeat split. Qed.

Lemma set_address_assigns (key : string) (mt : rmatch) (span : str) :
  key ∈ column_order -> group mt 1 = Some span ->
  assigns key (Address.value span) (set_address key (Some mt)).
Proof.
  intros Hk Hg d Hd. unfold set_address, if_match, group_val. rewrite Hg.
  eexists tt, _. split; [reflexivity|]. split.
  - apply well_formed_insert; assumption.
  - apply lookup_insert_eq.
Qed.

(** Settles [runs stmt] for the loops of the Flipkart parser as well. *)
Ltac runs_any :=
  lazymatch goal with
  | |- runs (for_break _ (Flipkart.product_name _)) =>
    apply runs_for_patterns with (P := fun p => binds 1 p = true);
    [ repeat constructor
    | let p := fresh "p" in let Hp := fresh "Hp" in
      intros p Hp; apply runs_product_name, Hp ]
  | |- runs (for_break _ (Flipkart.shipping_charges _)) =>
    apply runs_for_break; intros ?; apply runs_shipping_charges
  | |- _ => runs_stmt
  end.

Lemma address_default (text filename : str) :
  (re_search Amazon.billing_pattern text I_DOTALL = None ->
   extract_amazon_invoice text filename !! "Billing Address"%string
   = Some (PStr (py "N/A"))) /\
  (re_search Amazon.shipping_address_pattern text I_DOTALL = None ->
   extract_amazon_invoice text filename !! "Shipping Address"%string
   = Some (PStr (py "N/A"))) /\
  (re_search Flipkart.billing_pattern text I_DOTALL = None ->
   extract_flipkart_invoice text filename !! "Billing Address"%string
   = Some (PStr (py "N/A"))) /\
  (re_search Flipkart.shipping_address_pattern text I_DOTALL = None ->
   extract_flipkart_invoice text filename !! "Shipping Address"%string
   = Some (PStr (py "N/A"))).
Proof.
  repeat split; intros E.
  - rewrite (proj1 (C5_frame text filename "Billing Address" ltac:(in_columns))).
    + reflexivity.
    + unfold Rules.matched_rule, Rules.amazon.
      cbn [Rules.searches String.eqb Ascii.eqb Bool.eqb existsb]. rewrite E. reflexivity.
  - rewrite (proj1 (C5_frame text filename "Shipping Address" ltac:(in_columns))).
    + reflexivity.
    + unfold Rules.matched_rule, Rules.amazon.
      cbn [Rules.searches String.eqb Ascii.eqb Bool.eqb existsb]. rewrite E. reflexivity.
  - rewrite (proj2 (C5_frame text filename "Billing Address" ltac:(in_columns))).
    + reflexivity.
    + unfold Rules.matched_rule, Rules.flipkart.
      cbn [Rules.searches String.eqb Ascii.eqb Bool.eqb existsb]. rewrite E. reflexivity.
  - rewrite (proj2 (C5_frame text filename "Shipping Address" ltac:(in_columns))).
    + reflexivity.
    + unfold Rules.matched_rule, Rules.flipkart.
      cbn [Rules.searches String.eqb Ascii.eqb Bool.eqb existsb]. rewrite E. reflexivity.
Qed.

Lemma amazon_billing_assigns (text : str) (mt : rmatch) (span : str) :
  re_search Amazon.billing_pattern text I_DOTALL = Some mt -> group mt 1 = Some span ->
  assigns "Billing Address" (Address.value span) (Amazon.body text).
Proof.
  intros E Hg. unfold Amazon.body. cbv zeta.
  do 17 (apply assigns_bind_r; [runs_any|intros _]).
  apply assigns_bind_l.
  - rewrite E. apply set_address_assigns; [in_columns|exact Hg].
  - intros _. runs_any.
  - intros _. frame Logic.I.
Qed.

Lemma amazon_shipping_assigns (text : str) (mt : rmatch) (span : str) :
  re_search Amazon.shipping_address_pattern text I_DOTALL = Some mt ->
  group mt 1 = Some span ->
  assigns "Shipping Address" (Address.value span) (Amazon.body text).
Proof.
  intros E Hg. unfold Amazon.body. cbv zeta.
  do 18 (apply assigns_bind_r; [runs_any|intros _]).
  rewrite E. apply set_address_assigns; [in_columns|exact Hg].
Qed.

Lemma flipkart_billing_assigns (text : str) (mt : rmatch) (span : str) :
  re_search Flipkart.billing_pattern text I_DOTALL = Some mt -> group mt 1 = Some span ->
  assigns "Billing Address" (Address.value span) (Flipkart.body text).
Proof.
  intros E Hg. unfold Flipkart.body. cbv zeta.
  do 15 (apply assigns_bind_r; [runs_any|intros _]).
  apply assigns_bind_l.
  - rewrite E. apply set_address_assigns; [in_columns|exact Hg].
  - intros _. runs_any.
  - intros _. frame Logic.I.
Qed.

Lemma flipkart_shipping_assigns (text : str) (mt : rmatch) (span : str) :
  re_search Flipkart.shipping_address_pattern text I_DOTALL = Some mt ->
  group mt 1 = Some span ->
  assigns "Shipping Address" (Address.value span) (Flipkart.body text).
Proof.
  intros E Hg. unfold Flipkart.body. cbv zeta.
  do 16 (apply assigns_bind_r; [runs_any|intros _]).
  rewrite E. apply set_address_assigns; [in_columns|exact Hg].
Qed.

Lemma assigns_amazon (text filename : str) (k : string) (v : pyval) :
  assigns k v (Amazon.body text) -> extract_amazon_invoice text filename !! k = Some v.
Proof.
  intros H.
  destruct (H (initial_data filename "Amazon") (initial_data_well_formed _ _))
    as ([] & d & E & _ & Hv).
  unfold extract_amazon_invoice, try_except. rewrite E. exact Hv.
Qed.

Lemma assigns_flipkart (text filename : str) (k : string) (v : pyval) :
  assigns k v (Flipkart.body text) -> extract_flipkart_invoice text filename !! k = Some v.
Proof.
  intros H.
  destruct (H (initial_data filename "Flipkart") (initial_data_well_formed _ _))
    as ([] & d & E & _ & Hv).
  unfold extract_flipkart_invoice, try_except. rewrite E. exact Hv.
Qed.

Lemma address_value_shape (span : str) :
  exists v, Address.value span = PStr v /\
            v = take 150 (re_sub whitespace_run (py " ") (strip span)) /\
            (length v <= 150)%nat /\
            Forall (fun c => isspace c = true -> c = 32) v.
Proof.
  eexists. split; [reflexivity|]. split; [reflexivity|]. split.
  - rewrite length_take. lia.
  - apply Forall_take. apply collapse_only_spaces.
Qed.

(** C8, as the code has it: an address field holds "N/A" when its
    pattern finds nothing in the text; otherwise it holds the span that
    the first match captured, trimmed, with its white-space runs
    collapsed to single spaces and cut to 150 code points.  The span
    follows the start marker of the field (and, for Amazon, colons and
    white space), is not empty and holds no colon, and ends at the first
    place after its first code point that is followed by a stop marker of
    the field itself or by the end of the text: for Amazon "Shipping
    Address" or "State/UT" after a billing address and "Place of" or
    "State/UT" after a shipping address, for Flipkart "Ship To" or
    "Order ID" after a billing address and "Bill To" or "Order ID" after
    a shipping address. *)
Theorem C8_address_fields (text filename : str) :
  Span.captured Amazon.billing_pattern text
    (extract_amazon_invoice text filename !! "Billing Address"%string) /\
  Span.captured Amazon.shipping_address_pattern text
    (extract_amazon_invoice text filename !! "Shipping Address"%string) /\
  Span.captured Flipkart.billing_pattern text
    (extract_flipkart_invoice text filename !! "Billing Address"%string) /\
  Span.captured Flipkart.shipping_address_pattern text
    (extract_flipkart_invoice text filename !! "Shipping Address"%string) /\
  (Address.start Amazon.billing_pattern = compile "Billing\s*Address[:\s]*" /\
   RCat (Address.stop Amazon.billing_pattern) REmpty
   = compile "(?=Shipping\s*Address|State/UT|$)" /\
   Address.start Amazon.shipping_address_pattern = compile "Shipping\s*Address[:\s]*" /\
   RCat (Address.stop Amazon.shipping_address_pattern) REmpty
   = compile "(?=Place\s*of|State/UT|$)" /\
   Address.start Flipkart.billing_pattern = compile "Bill\s*To\s*" /\
   RCat (Address.stop Flipkart.billing_pattern) REmpty
   = compile "(?=Ship\s*To|Order\s*ID|$)" /\
   Address.start Flipkart.shipping_address_pattern = compile "Ship\s*To\s*" /\
   RCat (Address.stop Flipkart.shipping_address_pattern) REmpty
   = compile "(?=Bill\s*To|Order\s*ID|$)") /\
  (forall span, exists v,
     Address.value span = PStr v /\
     v = take 150 (re_sub whitespace_run (py " ") (strip span)) /\
     (length v <= 150)%nat /\
     Forall (fun c => isspace c = true -> c = 32) v).
Proof.
  destruct (address_default text filename) as (D1 & D2 & D3 & D4).
  split; [|split; [|split; [|split; [|split]]]].
  - unfold Span.captured.
    destruct (re_search Amazon.billing_pattern text I_DOTALL) as [mt|] eqn:E; [|auto].
    destruct amazon_billing_shape as [stops Hs].
    destruct (address_search _ _ _ _ Hs E) as (span & Hg & Hl).
    exists span. repeat split; try assumption.
    apply assigns_amazon. eapply amazon_billing_assigns; eassumption.
  - unfold Span.captured.
    destruct (re_search Amazon.shipping_address_pattern text I_DOTALL) as [mt|] eqn:E;
      [|auto].
    destruct amazon_shipping_shape as [stops Hs].
    destruct (address_search _ _ _ _ Hs E) as (span & Hg & Hl).
    exists span. repeat split; try assumption.
    apply assigns_amazon. eapply amazon_shipping_assigns; eassumption.
  - unfold Span.captured.
    destruct (re_search Flipkart.billing_pattern text I_DOTALL) as [mt|] eqn:E; [|auto].
    destruct flipkart_billing_shape as [stops Hs].
    destruct (address_search _ _ _ _ Hs E) as (span & Hg & Hl).
    exists span. repeat split; try assumption.
    apply assigns_flipkart. eapply flipkart_billing_assigns; eassumption.
  - unfold Span.captured.
    destruct (re_search Flipkart.shipping_address_pattern text I_DOTALL) as [mt|] eqn:E;
      [|auto].
    destruct flipkart_shipping_shape as [stops Hs].
    destruct (address_search _ _ _ _ Hs E) as (span & Hg & Hl).
    exists span. repeat split; try assumption.
    apply assigns_flipkart. eapply flipkart_shipping_assigns; eassumption.
  - repeat split; vm_compute; reflexivity.
  - apply address_value_shape.
Qed.

(** C8, as stated, fails.  "Order ID" does not end an Amazon billing
    address, although it is in the closed set; a colon before the stop
    marker leaves the field at its default; and "Bill To", which is not
    in the set, ends a Flipkart shipping address. *)
Lemma C8_stop_markers_differ_by_field :
  extract_amazon_invoice (py "Billing Address: Flat 1 Order ID 77") (py "invoice.pdf")
    !! "Billing Address"%string = Some (PStr (py "Flat 1 Order ID 77")) /\
  Address.spec_value Address.spec_billing (py "Billing Address: Flat 1 Order ID 77")
    = PStr (py "Flat 1") /\
  extract_amazon_invoice (py "Billing Address: John Phone: 12 Shipping Address: X")
                         (py "invoice.pdf")
    !! "Billing Address"%string = Some (PStr (py "N/A")) /\
  Address.spec_value Address.spec_billing
                     (py "Billing Address: John Phone: 12 Shipping Address: X")
    = PStr (py "John Phone: 12") /\
  extract_flipkart_invoice (py "Ship To Jane Roe Bill To Joe") (py "invoice.pdf")
    !! "Shipping Address"%string = Some (PStr (py "Jane Roe")) /\
  Address.spec_value Address.spec_shipping (py "Ship To Jane Roe Bill To Joe")
    = PStr (py "Jane Roe Bill To Joe") /\
  py "Flat 1 Order ID 77" <> py "Flat 1" /\
  py "N/A" <> py "John Phone: 12" /\
  py "Jane Roe" <> py "Jane Roe Bill To Joe".
Proof. vm_compute. repeat split; discriminate. Qed.

(** ** The record as a function of the searches *)

Lemma updates_skip {A B : Type} (k : string) (f : pyval -> pyval) (c : M A) (h : A -> M B) :
  runs c -> preserves k c -> (forall a, updates k f (h a)) -> updates k f (c ≫= h).
Proof.
  intros Hr Hp Hh d Hd. destruct (Hr d Hd) as (a & d1 & E & Hd1).
  destruct (Hh a d1 Hd1) as (b & d2 & E2 & Hd2 & Hv).
  exists b, d2. unfold mbind, M_bind, bind. rewrite E.
  split; [exact E2|]. split; [exact Hd2|].
  rewrite Hv. specialize (Hp d). rewrite E in Hp. simpl in Hp. rewrite Hp. reflexivity.
Qed.

Lemma updates_here {A B : Type} (k : string) (f : pyval -> pyval) (c : M A) (h : A -> M B) :
  updates k f c -> (forall a, runs (h a)) -> (forall a, preserves k (h a)) ->
  updates k f (c ≫= h).
Proof.
  intros Hc Hr Hp d Hd. destruct (Hc d Hd) as (a & d1 & E & Hd1 & Hv).
  destruct (Hr a d1 Hd1) as (b & d2 & E2 & Hd2).
  exists b, d2. unfold mbind, M_bind, bind. rewrite E.
  split; [exact E2|]. split; [exact Hd2|].
  specialize (Hp a d1). rewrite E2 in Hp. simpl in Hp. rewrite Hp. exact Hv.
Qed.

Lemma updates_same {A : Type} (k : string) (f : pyval -> pyval) (a : A)
  (d : gmap string pyval) :
  (forall old, f old = old) -> well_formed d ->
  exists (a' : A) d', (Ok a, d) = (Ok a', d') /\ well_formed d' /\
                      d' !! k = f <$> d !! k.
Proof.
  intros Hf Hd. exists a, d. split; [reflexivity|]. split; [exact Hd|].
  destruct (d !! k); simpl; [rewrite Hf|]; reflexivity.
Qed.

Lemma updates_insert {A : Type} (k : string) (f : pyval -> pyval) (a : A) (s : str)
  (d : gmap string pyval) :
  (forall old, f old = PStr s) -> k ∈ column_order -> well_formed d ->
  exists (a' : A) d', (Ok a, <[k := PStr s]> d) = (Ok a', d') /\ well_formed d' /\
                      d' !! k = f <$> d !! k.
Proof.
  intros Hf Hk Hd. exists a, (<[k := PStr s]> d). split; [reflexivity|].
  split; [apply well_formed_insert; assumption|].
  rewrite lookup_insert_eq.
  destruct (well_formed_lookup d k Hd Hk) as [s' ->]. simpl. rewrite Hf. reflexivity.
Qed.

(** The two ways a statement ends: the field is left, or written. *)
Ltac by_cases :=
  intros ?;
  repeat first
    [ progress cbn [Field.stripped Field.date Field.currency Field.address
                    Field.quantity Field.tax_rate Field.amazon_seller
                    Field.flipkart_seller Field.first_match Field.amazon_product
                    Field.flipkart_product Field.flipkart_shipping]
    | match goal with H : _ = _ |- _ => rewrite H end ];
  reflexivity.
Ltac left_alone d Hd := apply (updates_same _ _ tt d); [by_cases|exact Hd].
Ltac written d Hd :=
  eapply (updates_insert _ _ tt _ d);
  [ by_cases | first [assumption | in_columns] | exact Hd ].

(** *** The statements, each on the field it writes *)

Section Statements.
Variable key : string.
Hypothesis Hkey : key ∈ column_order.

Lemma updates_set_stripped (o : option rmatch) :
  (forall mt, o = Some mt -> exists g, group mt 1 = Some g) ->
  updates key (Field.stripped o) (set_stripped key o).
Proof.
  intros Hg d Hd. destruct o as [mt|]; simpl.
  - destruct (Hg mt eq_refl) as [g E].
    unfold mbind, M_bind, bind, lift, method_strip, group_val, setitem. rewrite E.
    written d Hd.
  - left_alone d Hd.
Qed.

Lemma updates_set_date (o : option rmatch) :
  (forall mt, o = Some mt -> exists g, group mt 1 = Some g) ->
  updates key (Field.date o) (set_date key o).
Proof.
  intros Hg d Hd. destruct o as [mt|]; simpl.
  - destruct (Hg mt eq_refl) as [g E].
    unfold mbind, M_bind, bind, lift, method_strip, group_val, setitem. rewrite E.
    destruct (standardize_date_ok (strip g)) as [r Er]. rewrite Er.
    written d Hd.
  - left_alone d Hd.
Qed.

Lemma updates_set_currency (o : option rmatch) :
  updates key (Field.currency o) (set_currency key o).
Proof.
  intros d Hd. destruct o as [mt|]; simpl.
  - unfold setitem. written d Hd.
  - left_alone d Hd.
Qed.

Lemma updates_set_address (o : option rmatch) :
  (forall mt, o = Some mt -> exists g, group mt 1 = Some g) ->
  updates key (Field.address o) (set_address key o).
Proof.
  intros Hg d Hd. destruct o as [mt|]; simpl.
  - destruct (Hg mt eq_refl) as [g E].
    unfold mbind, M_bind, bind, lift, method_strip, group_val, setitem. rewrite E.
    written d Hd.
  - left_alone d Hd.
Qed.

Lemma updates_quantity (o : option rmatch) :
  (forall mt, o = Some mt -> exists g, group mt 1 = Some g) ->
  updates key (Field.quantity o)
    (if_match o (fun qty_match => setitem key (group_val qty_match 1))).
Proof.
  intros Hg d Hd. destruct o as [mt|]; simpl.
  - destruct (Hg mt eq_refl) as [g E].
    assert (Ev : group_val mt 1 = PStr g) by (unfold group_val; rewrite E; reflexivity).
    unfold setitem. rewrite Ev. clear E. written d Hd.
  - left_alone d Hd.
Qed.

Lemma updates_tax_rate (o : option rmatch) :
  updates key (Field.tax_rate o)
    (if_match o (fun tax_rate_match =>
       setitem key (PStr (str_of (group_val tax_rate_match 1) ++ py "%")))).
Proof.
  intros d Hd. destruct o as [mt|]; simpl.
  - unfold setitem. written d Hd.
  - left_alone d Hd.
Qed.

Lemma updates_amazon_seller (o : option rmatch) :
  (forall mt, o = Some mt -> exists g, group mt 1 = Some g) ->
  updates key (Field.amazon_seller o)
    (if_match o (fun seller_match =>
       seller_name ← lift (method_strip (group_val seller_match 1));
       let seller_name := strip (re_sub Amazon.after_star [] seller_name) in
       setitem key (PStr (take 100 seller_name)))).
Proof.
  intros Hg d Hd. destruct o as [mt|]; simpl.
  - destruct (Hg mt eq_refl) as [g E].
    unfold mbind, M_bind, bind, lift, method_strip, group_val, setitem. rewrite E.
    written d Hd.
  - left_alone d Hd.
Qed.

Lemma updates_flipkart_seller (o : option rmatch) :
  (forall mt, o = Some mt -> exists g, group mt 1 = Some g) ->
  updates key (Field.flipkart_seller o)
    (if_match o (fun seller_match =>
       seller_name ← lift (method_strip (group_val seller_match 1));
       setitem key (PStr (take 100 seller_name)))).
Proof.
  intros Hg d Hd. destruct o as [mt|]; simpl.
  - destruct (Hg mt eq_refl) as [g E].
    unfold mbind, M_bind, bind, lift, method_strip, group_val, setitem. rewrite E.
    written d Hd.
  - left_alone d Hd.
Qed.

(** A loop over patterns stores what the first pattern that matches has
    captured. *)
Lemma updates_first_stripped (patterns : list regex) (text : str) (fl : flags) :
  Forall (fun p => binds 1 p = true) patterns ->
  updates key (Field.stripped (Field.first_match patterns text fl))
    (for_break patterns (Amazon.first_stripped key text fl)).
Proof.
  induction 1 as [|p ps Hp _ IH]; intros d Hd.
  - left_alone d Hd.
  - cbn [for_break Field.first_match]. unfold Amazon.first_stripped.
    unfold mbind at 1. unfold M_bind at 1. unfold bind at 1.
    destruct (re_search p text fl) as [mt|] eqn:E.
    + destruct (search_binds fl 1 p text mt Hp E) as [g Hg].
      unfold mbind, M_bind, bind, lift, method_strip, group_val, setitem, mret, M_ret, ret.
      rewrite Hg. written d Hd.
    + apply (IH d Hd).
Qed.

Lemma updates_first_currency (patterns : list regex) (text : str) (fl : flags) :
  updates key (Field.currency (Field.first_match patterns text fl))
    (for_break patterns (Amazon.first_currency key text fl)).
Proof.
  induction patterns as [|p ps IH]; intros d Hd.
  - left_alone d Hd.
  - cbn [for_break Field.first_match]. unfold Amazon.first_currency.
    unfold mbind at 1. unfold M_bind at 1. unfold bind at 1.
    destruct (re_search p text fl) as [mt|] eqn:E.
    + unfold mbind, M_bind, bind, setitem, mret, M_ret, ret. written d Hd.
    + apply (IH d Hd).
Qed.

End Statements.

(** The loop over the lines of the Amazon parser. *)
Lemma updates_product_lines (lines : list str) :
  forall (todo : list str) (i : nat),
    updates "Product Name" (fun old => Field.amazon_product lines i todo old)
      (for_break (zip (seq i (length todo)) todo) (Amazon.product_line lines)).
Proof.
  induction todo as [|line todo IH]; intros i d Hd.
  - left_alone d Hd.
  - rewrite zip_seq_cons. cbn [for_break Field.amazon_product].
    unfold mbind at 1. unfold M_bind at 1. unfold bind at 1.
    destruct (matched (re_search Amazon.item_number line NOFLAG)) eqn:Hm.
    + rewrite (product_line_sets lines i line d Hm). written d Hd.
    + rewrite (product_line_skips lines i line d Hm). apply (IH (S i) d Hd).
Qed.

(** The loop over the product patterns of the Flipkart parser. *)
Lemma updates_product_patterns (patterns : list regex) (text : str) :
  Forall (fun p => binds 1 p = true) patterns ->
  updates "Product Name" (fun old => Field.flipkart_product patterns text old)
    (for_break patterns (Flipkart.product_name text)).
Proof.
  induction 1 as [|p ps Hp _ IH]; intros d Hd.
  - left_alone d Hd.
  - cbn [for_break Field.flipkart_product]. unfold Flipkart.product_name.
    unfold mbind at 1. unfold M_bind at 1. unfold bind at 1.
    destruct (re_search p text I_DOTALL) as [mt|] eqn:E; [|apply (IH d Hd)].
    destruct (search_binds I_DOTALL 1 p text mt Hp E) as [g Hg].
    unfold mbind at 1. unfold M_bind at 1. unfold bind at 1.
    unfold lift, method_strip, group_val. rewrite Hg.
    fold (Field.flipkart_candidate g).
    destruct (10 <? length (Field.flipkart_candidate g))%nat eqn:El.
    + unfold mbind, M_bind, bind, setitem, mret, M_ret, ret. written d Hd.
    + apply (IH d Hd).
Qed.

(** The loop over the shipping patterns of the Flipkart parser. *)
Lemma updates_shipping_patterns (patterns : list regex) (text : str) :
  updates "Shipping Charges" (fun old => Field.flipkart_shipping patterns text old)
    (for_break patterns (Flipkart.shipping_charges text)).
Proof.
  induction patterns as [|p ps IH]; intros d Hd.
  - left_alone d Hd.
  - cbn [for_break Field.flipkart_shipping]. unfold Flipkart.shipping_charges.
    unfold mbind at 1. unfold M_bind at 1. unfold bind at 1.
    destruct (re_search p text I) as [mt|] eqn:E; [|apply (IH d Hd)].
    destruct (differs (group_val mt 1) (py "0.00")) eqn:Ed.
    + unfold mbind, M_bind, bind, setitem, mret, M_ret, ret. written d Hd.
    + apply (IH d Hd).
Qed.

Lemma updates_amazon (text filename : str) (k : string) (f : pyval -> pyval) (v : pyval) :
  initial_data filename "Amazon" !! k = Some v -> updates k f (Amazon.body text) ->
  extract_amazon_invoice text filename !! k = Some (f v).
Proof.
  intros Hi H.
  destruct (H (initial_data filename "Amazon") (initial_data_well_formed _ _))
    as ([] & d & E & _ & Hv).
  unfold extract_amazon_invoice, try_except. rewrite E. simpl. rewrite Hv, Hi. reflexivity.
Qed.

Lemma updates_flipkart (text filename : str) (k : string) (f : pyval -> pyval) (v : pyval) :
  initial_data filename "Flipkart" !! k = Some v -> updates k f (Flipkart.body text) ->
  extract_flipkart_invoice text filename !! k = Some (f v).
Proof.
  intros Hi H.
  destruct (H (initial_data filename "Flipkart") (initial_data_well_formed _ _))
    as ([] & d & E & _ & Hv).
  unfold extract_flipkart_invoice, try_except. rewrite E. simpl. rewrite Hv, Hi. reflexivity.
Qed.

Lemma kept_amazon (text filename : str) (k : string) (v : pyval) :
  initial_data filename "Amazon" !! k = Some v -> preserves k (Amazon.body text) ->
  extract_amazon_invoice text filename !! k = Some v.
Proof.
  intros Hi H. unfold extract_amazon_invoice. rewrite (frame_lookup k _ _ H). exact Hi.
Qed.

Lemma kept_flipkart (text filename : str) (k : string) (v : pyval) :
  initial_data filename "Flipkart" !! k = Some v -> preserves k (Flipkart.body text) ->
  extract_flipkart_invoice text filename !! k = Some v.
Proof.
  intros Hi H. unfold extract_flipkart_invoice. rewrite (frame_lookup k _ _ H). exact Hi.
Qed.

(** The group that a search has bound, for the patterns with a group 1. *)
Ltac bound_group :=
  let mt := fresh "mt" in let E := fresh "E" in
  intros mt E; eapply search_binds; [|exact E]; reflexivity.

(** Settles [updates k f stmt] for the statement that writes [k]. *)
Ltac own_statement :=
  lazymatch goal with
  | |- updates _ _ (for_break _ (Amazon.first_stripped _ _ _)) =>
    apply updates_first_stripped; [in_columns|repeat constructor]
  | |- updates _ _ (for_break _ (Amazon.first_currency _ _ _)) =>
    apply updates_first_currency; in_columns
  | |- updates _ _ (for_break _ (Amazon.product_line _)) =>
    apply (updates_product_lines _ _ 0%nat)
  | |- updates _ _ (for_break _ (Flipkart.product_name _)) =>
    apply updates_product_patterns; repeat constructor
  | |- updates _ _ (for_break _ (Flipkart.shipping_charges _)) =>
    apply updates_shipping_patterns
  | |- updates _ _ (set_stripped _ _) =>
    apply updates_set_stripped; [in_columns|bound_group]
  | |- updates _ _ (set_date _ _) =>
    apply updates_set_date; [in_columns|bound_group]
  | |- updates _ _ (set_currency _ _) =>
    apply updates_set_currency; in_columns
  | |- updates _ _ (set_address _ _) =>
    apply updates_set_address; [in_columns|bound_group]
  | |- updates _ (Field.quantity _) (if_match _ _) =>
    apply updates_quantity; [in_columns|bound_group]
  | |- updates _ (Field.tax_rate _) (if_match _ _) =>
    apply updates_tax_rate; in_columns
  | |- updates _ (Field.amazon_seller _) (if_match _ _) =>
    apply updates_amazon_seller; [in_columns|bound_group]
  | |- updates _ (Field.flipkart_seller _) (if_match _ _) =>
    apply updates_flipkart_seller; [in_columns|bound_group]
  end.

(** Settles [updates k f body]: the statements before that of [k] are
    passed, those after it leave [k] alone. *)
Ltac field_of_body :=
  cbv zeta;
  repeat (apply updates_skip; [runs_any|frame Logic.I|intros _]);
  first
    [ own_statement
    | apply updates_here;
      [ own_statement
      | intros _; repeat (apply runs_bind; [runs_any|intros _]); runs_any
      | intros _; repeat (apply preserves_bind; [frame Logic.I|intros _]); frame Logic.I ] ].

(** The look-up of a field in a record written out. *)
Ltac lookup_written :=
  cbn [list_to_map fold_right fst snd];
  repeat (rewrite lookup_insert_ne by discriminate);
  rewrite lookup_insert_eq.

Lemma not_a_column (k : string) (l : list (string * pyval)) :
  k ∉ l.*1 -> (list_to_map l : gmap string pyval) !! k = None.
Proof. apply not_elem_of_list_to_map_1. Qed.

(** The record of the Amazon parser, field by field. *)
Lemma amazon_by_field (text filename : str) :
  extract_amazon_invoice text filename = list_to_map (Field.amazon text filename).
Proof.
  apply map_eq. intros k.
  destruct (decide (k ∈ column_order)) as [Hk|Hk].
  - unfold column_order in Hk. unfold Field.amazon. cbv zeta.
    repeat (apply elem_of_cons in Hk as [->|Hk];
            [ lookup_written;
              lazymatch goal with
              | |- _ = Some (PStr filename) =>
                apply (kept_amazon text filename);
                [reflexivity|apply amazon_frame; [in_columns|reflexivity]]
              | |- _ = Some (PStr (py "Amazon")) =>
                apply (kept_amazon text filename);
                [reflexivity|apply amazon_frame; [in_columns|reflexivity]]
              | |- _ = Some (?F ?v) =>
                apply (updates_amazon text filename _ F v);
                [reflexivity|unfold Amazon.body; field_of_body]
              end
            | ]).
    inversion Hk.
  - rewrite not_a_column by exact Hk.
    destruct (extract_amazon_normal text filename) as (d & _ & -> & Hd).
    apply not_elem_of_dom. rewrite (proj1 Hd). rewrite elem_of_list_to_set. exact Hk.
Qed.

(** The record of the Flipkart parser, field by field. *)
Lemma flipkart_by_field (text filename : str) :
  extract_flipkart_invoice text filename = list_to_map (Field.flipkart text filename).
Proof.
  apply map_eq. intros k.
  destruct (decide (k ∈ column_order)) as [Hk|Hk].
  - unfold column_order in Hk. unfold Field.flipkart. cbv zeta.
    repeat (apply elem_of_cons in Hk as [->|Hk];
            [ lookup_written;
              lazymatch goal with
              | |- _ = Some (PStr filename) =>
                apply (kept_flipkart text filename);
                [reflexivity|apply flipkart_frame; [in_columns|reflexivity]]
              | |- _ = Some (PStr (py _)) =>
                apply (kept_flipkart text filename);
                [reflexivity|apply flipkart_frame; [in_columns|reflexivity]]
              | |- _ = Some (?F ?v) =>
                apply (updates_flipkart text filename _ F v);
                [reflexivity|unfold Flipkart.body; field_of_body]
              end
            | ]).
    inversion Hk.
  - rewrite not_a_column by exact Hk.
    destruct (extract_flipkart_normal text filename) as (d & _ & -> & Hd).
    apply not_elem_of_dom. rewrite (proj1 Hd). rewrite elem_of_list_to_set. exact Hk.
Qed.

(** X1: each parser as a function of its searches.  The record that
    [extract_amazon_invoice] or [extract_flipkart_invoice] returns is
    the record written out field by field in [Field.amazon] or
    [Field.flipkart]: each field is made from what the searches of its
    own statement found, by the first pattern that matched where there
    are several, and is the value that the parser started with when they
    found nothing; no statement changes the field of another, and no
    exception cuts the [try] block short. *)
Theorem parsers_by_field (text filename : str) :
  extract_amazon_invoice text filename = list_to_map (Field.amazon text filename) /\
  extract_flipkart_invoice text filename = list_to_map (Field.flipkart text filename).
Proof. split; [apply amazon_by_field|apply flipkart_by_field]. Qed.

(** ** What the fields can hold *)

(** The look-up of a field in the record of a parser. *)
Ltac amazon_field :=
  rewrite amazon_by_field; unfold Field.amazon; cbv zeta; lookup_written.
Ltac flipkart_field :=
  rewrite flipkart_by_field; unfold Field.flipkart; cbv zeta; lookup_written.

(** X2: the fields that no statement writes.  Whatever the text, the
    record of either parser has the file name it was given in "File
    Name" and the name of the vendor in "Invoice Source"; and the record
    of the Flipkart parser has "0.00" in "Total Amount" and "N/A" in
    "Payment Mode", the amount after "Total" going to "Grand Total". *)
Theorem fields_never_written (text filename : str) :
  extract_amazon_invoice text filename !! "File Name"%string = Some (PStr filename) /\
  extract_amazon_invoice text filename !! "Invoice Source"%string
  = Some (PStr (py "Amazon")) /\
  extract_flipkart_invoice text filename !! "File Name"%string = Some (PStr filename) /\
  extract_flipkart_invoice text filename !! "Invoice Source"%string
  = Some (PStr (py "Flipkart")) /\
  extract_flipkart_invoice text filename !! "Total Amount"%string
  = Some (PStr (py "0.00")) /\
  extract_flipkart_invoice text filename !! "Payment Mode"%string
  = Some (PStr (py "N/A")).
Proof.
  repeat split; first [amazon_field | flipkart_field]; reflexivity.
Qed.

(** X3: the parsers do not read the file name.  The records that a
    parser returns for one text under two file names differ in "File
    Name" alone. *)
Theorem parsers_ignore_the_file_name (text filename filename' : str) (key : string) :
  key <> "File Name"%string ->
  extract_amazon_invoice text filename !! key
  = extract_amazon_invoice text filename' !! key /\
  extract_flipkart_invoice text filename !! key
  = extract_flipkart_invoice text filename' !! key.
Proof.
  intros Hk. rewrite !amazon_by_field, !flipkart_by_field.
  unfold Field.amazon, Field.flipkart. cbv zeta. cbn [list_to_map fold_right fst snd].
  rewrite !(lookup_insert_ne _ "File Name"%string key) by congruence.
  split; reflexivity.
Qed.

Lemma parsers_ignore_the_file_name_witness :
  "Invoice Source"%string <> "File Name"%string /\
  extract_amazon_invoice (py "Order ID: 1") (py "a.pdf") !! "Invoice Source"%string
  = extract_amazon_invoice (py "Order ID: 1") (py "b.pdf") !! "Invoice Source"%string /\
  extract_flipkart_invoice (py "Order ID: 1") (py "a.pdf") !! "Invoice Source"%string
  = extract_flipkart_invoice (py "Order ID: 1") (py "b.pdf") !! "Invoice Source"%string.
Proof.
  assert (Hk : "Invoice Source"%string <> "File Name"%string) by discriminate.
  split; [exact Hk|].
  exact (parsers_ignore_the_file_name (py "Order ID: 1") (py "a.pdf") (py "b.pdf")
           "Invoice Source" Hk).
Defined.

(** *** Lengths *)

Lemma at_most_take (n : nat) (s : str) : at_most n (Some (PStr (take n s))).
Proof. eexists. split; [reflexivity|]. rewrite length_take. lia. Qed.

Lemma at_most_default (n : nat) : (3 <= n)%nat -> at_most n (Some (PStr (py "N/A"))).
Proof. intros H. eexists. split; [reflexivity|]. exact H. Qed.

Lemma amazon_product_at_most (lines : list str) :
  forall todo i, at_most 200 (Some (Field.amazon_product lines i todo (PStr (py "N/A")))).
Proof.
  induction todo as [|line todo IH]; intros i; cbn [Field.amazon_product].
  - apply at_most_default. lia.
  - destruct (matched _); [apply at_most_take|apply IH].
Qed.

Lemma flipkart_product_at_most (text : str) :
  forall patterns,
    at_most 200 (Some (Field.flipkart_product patterns text (PStr (py "N/A")))).
Proof.
  induction patterns as [|p ps IH]; cbn [Field.flipkart_product].
  - apply at_most_default. lia.
  - destruct (re_search p text I_DOTALL) as [mt|]; [|exact IH].
    destruct (group mt 1) as [g|]; [|apply at_most_default; lia].
    destruct (10 <? _)%nat; [apply at_most_take|exact IH].
Qed.

Lemma address_at_most (o : option rmatch) :
  at_most 150 (Some (Field.address o (PStr (py "N/A")))).
Proof.
  destruct o as [mt|]; cbn [Field.address]; [|apply at_most_default; lia].
  destruct (group mt 1) as [g|]; [apply at_most_take|apply at_most_default; lia].
Qed.

Lemma amazon_seller_at_most (o : option rmatch) :
  at_most 100 (Some (Field.amazon_seller o (PStr (py "N/A")))).
Proof.
  destruct o as [mt|]; cbn [Field.amazon_seller]; [|apply at_most_default; lia].
  destruct (group mt 1) as [g|]; [apply at_most_take|apply at_most_default; lia].
Qed.

Lemma flipkart_seller_at_most (o : option rmatch) :
  at_most 100 (Some (Field.flipkart_seller o (PStr (py "N/A")))).
Proof.
  destruct o as [mt|]; cbn [Field.flipkart_seller]; [|apply at_most_default; lia].
  destruct (group mt 1) as [g|]; [apply at_most_take|apply at_most_default; lia].
Qed.

(** X4: the bounds on the lengths.  Whatever the text, in the record of
    either parser the product name has at most 200 code points, the name
    of the seller at most 100 and each address at most 150. *)
Theorem field_lengths (text filename : str) :
  at_most 200 (extract_amazon_invoice text filename !! "Product Name"%string) /\
  at_most 100 (extract_amazon_invoice text filename !! "Seller Name"%string) /\
  at_most 150 (extract_amazon_invoice text filename !! "Billing Address"%string) /\
  at_most 150 (extract_amazon_invoice text filename !! "Shipping Address"%string) /\
  at_most 200 (extract_flipkart_invoice text filename !! "Product Name"%string) /\
  at_most 100 (extract_flipkart_invoice text filename !! "Seller Name"%string) /\
  at_most 150 (extract_flipkart_invoice text filename !! "Billing Address"%string) /\
  at_most 150 (extract_flipkart_invoice text filename !! "Shipping Address"%string).
Proof.
  repeat split.
  - amazon_field. apply amazon_product_at_most.
  - amazon_field. apply amazon_seller_at_most.
  - amazon_field. apply address_at_most.
  - amazon_field. apply address_at_most.
  - flipkart_field. apply flipkart_product_at_most.
  - flipkart_field. apply flipkart_seller_at_most.
  - flipkart_field. apply address_at_most.
  - flipkart_field. apply address_at_most.
Qed.

(** *** Amounts *)

Lemma zero_is_amount : is_amount (Some (PStr (py "0.00"))).
Proof.
  eexists. split; [reflexivity|]. split; [discriminate|].
  repeat constructor; first [left; reflexivity | right; reflexivity].
Qed.

Lemma clean_currency_is_amount (v : pyval) : is_amount (Some (PStr (clean_currency v))).
Proof.
  destruct v as [|s]; [exact zero_is_amount|].
  rewrite clean_currency_filter. cbv zeta.
  destruct (List.filter _ s) as [|c t] eqn:E; [exact zero_is_amount|].
  cbn [is_empty]. eexists. split; [reflexivity|]. split; [discriminate|].
  rewrite <- E. apply Forall_forall. intros x Hx.
  apply list_elem_of_In, filter_In in Hx as [_ Hx].
  apply orb_true_iff in Hx as [Hx|Hx]; [left; exact Hx|right; apply N.eqb_eq, Hx].
Qed.

Lemma currency_is_amount (o : option rmatch) :
  is_amount (Some (Field.currency o (PStr (py "0.00")))).
Proof.
  destruct o as [mt|]; cbn [Field.currency];
    [apply clean_currency_is_amount|exact zero_is_amount].
Qed.

Lemma flipkart_shipping_is_amount (text : str) :
  forall patterns,
    is_amount (Some (Field.flipkart_shipping patterns text (PStr (py "0.00")))).
Proof.
  induction patterns as [|p ps IH]; cbn [Field.flipkart_shipping].
  - exact zero_is_amount.
  - destruct (re_search p text I) as [mt|]; [|exact IH].
    destruct (differs _ _); [apply clean_currency_is_amount|exact IH].
Qed.

(** X5: the amounts.  Whatever the text, each of the six amount fields
    of the record of either parser holds a non-empty string of decimal
    digits and periods: "0.00", or what [clean_currency] made of a
    match. *)
Theorem amounts_are_numeric (text filename : str) :
  Forall (fun key =>
            is_amount (extract_amazon_invoice text filename !! key) /\
            is_amount (extract_flipkart_invoice text filename !! key))
         amount_fields.
Proof.
  unfold amount_fields.
  repeat (apply Forall_cons; split;
          [split;
           [ amazon_field; apply currency_is_amount
           | flipkart_field;
             first [ apply currency_is_amount
                   | apply flipkart_shipping_is_amount
                   | exact zero_is_amount ] ]|]).
  apply List.Forall_nil.
Qed.

(** ** [clean_text], word by word *)

Lemma take_while_ext {A : Type} (f g : A -> bool) (l : list A) :
  (forall x, f x = g x) -> take_while f l = take_while g l.
Proof.
  intros H. induction l as [|x l IH]; simpl; [reflexivity|].
  rewrite H, IH. reflexivity.
Qed.

(** A greedy repetition of a class, followed by nothing that can fail,
    takes the whole run. *)
Lemma greedy_run (P : char -> bool) :
  forall fuel st,
    (length (rest st) <= fuel)%nat ->
    rep_more (step P) true (fun st' => Some st') fuel st
    = Some (advance st (length (take_while P (rest st)))).
Proof.
  induction fuel as [|f IH]; intros st Hf; cbn [rep_more].
  - destruct (rest st) as [|x t] eqn:Hr; [|simpl in Hf; lia].
    cbn [take_while length]. rewrite advance_0. reflexivity.
  - unfold step. destruct (rest st) as [|x t] eqn:Hr.
    + cbn [take_while length]. rewrite advance_0. reflexivity.
    + cbn [take_while]. destruct (P x) eqn:Hx.
      * cbn [pos].
        replace (pos st <? S (pos st))%nat with true
          by (symmetry; apply Nat.ltb_lt; lia).
        rewrite IH by (cbn [rest]; simpl in Hf; lia).
        cbn [rest length]. rewrite (advance_S st x t _ Hr). reflexivity.
      * cbn [length]. rewrite advance_0. reflexivity.
Qed.

(** [\s+] at a white-space code point takes the run that starts there. *)
Lemma whitespace_run_at (p : nat) (c : char) (t : str) :
  isspace c = true ->
  exists mt, match_at NOFLAG whitespace_run false p (c :: t) = Some mt /\
             m_end mt = (p + S (length (take_while isspace t)))%nat.
Proof.
  intros Hc. unfold match_at, whitespace_run.
  cbn [m rep_must andb]. unfold step at 1. cbn [rest pos caps].
  change (set_match NOFLAG false [ISpace] c) with (is_space_set c).
  rewrite is_space_set_eq, Hc.
  change (step (set_match NOFLAG false [ISpace])) with (step is_space_set).
  rewrite greedy_run by (cbn [rest]; lia).
  eexists. split; [reflexivity|]. cbn [m_end advance pos rest].
  rewrite (take_while_ext _ _ t is_space_set_eq). lia.
Qed.

Lemma whitespace_run_not_at (p : nat) (s : str) :
  match s with [] => True | c :: _ => isspace c = false end ->
  match_at NOFLAG whitespace_run false p s = None.
Proof.
  intros H. destruct (match_at _ _ _ _ _) as [mt|] eqn:E; [|reflexivity].
  apply whitespace_run_sound in E as (_ & c & t & -> & Hc). congruence.
Qed.

(** [re.sub(r'\s+', ' ', text)] puts one space for each run. *)
Lemma sub_whitespace_run (s : str) :
  forall p,
    sub_from NOFLAG whitespace_run (py " ") 0 p s = collapse_from false s /\
    sub_from NOFLAG whitespace_run (py " ") (length (take_while isspace s)) p s
    = collapse_from true s.
Proof.
  induction s as [|c t IH]; intros p.
  - cbn [take_while length sub_from collapse_from].
    rewrite whitespace_run_not_at by exact Logic.I. split; reflexivity.
  - assert (H0 : sub_from NOFLAG whitespace_run (py " ") 0 p (c :: t)
                 = collapse_from false (c :: t)).
    { cbn [sub_from collapse_from]. destruct (isspace c) eqn:Hc.
      - destruct (whitespace_run_at p c t Hc) as (mt & -> & He). rewrite He.
        replace (p + S _ =? p)%nat with false by (symmetry; apply Nat.eqb_neq; lia).
        replace (p + S (length (take_while isspace t)) - p - 1)%nat
          with (length (take_while isspace t)) by lia.
        rewrite (proj2 (IH (S p))). reflexivity.
      - rewrite whitespace_run_not_at by exact Hc.
        rewrite (proj1 (IH (S p))). reflexivity. }
    split; [exact H0|].
    cbn [take_while]. destruct (isspace c) eqn:Hc.
    + cbn [length sub_from collapse_from]. rewrite Hc. apply IH.
    + cbn [length]. rewrite H0. cbn [collapse_from]. rewrite Hc. reflexivity.
Qed.

Lemma re_sub_whitespace_run (s : str) :
  re_sub whitespace_run (py " ") s = collapse_from false s.
Proof. apply sub_whitespace_run. Qed.

(** *** From the collapsed text to the words *)

Lemma rstrip_app_nonspace (x : str) (c : char) :
  isspace c = false -> rstrip (x ++ [c]) = x ++ [c].
Proof.
  intros Hc. unfold rstrip. rewrite rev_app_distr. cbn [rev app lstrip]. rewrite Hc.
  change (c :: rev x) with (rev [c] ++ rev x).
  rewrite <- rev_app_distr, rev_involutive. reflexivity.
Qed.

Lemma rstrip_app_space (x : str) (c : char) :
  isspace c = true -> rstrip (x ++ [c]) = rstrip x.
Proof.
  intros Hc. unfold rstrip. rewrite rev_app_distr. cbn [rev app lstrip]. rewrite Hc.
  reflexivity.
Qed.

Lemma rstrip_ends_word (x : str) : ends_word x -> rstrip x = x.
Proof. intros (y & c & -> & Hc). apply rstrip_app_nonspace, Hc. Qed.

Lemma ends_word_app (x y : str) : ends_word y -> ends_word (x ++ y).
Proof.
  intros (z & c & -> & Hc). exists (x ++ z), c. rewrite app_assoc. auto.
Qed.

Lemma ends_word_not_empty (x : str) : ends_word x -> is_empty x = false.
Proof. intros (y & c & -> & _). destruct y; reflexivity. Qed.

Lemma join_cons (w : str) (ws : list str) : join [32] (w :: ws) = w ++ spaced ws.
Proof.
  revert w. induction ws as [|w' ws IH]; intros w.
  - cbn. rewrite app_nil_r. reflexivity.
  - change (join [32] (w :: w' :: ws)) with (w ++ [32] ++ join [32] (w' :: ws)).
    rewrite IH. reflexivity.
Qed.

Lemma words_from_not_nil (s word : str) :
  is_empty word = false -> exists w ws, words_from word s = w :: ws.
Proof.
  revert word. induction s as [|c t IH]; intros word Hw; cbn [words_from].
  - rewrite Hw. eauto.
  - destruct (isspace c).
    + rewrite Hw. eauto.
    + apply IH. destruct word; reflexivity.
Qed.

(** The collapsed text, read in a word and read after a run. *)
Lemma collapse_words (s : str) :
  (forall out word, ends_word word ->
     rstrip (out ++ word ++ collapse_from false s)
     = out ++ join [32] (words_from word s)) /\
  (forall out, ends_word out ->
     rstrip (out ++ 32 :: collapse_from true s)
     = out ++ spaced (words_from [] s)).
Proof.
  induction s as [|c t [IH1 IH2]]; split.
  - intros out word Hw. cbn [collapse_from words_from].
    rewrite (ends_word_not_empty _ Hw), app_nil_r. cbn [join].
    apply rstrip_ends_word, ends_word_app, Hw.
  - intros out Ho. cbn [collapse_from words_from is_empty spaced flat_map].
    rewrite app_nil_r, rstrip_app_space by reflexivity.
    apply rstrip_ends_word, Ho.
  - intros out word Hw. cbn [collapse_from words_from].
    destruct (isspace c) eqn:Hc.
    + rewrite (ends_word_not_empty _ Hw), join_cons.
      rewrite !(app_assoc out). apply IH2, ends_word_app, Hw.
    + replace (out ++ word ++ c :: collapse_from false t)
        with (out ++ (word ++ [c]) ++ collapse_from false t)
        by (rewrite <- (app_assoc word); reflexivity).
      apply IH1. exists word, c. auto.
  - intros out Ho. cbn [collapse_from words_from is_empty].
    destruct (isspace c) eqn:Hc.
    + apply IH2, Ho.
    + cbn [app].
      destruct (words_from_not_nil t [c] eq_refl) as (w & ws & E).
      replace (out ++ 32 :: c :: collapse_from false t)
        with ((out ++ [32]) ++ [c] ++ collapse_from false t)
        by (rewrite <- app_assoc; reflexivity).
      rewrite IH1 by (exists [], c; auto).
      rewrite E. cbn [spaced flat_map]. rewrite join_cons, <- app_assoc. reflexivity.
Qed.

Lemma strip_collapse (s : str) :
  forall in_run, rstrip (lstrip (collapse_from in_run s)) = join [32] (words_from [] s).
Proof.
  induction s as [|c t IH]; intros in_run; [reflexivity|].
  cbn [collapse_from words_from is_empty]. destruct (isspace c) eqn:Hc.
  - destruct in_run; [apply IH|]. cbn [lstrip].
    change (isspace 32) with true. cbn iota. apply IH.
  - cbn [lstrip app]. rewrite Hc.
    apply (proj1 (collapse_words t) [] [c]). exists [], c. auto.
Qed.

Lemma clean_text_words (s : str) : clean_text s = join [32] (words s).
Proof.
  unfold clean_text. destruct s as [|c t]; [reflexivity|]. cbn [is_empty].
  destruct (collapse_no_line_break (c :: t)) as (_ & _ & ->).
  rewrite re_sub_whitespace_run. apply strip_collapse.
Qed.

(** *** The words *)

Lemma solid_app (x y : str) : solid x -> solid y -> solid (x ++ y).
Proof. apply Forall_app_2. Qed.

Lemma words_from_solid (s : str) :
  forall word, solid word ->
    Forall (fun w => w <> [] /\ solid w) (words_from word s).
Proof.
  induction s as [|c t IH]; intros word Hw; cbn [words_from].
  - destruct word as [|a word]; cbn [is_empty]; [constructor|].
    constructor; [|constructor]. split; [discriminate|exact Hw].
  - destruct (isspace c) eqn:Hc.
    + destruct word as [|a word]; cbn [is_empty].
      * apply IH. constructor.
      * constructor; [split; [discriminate|exact Hw]|]. apply IH. constructor.
    + apply IH. apply solid_app; [exact Hw|]. constructor; [exact Hc|constructor].
Qed.

Lemma words_from_app (w : str) :
  solid w -> forall word s, words_from word (w ++ s) = words_from (word ++ w) s.
Proof.
  induction 1 as [|c w Hc _ IH]; intros word s.
  - rewrite app_nil_r. reflexivity.
  - cbn [app words_from]. rewrite Hc, IH, <- app_assoc. reflexivity.
Qed.

Lemma words_join (ws : list str) :
  Forall (fun w => w <> [] /\ solid w) ws -> words (join [32] ws) = ws.
Proof.
  unfold words. induction 1 as [|w ws [Hne Hw] Hws IH]; [reflexivity|].
  destruct ws as [|w' ws'].
  - cbn [join]. pose proof (words_from_app w Hw [] []) as E.
    rewrite app_nil_r in E. rewrite E. cbn [app words_from].
    destruct w; [contradiction|reflexivity].
  - change (join [32] (w :: w' :: ws')) with (w ++ 32 :: join [32] (w' :: ws')).
    rewrite (words_from_app w Hw). cbn [app words_from].
    change (isspace 32) with true. cbn iota.
    destruct w; [contradiction|]. cbn [is_empty]. rewrite IH. reflexivity.
Qed.

Lemma words_nil (s : str) : words s = [] <-> Forall (fun c => isspace c = true) s.
Proof.
  unfold words. induction s as [|c t IH]; cbn [words_from is_empty].
  - split; [constructor|reflexivity].
  - destruct (isspace c) eqn:Hc.
    + rewrite IH. split; [intros H; constructor; assumption|].
      intros H. inversion H. assumption.
    + split.
      * intros H. destruct (words_from_not_nil t [c] eq_refl) as (w & ws & E).
        cbn [app] in H. congruence.
      * intros H. inversion H. congruence.
Qed.

Lemma join_nil (ws : list str) :
  Forall (fun w => w <> [] /\ solid w) ws -> join [32] ws = [] -> ws = [].
Proof.
  intros H E. destruct H as [|w ws [Hne _] _]; [reflexivity|].
  rewrite join_cons in E. destruct w; [contradiction|discriminate].
Qed.

(** X6: [clean_text] gives the words of the text with one space between
    them, as [' '.join(text.split())] does: the words are the longest
    stretches without white space, none of them empty. *)
Theorem clean_text_joins_the_words (s : str) :
  clean_text s = join [32] (words s) /\
  Forall (fun w => w <> [] /\ Forall (fun c => isspace c = false) w) (words s).
Proof.
  split; [apply clean_text_words|]. apply words_from_solid. constructor.
Qed.

(** X7: [clean_text] changes nothing in a text that it has cleaned. *)
Theorem clean_text_idempotent (s : str) : clean_text (clean_text s) = clean_text s.
Proof.
  rewrite !clean_text_words. rewrite words_join; [reflexivity|].
  apply words_from_solid. constructor.
Qed.

Lemma clean_text_empty (s : str) :
  clean_text s = [] <-> Forall (fun c => isspace c = true) s.
Proof.
  rewrite clean_text_words, <- words_nil. split.
  - apply join_nil, words_from_solid. constructor.
  - intros ->. reflexivity.
Qed.

(** ** [process_invoices] *)

Lemma eqb_eq (s t : str) : eqb s t = true <-> s = t.
Proof.
  revert t. induction s as [|a s IH]; intros [|b t]; cbn [eqb];
    try (split; [discriminate|discriminate]); [split; reflexivity|].
  rewrite andb_true_iff, N.eqb_eq, IH. split; [intros [-> ->]; reflexivity|].
  intros [= -> ->]. auto.
Qed.

Lemma detect_invoice_type_tags (text filename : str) :
  detect_invoice_type text filename = py "amazon" \/
  detect_invoice_type text filename = py "flipkart" \/
  detect_invoice_type text filename = py "unknown".
Proof.
  unfold detect_invoice_type.
  repeat match goal with |- context [if ?b then _ else _] => destruct b end; auto.
Qed.

Lemma is_empty_nil (s : str) : is_empty s = true <-> s = [].
Proof. destruct s; split; try reflexivity; discriminate. Qed.

(** The record of one file, when there is one. *)
Lemma process_text_record (full_text filename : str) (record : gmap string pyval) :
  process_text full_text filename = Some record ->
  ~ Forall (fun c => isspace c = true) full_text /\
  well_formed record /\
  record !! "File Name"%string = Some (PStr filename) /\
  ((detect_invoice_type (clean_text full_text) filename = py "amazon" /\
    record = extract_amazon_invoice (clean_text full_text) filename) \/
   (detect_invoice_type (clean_text full_text) filename = py "flipkart" /\
    record = extract_flipkart_invoice (clean_text full_text) filename) \/
   (detect_invoice_type (clean_text full_text) filename = py "unknown" /\
    record !! "Invoice Source"%string = Some (PStr (py "Unknown")) /\
    forall key, key <> "Invoice Source"%string ->
      record !! key = extract_amazon_invoice (clean_text full_text) filename !! key)).
Proof.
  unfold process_text. cbv zeta.
  destruct (is_empty (clean_text full_text)) eqn:He; [discriminate|].
  assert (Hne : ~ Forall (fun c => isspace c = true) full_text).
  { intros H. apply clean_text_empty in H. rewrite H in He. discriminate. }
  destruct (extract_amazon_normal (clean_text full_text) filename) as (da & _ & Ea & Ha).
  destruct (extract_flipkart_normal (clean_text full_text) filename) as (df & _ & Ef & Hf).
  destruct (eqb _ (py "amazon")) eqn:E1.
  { intros [= <-]. apply eqb_eq in E1. split; [exact Hne|].
    split; [rewrite Ea; exact Ha|].
    split; [|left; auto].
    apply (kept_amazon _ filename); [reflexivity|].
    apply amazon_frame; [in_columns|reflexivity]. }
  destruct (eqb _ (py "flipkart")) eqn:E2.
  { intros [= <-]. apply eqb_eq in E2. split; [exact Hne|].
    split; [rewrite Ef; exact Hf|].
    split; [|right; left; auto].
    apply (kept_flipkart _ filename); [reflexivity|].
    apply flipkart_frame; [in_columns|reflexivity]. }
  intros [= <-]. split; [exact Hne|].
  split; [rewrite Ea; apply well_formed_insert; [in_columns|exact Ha]|].
  split.
  { rewrite lookup_insert_ne by discriminate.
    apply (kept_amazon _ filename); [reflexivity|].
    apply amazon_frame; [in_columns|reflexivity]. }
  right; right. split; [|split].
  - destruct (detect_invoice_type_tags (clean_text full_text) filename) as [H|[H|H]];
      [rewrite H in E1; discriminate|rewrite H in E2; discriminate|exact H].
  - apply lookup_insert_eq.
  - intros key Hk. apply lookup_insert_ne. congruence.
Qed.

Lemma process_text_none (full_text filename : str) :
  process_text full_text filename = None ->
  Forall (fun c => isspace c = true) full_text.
Proof.
  unfold process_text. cbv zeta.
  destruct (is_empty (clean_text full_text)) eqn:He.
  - intros _. apply clean_text_empty, is_empty_nil, He.
  - repeat match goal with |- context [if ?b then _ else _] => destruct b end;
      discriminate.
Qed.

(** X8: one file.  A text of white space alone, the empty text among
    them, gives no record, and only such a text.  Any other text gives a
    record with the 21 fields, each a string, and the name of the file
    in "File Name": the record of the Amazon parser or of the Flipkart
    parser for the cleaned text when [detect_invoice_type] says so, and
    otherwise the record of the Amazon parser with "Unknown" in "Invoice
    Source" and nothing else changed. *)
Theorem process_text_cases (full_text filename : str) :
  match process_text full_text filename with
  | None => Forall (fun c => isspace c = true) full_text
  | Some record =>
    ~ Forall (fun c => isspace c = true) full_text /\
    well_formed record /\
    record !! "File Name"%string = Some (PStr filename) /\
    ((detect_invoice_type (clean_text full_text) filename = py "amazon" /\
      record = extract_amazon_invoice (clean_text full_text) filename) \/
     (detect_invoice_type (clean_text full_text) filename = py "flipkart" /\
      record = extract_flipkart_invoice (clean_text full_text) filename) \/
     (detect_invoice_type (clean_text full_text) filename = py "unknown" /\
      record !! "Invoice Source"%string = Some (PStr (py "Unknown")) /\
      forall key, key <> "Invoice Source"%string ->
        record !! key = extract_amazon_invoice (clean_text full_text) filename !! key))
  end.
Proof.
  destruct (process_text full_text filename) as [record|] eqn:E.
  - apply process_text_record, E.
  - eapply process_text_none, E.
Qed.

(** *** The loop over the files *)

Section Files.
Variable read_pages : str -> result (list pyval).

Lemma gives_record_true (filename : str) :
  gives_record read_pages filename = true ->
  exists pages record,
    read_pages filename = Ok pages /\
    process_text (full_text pages) filename = Some record /\
    forall st, process_file read_pages st filename = processed record st.
Proof.
  unfold gives_record, process_file.
  destruct (read_pages filename) as [pages|e]; [|discriminate].
  destruct (process_text (full_text pages) filename) as [record|] eqn:Et; [|discriminate].
  intros _. exists pages, record.
  split; [reflexivity|split; [exact Et|intros st; reflexivity]].
Qed.

Lemma gives_record_false (filename : str) :
  gives_record read_pages filename = false ->
  forall st, process_file read_pages st filename = failed filename st.
Proof.
  unfold gives_record, process_file.
  destruct (read_pages filename) as [pages|e]; [|reflexivity].
  destruct (process_text (full_text pages) filename) as [record|];
    [discriminate|reflexivity].
Qed.

(** The state after some more files. *)
Lemma process_more (files : list str) :
  forall st,
    let st' := fold_left (process_file read_pages) files st in
    processed_files st'
    = (processed_files st + length (List.filter (gives_record read_pages) files))%nat /\
    length (all_invoices st')
    = (length (all_invoices st)
       + length (List.filter (gives_record read_pages) files))%nat /\
    map file_name (all_invoices st')
    = map file_name (all_invoices st)
      ++ map (fun f => Some (PStr f)) (List.filter (gives_record read_pages) files) /\
    failed_files st'
    = failed_files st
      ++ List.filter (fun f => negb (gives_record read_pages f)) files /\
    (Forall well_formed (all_invoices st) -> Forall well_formed (all_invoices st')).
Proof.
  induction files as [|f files IH]; intros st; cbv zeta.
  - cbn [fold_left List.filter length map]. rewrite !app_nil_r.
    repeat split; [lia|lia|auto].
  - cbn [fold_left List.filter]. specialize (IH (process_file read_pages st f)).
    cbv zeta in IH. destruct IH as (H1 & H2 & H3 & H4 & H5).
    destruct (gives_record read_pages f) eqn:Hg.
    + destruct (gives_record_true f Hg) as (pages & record & _ & Ht & E).
      rewrite E in *. cbn [processed processed_files all_invoices failed_files] in *.
      apply process_text_record in Ht as (_ & Hw & Hn & _).
      cbn [negb length map]. rewrite H1, H2, H3, H4.
      rewrite length_app, map_app. cbn [length map].
      change (file_name record) with (record !! "File Name"%string). rewrite Hn.
      rewrite <- app_assoc. cbn [app].
      repeat split; [lia|lia|].
      intros Hall. apply H5. apply Forall_app_2; [exact Hall|].
      constructor; [exact Hw|constructor].
    + rewrite (gives_record_false f Hg) in *.
      cbn [failed processed_files all_invoices failed_files] in *.
      cbn [negb]. rewrite H1, H2, H3, H4, <- app_assoc.
      repeat split. exact H5.
Qed.

Lemma filter_partition_length {A : Type} (f : A -> bool) (l : list A) :
  (length (List.filter f l) + length (List.filter (fun x => negb (f x)) l))%nat
  = length l.
Proof.
  induction l as [|x l IH]; [reflexivity|]. cbn [List.filter].
  destruct (f x); cbn [negb length]; lia.
Qed.

(** X9: the files are accounted for.  Whatever the listing of the
    folder and whatever [pdfplumber] gives for each file, after the loop
    the counter [processed_files] is the number of records; the records
    carry, in the order of the listing, the names of the files that gave
    a record; [failed_files] lists, in that order, the other files, those
    that could not be read or had no text; so each file that was read is
    counted once, as processed or as failed. *)
Theorem files_are_accounted_for (listing : list str) :
  let files := pdf_files listing in
  let st := process_files read_pages files in
  processed_files st = length (all_invoices st) /\
  map file_name (all_invoices st)
  = map (fun f => Some (PStr f)) (List.filter (gives_record read_pages) files) /\
  failed_files st = List.filter (fun f => negb (gives_record read_pages f)) files /\
  (length (all_invoices st) + length (failed_files st))%nat = length files.
Proof.
  cbv zeta. unfold process_files.
  destruct (process_more (pdf_files listing) initial_progress) as (H1 & H2 & H3 & H4 & _).
  cbv zeta in *. cbn [initial_progress processed_files all_invoices failed_files
                      length map app] in *.
  rewrite H1, H2, H3, H4. repeat split.
  apply filter_partition_length.
Qed.



End Files.

(** ** The cleaners and the detector once more *)

(** X11: [clean_currency] changes nothing in an amount that it has
    cleaned, whatever it was given, [None] and the empty string too. *)
Theorem clean_currency_idempotent (amount_str : pyval) :
  clean_currency (PStr (clean_currency amount_str)) = clean_currency amount_str.
Proof.
  destruct amount_str as [|s]; [reflexivity|].
  rewrite (clean_currency_filter s). cbv zeta.
  destruct (List.filter _ s) as [|c t] eqn:E; [reflexivity|]. cbn [is_empty].
  rewrite clean_currency_filter. cbv zeta. rewrite <- E.
  rewrite filter_filter_bool.
  rewrite (filter_ext_bool _ (fun c => isdecimal c || (c =? 46)) s).
  - rewrite E. reflexivity.
  - intros x. apply andb_diag.
Qed.

(** X12: the marker "ASSPL-Amazon" decides nothing.  A text that holds
    it holds "amazon" in lower case, so that [detect_invoice_type]
    answers as the four tests on the lower-case file name and text
    alone do. *)
Theorem marker_decides_nothing (text filename : str) :
  detect_invoice_type text filename =
  (if contains (py "amazon") (lower filename) then py "amazon"
   else if contains (py "flipkart") (lower filename) then py "flipkart"
   else if contains (py "amazon") (lower text) then py "amazon"
   else if contains (py "flipkart") (lower text) then py "flipkart"
   else py "unknown").
Proof.
  unfold detect_invoice_type.
  destruct (contains (py "amazon") (lower text)) eqn:Ea; [reflexivity|].
  destruct (contains (py "ASSPL-Amazon") text) eqn:Em; [|reflexivity].
  exfalso. apply contains_iff in Em as (pre & post & ->).
  assert (H : contains (py "amazon") (lower (pre ++ py "ASSPL-Amazon" ++ post)) = true).
  { apply amazon_iff. exists (pre ++ py "ASSPL-"), (py "Amazon"), post.
    split; [|reflexivity]. rewrite <- app_assoc. reflexivity. }
  congruence.
Qed.

(** *** The four forms of a date *)

Lemma date_pattern_needs_sep (n1 n2 n3 : nat) (sep : char) (s : str) :
  ~ In sep s -> re_search (date_pattern n1 n2 n3 sep) s NOFLAG = None.
Proof.
  intros Hn. destruct (re_search _ _ _) as [mt|] eqn:E; [|reflexivity]. exfalso.
  apply date_pattern_search in E as (w1 & w2 & w3 & pre & post & Hs & _).
  apply Hn. rewrite Hs. apply in_or_app. right. apply in_or_app. right. left. reflexivity.
Qed.

Lemma digit_not_hyphen (x : char) : isdecimal x = true -> x <> 45.
Proof. intros H ->. vm_compute in H. discriminate. Qed.

(** Settles that a separator is not among the code points of a date. *)
Ltac not_in_date HF :=
  let Hin := fresh "Hin" in
  intros Hin; rewrite Forall_forall in HF; simpl in Hin;
  repeat (destruct Hin as [Hin|Hin];
          [ first
              [ discriminate Hin
              | match type of Hin with
                | ?x = _ =>
                  let Hx := fresh "Hx" in
                  assert (Hx : isdecimal x = true) by (apply HF; set_solver);
                  rewrite Hin in Hx; vm_compute in Hx; discriminate Hx
                end ] |]);
  exact Hin.

(** Runs a date pattern on a date of its form. *)
Ltac date_hit :=
  apply search_from_hit; unfold day_first, year_first, match_at;
  unfold date_pattern, digits_group, digit_set;
  repeat (cbn [m rep_must rep_more step rest pos caps Nat.sub set_cap
               lit_match IGNORECASE NOFLAG N.eqb Pos.eqb andb];
          rewrite ?digit_set_match;
          repeat match goal with
                 | H : isdecimal ?x = true |- context [isdecimal ?x] => rewrite H
                 end);
  reflexivity.

Lemma day_first_hit (sep : char) (a b c d e f g h : char) :
  Forall (fun x => isdecimal x = true) [a; b; c; d; e; f; g; h] ->
  exists mt, re_search (date_pattern 2 2 4 sep) (day_first sep a b c d e f g h) NOFLAG
             = Some mt /\
             group_val mt 1 = PStr [a; b] /\ group_val mt 2 = PStr [c; d] /\
             group_val mt 3 = PStr [e; f; g; h].
Proof.
  intros HF.
  repeat match goal with
         | H : Forall _ (_ :: _) |- _ => apply Forall_cons in H as [? H]
         end.
  eexists. split.
  - apply search_from_hit. unfold day_first, match_at.
    unfold date_pattern, digits_group, digit_set.
    repeat (cbn [m rep_must rep_more step rest pos caps Nat.sub set_cap
                 lit_match IGNORECASE NOFLAG andb];
            rewrite ?digit_set_match, ?N.eqb_refl;
            repeat match goal with
                   | H : isdecimal ?x = true |- context [isdecimal ?x] => rewrite H
                   end).
    reflexivity.
  - repeat split.
Qed.

Lemma year_first_hit (a b c d e f g h : char) :
  Forall (fun x => isdecimal x = true) [a; b; c; d; e; f; g; h] ->
  exists mt, re_search (date_pattern 4 2 2 45) (year_first a b c d e f g h) NOFLAG
             = Some mt /\
             group_val mt 1 = PStr [a; b; c; d] /\ group_val mt 2 = PStr [e; f] /\
             group_val mt 3 = PStr [g; h].
Proof.
  intros HF.
  repeat match goal with
         | H : Forall _ (_ :: _) |- _ => apply Forall_cons in H as [? H]
         end.
  eexists. split; [date_hit|repeat split].
Qed.

(** A date written year first is too short for the pattern with the
    year last. *)
Lemma year_first_not_day_first (a b c d e f g h : char) :
  Forall (fun x => isdecimal x = true) [a; b; c; d; e; f; g; h] ->
  re_search (date_pattern 2 2 4 45) (year_first a b c d e f g h) NOFLAG = None.
Proof.
  intros HF. destruct (re_search _ _ _) as [mt|] eqn:E; [|reflexivity]. exfalso.
  apply date_pattern_search in E
    as (w1 & w2 & w3 & pre & post & Hs & L1 & L2 & L3 & _).
  assert (Hl : length (year_first a b c d e f g h) = 10%nat) by reflexivity.
  rewrite Hs in Hl. rewrite !length_app in Hl. cbn [length] in Hl.
  assert (pre = []) as -> by (destruct pre; [reflexivity|simpl in Hl; lia]).
  destruct w1 as [|x1 [|x2 [|? ?]]]; try discriminate L1.
  unfold year_first in Hs. cbn [app] in Hs. injection Hs as _ _ Hc _.
  rewrite Forall_forall in HF.
  apply (digit_not_hyphen c); [apply HF; set_solver|exact Hc].
Qed.

Lemma not_empty_nor_na (x y z : char) (t : str) :
  (x <> 78 \/ y <> 47 \/ z <> 65 \/ t <> []) ->
  is_empty (x :: y :: z :: t) || eqb (x :: y :: z :: t) (py "N/A") = false.
Proof.
  change (py "N/A") with [78; 47; 65]. cbn [is_empty eqb orb]. intros H.
  destruct (x =? 78) eqn:Ex; [|reflexivity].
  destruct (y =? 47) eqn:Ey; [|reflexivity].
  destruct (z =? 65) eqn:Ez; [|reflexivity].
  destruct t; [|reflexivity].
  apply N.eqb_eq in Ex, Ey, Ez. exfalso. intuition congruence.
Qed.

(** X13: the dates of the four forms.  For digits a to h, the dates
    ab.cd.efgh, ab/cd/efgh and ab-cd-efgh all become ab/cd/efgh, and the
    date abcd-ef-gh, year first, becomes gh/ef/abcd. *)
Theorem standardize_date_of_the_four_forms (a b c d e f g h : char) :
  Forall (fun x => isdecimal x = true) [a; b; c; d; e; f; g; h] ->
  standardize_date (day_first 46 a b c d e f g h) = Ok (day_first 47 a b c d e f g h) /\
  standardize_date (day_first 47 a b c d e f g h) = Ok (day_first 47 a b c d e f g h) /\
  standardize_date (day_first 45 a b c d e f g h) = Ok (day_first 47 a b c d e f g h) /\
  standardize_date (year_first a b c d e f g h) = Ok (day_first 47 g h e f a b c d).
Proof.
  intros HF.
  assert (Hno : forall sep s, ~ In sep s ->
                  re_search (date_pattern 2 2 4 sep) s NOFLAG = None)
    by (intros; apply date_pattern_needs_sep; assumption).
  unfold standardize_date. rewrite date_patterns_eq.
  repeat split.
  - unfold day_first at 1 2.
    rewrite not_empty_nor_na by (right; right; left; discriminate).
    cbn [standardize_with]. fold (day_first 46 a b c d e f g h).
    destruct (day_first_hit 46 _ _ _ _ _ _ _ _ HF) as (mt & -> & -> & -> & ->).
    reflexivity.
  - unfold day_first at 1 2.
    rewrite not_empty_nor_na by (right; right; right; discriminate).
    cbn [standardize_with]. fold (day_first 47 a b c d e f g h).
    rewrite (Hno 46) by (unfold day_first; not_in_date HF).
    destruct (day_first_hit 47 _ _ _ _ _ _ _ _ HF) as (mt & -> & -> & -> & ->).
    reflexivity.
  - unfold day_first at 1 2.
    rewrite not_empty_nor_na by (right; right; left; discriminate).
    cbn [standardize_with]. fold (day_first 45 a b c d e f g h).
    rewrite (Hno 46) by (unfold day_first; not_in_date HF).
    rewrite (Hno 47) by (unfold day_first; not_in_date HF).
    destruct (day_first_hit 45 _ _ _ _ _ _ _ _ HF) as (mt & -> & -> & -> & ->).
    reflexivity.
  - unfold year_first at 1 2.
    rewrite not_empty_nor_na by (right; right; right; discriminate).
    cbn [standardize_with]. fold (year_first a b c d e f g h).
    rewrite (Hno 46) by (unfold year_first; not_in_date HF).
    rewrite (Hno 47) by (unfold year_first; not_in_date HF).
    rewrite (year_first_not_day_first _ _ _ _ _ _ _ _ HF).
    destruct (year_first_hit _ _ _ _ _ _ _ _ HF) as (mt & -> & -> & -> & ->).
    reflexivity.
Qed.

Lemma standardize_date_of_the_four_forms_witness :
  Forall (fun x => isdecimal x = true) [48; 49; 48; 50; 50; 48; 50; 51] /\
  standardize_date (py "01.02.2023") = Ok (py "01/02/2023") /\
  standardize_date (py "01/02/2023") = Ok (py "01/02/2023") /\
  standardize_date (py "01-02-2023") = Ok (py "01/02/2023") /\
  standardize_date (py "0102-20-23") = Ok (py "23/20/0102").
Proof.
  assert (HF : Forall (fun x => isdecimal x = true) [48; 49; 48; 50; 50; 48; 50; 51])
    by (repeat constructor).
  split; [exact HF|].
  exact (standardize_date_of_the_four_forms 48 49 48 50 50 48 50 51 HF).
Defined.

(** A match of a date pattern takes ten code points at least. *)
Lemma date_pattern_length (n1 n2 n3 : nat) (sep : char) (s : str) (mt : rmatch) :
  re_search (date_pattern n1 n2 n3 sep) s NOFLAG = Some mt ->
  (n1 + n2 + n3 + 2 <= length s)%nat.
Proof.
  intros H. apply date_pattern_search in H
    as (w1 & w2 & w3 & pre & post & -> & L1 & L2 & L3 & _).
  rewrite !length_app. cbn [length]. lia.
Qed.

(** X14: the lenient fallback.  A string of fewer than ten code points
    that is not empty comes back from [standardize_date] as it is, "N/A"
    among them: no pattern can match it. *)
Theorem standardize_date_keeps_short_strings (date_str : str) :
  date_str <> [] -> (length date_str < 10)%nat ->
  standardize_date date_str = Ok date_str.
Proof.
  intros Hne Hl. unfold standardize_date.
  destruct date_str as [|c t]; [contradiction|]. cbn [is_empty orb].
  destruct (eqb (c :: t) (py "N/A")) eqn:E.
  { apply eqb_eq in E. rewrite E. reflexivity. }
  rewrite date_patterns_eq. cbn [standardize_with].
  repeat match goal with
         | |- context [re_search (date_pattern ?a ?b ?d ?sep) ?s NOFLAG] =>
           let Es := fresh "Es" in
           destruct (re_search (date_pattern a b d sep) s NOFLAG) eqn:Es;
           [apply date_pattern_length in Es; lia|]
         end.
  reflexivity.
Qed.

Lemma standardize_date_keeps_short_strings_witness :
  py "1/2/2023" <> [] /\ (length (py "1/2/2023") < 10)%nat /\
  standardize_date (py "1/2/2023") = Ok (py "1/2/2023").
Proof.
  assert (Hne : py "1/2/2023" <> []) by discriminate.
  assert (Hl : (length (py "1/2/2023") < 10)%nat) by (vm_compute; lia).
  split; [exact Hne|]. split; [exact Hl|].
  exact (standardize_date_keeps_short_strings (py "1/2/2023") Hne Hl).
Defined.

(** ** The parsers on a cleaned text *)

(** [process_invoices] gives the parsers the text that [clean_text]
    returns: one line, with single spaces. *)

Lemma clean_text_spaces (s : str) :
  Forall (fun c => isspace c = true -> c = 32) (clean_text s).
Proof.
  unfold clean_text. destruct s as [|a s]; [constructor|]. cbn [is_empty].
  destruct (collapse_no_line_break (a :: s)) as (_ & _ & ->).
  apply Forall_forall. intros x Hx. apply list_elem_of_In, strip_in in Hx.
  pose proof (collapse_only_spaces (a :: s) 0 0) as H.
  rewrite Forall_forall in H. apply H, list_elem_of_In, Hx.
Qed.

Lemma clean_text_no_line_feed (s : str) : ~ In 10 (clean_text s).
Proof.
  intros Hin. pose proof (clean_text_spaces s) as H. rewrite Forall_forall in H.
  apply list_elem_of_In in Hin. specialize (H 10 Hin eq_refl). discriminate.
Qed.

Lemma clean_text_head (s : str) (c : char) (t : str) :
  clean_text s = c :: t -> isspace c = false.
Proof.
  unfold clean_text. destruct s as [|a s]; [discriminate|]. cbn [is_empty].
  apply strip_head.
Qed.

(** *** The product name of the Amazon parser *)

(** What [^\s*1\s+] finds: a "1" after white space from the start of
    the line, and white space after it. *)
Lemma item_number_sound (line : str) (mt : rmatch) :
  re_search Amazon.item_number line NOFLAG = Some mt ->
  exists w0 x w1 post,
    line = w0 ++ 49 :: x :: w1 ++ post /\
    Forall (fun c => isspace c = true) w0 /\ isspace x = true.
Proof.
  intros H. apply search_from_sound in H as (pre & suf & st' & -> & Hd & _).
  unfold Amazon.item_number in Hd. cbn [den] in Hd.
  destruct Hd as (s1 & [Hp ->] & s2 & (n0 & _ & _ & H0) & s3 & H1 & s4
                  & (n1 & Hn1 & _ & H2) & ->).
  cbn [pos] in Hp. assert (pre = []) as -> by (destruct pre; [reflexivity|discriminate]).
  apply pow_one_word in H0 as (w0 & _ & F0 & R0 & _).
  apply lit_den in H1 as (R1 & _).
  apply pow_one_word in H2 as (w1 & L1 & F1 & R2 & _).
  cbn [rest] in R0. cbn [app].
  destruct w1 as [|x w1]; [simpl in L1; lia|].
  exists w0, x, w1, (rest s4). rewrite R0, R1, R2. split; [reflexivity|].
  split.
  - eapply Forall_impl; [exact F0|]. intros c Hc. rewrite <- is_space_set_eq. exact Hc.
  - apply Forall_cons in F1 as [Hx _]. rewrite <- is_space_set_eq. exact Hx.
Qed.

Lemma item_number_hit (post : str) :
  matched (re_search Amazon.item_number (49 :: 32 :: post) NOFLAG) = true.
Proof.
  unfold re_search.
  assert (H : match_at NOFLAG Amazon.item_number false 0 (49 :: 32 :: post) <> None).
  { unfold match_at, Amazon.item_number.
    cbn [m rep_must rep_more rest pos caps length Nat.eqb andb].
    unfold step at 1. cbn [rest].
    change (set_match NOFLAG false [ISpace] 49) with false. cbn iota.
    unfold step at 1. cbn [rest pos caps].
    change (lit_match NOFLAG 49 49) with true. cbn iota.
    unfold step at 1. cbn [rest pos caps].
    change (set_match NOFLAG false [ISpace] 32) with true. cbn iota.
    match goal with
    | |- context [rep_more ?ma ?g ?k ?f ?s0] =>
      assert (H : rep_more ma g k f s0 <> None)
        by (apply rep_more_total; intros s1; discriminate);
      destruct (rep_more ma g k f s0); [discriminate|contradiction]
    end. }
  destruct (match_at _ _ _ _ _) as [mt|] eqn:E; [|contradiction].
  rewrite (search_from_hit _ _ _ _ _ E). reflexivity.
Qed.

Lemma item_number_of_a_cleaned_text (s : str) :
  matched (re_search Amazon.item_number (clean_text s) NOFLAG)
  = startswith (clean_text s) (py "1 ").
Proof.
  destruct (startswith (clean_text s) (py "1 ")) eqn:Es.
  - apply startswith_iff in Es as [post ->]. apply item_number_hit.
  - destruct (re_search _ _ _) as [mt|] eqn:E; [|reflexivity]. exfalso.
    apply item_number_sound in E as (w0 & x & w1 & post & Ht & F0 & Hx).
    destruct w0 as [|c w0].
    + cbn [app] in Ht.
      pose proof (clean_text_spaces s) as H. rewrite Ht in H.
      apply Forall_cons in H as [_ H]. apply Forall_cons in H as [H _].
      specialize (H Hx). subst x.
      assert (Hs : startswith (clean_text s) (py "1 ") = true)
        by (apply startswith_iff; exists (w1 ++ post); rewrite Ht; reflexivity).
      congruence.
    + apply Forall_cons in F0 as [Hc _].
      pose proof (clean_text_head s c _ Ht). congruence.
Qed.

(** X15: the product name of a cleaned text.  The text that
    [process_invoices] hands to the Amazon parser is one line, and the
    parser looks for the item number at the start of a line: so the
    product name is "N/A" unless the whole text begins with "1 ", and is
    then the text after it without the price information, cut to 200
    code points; no line follows that could be appended. *)
Theorem amazon_product_of_a_cleaned_text (full_text filename : str) :
  let text := clean_text full_text in
  extract_amazon_invoice text filename !! "Product Name"%string
  = Some (PStr (if startswith text (py "1 ")
                then take 200 (strip (re_sub Amazon.price_information []
                                        (re_sub Amazon.item_number [] text)))
                else py "N/A")).
Proof.
  cbv zeta. amazon_field.
  rewrite (split_absent _ 10 (clean_text_no_line_feed full_text)).
  cbn [Field.amazon_product]. rewrite item_number_of_a_cleaned_text.
  destruct (startswith _ _); reflexivity.
Qed.

(** *** The product patterns of the Flipkart parser *)

Lemma lookup_run_image (bound : N) (runs : list (N * N * N * N)) :
  forallb (fun '(_, _, _, img) => bound <=? img) runs = true ->
  forall x, lookup_run x runs = x \/ bound <= lookup_run x runs.
Proof.
  induction runs as [|[[[lo hi] stride] img] runs IH]; cbn [forallb lookup_run];
    intros H x; [left; reflexivity|].
  apply andb_true_iff in H as [Hb H].
  destruct (_ && _ && _); [|apply IH, H].
  right. apply N.leb_le in Hb. lia.
Qed.

(** Only a letter is the lower case of another code point. *)
Lemma tolower_image (x : char) : tolower x = x \/ 97 <= tolower x.
Proof. apply lookup_run_image. vm_compute. reflexivity. Qed.

(** A line feed in a pattern matches a line feed alone, whatever the
    flags. *)
Lemma lit_match_line_feed (fl : flags) (x : char) : lit_match fl 10 x = true -> x = 10.
Proof.
  unfold lit_match. destruct (IGNORECASE fl).
  - change (fold_set 10) with [10]. unfold mem. cbn [existsb]. rewrite orb_false_r.
    intros H. apply N.eqb_eq in H. destruct (tolower_image x) as [E|E]; [congruence|lia].
  - apply N.eqb_eq.
Qed.

Lemma accepts_needs (fl : flags) (c : char) (r : regex) :
  needs c r = true ->
  forall w tail, accepts fl r w tail -> exists x, In x w /\ lit_match fl c x = true.
Proof.
  induction r as [| c' | | neg items | a IHa b IHb | a IHa b IHb
                 | lo hi greedy a IHa | i a IHa | a IHa | | ];
    cbn [needs accepts]; intros Hn w tail H; try discriminate.
  - destruct H as (x & -> & Hx). apply N.eqb_eq in Hn. subst c'.
    exists x. split; [left; reflexivity|exact Hx].
  - destruct H as (w1 & w2 & -> & H1 & H2).
    apply orb_true_iff in Hn as [Hn|Hn].
    + destruct (IHa Hn _ _ H1) as (x & Hx & Hm). exists x.
      split; [apply in_or_app; left; exact Hx|exact Hm].
    + destruct (IHb Hn _ _ H2) as (x & Hx & Hm). exists x.
      split; [apply in_or_app; right; exact Hx|exact Hm].
  - apply andb_true_iff in Hn as [Ha Hb]. destruct H as [H|H]; eauto.
  - apply andb_true_iff in Hn as [Hlo Hn]. apply Nat.ltb_lt in Hlo.
    destruct H as (ws & -> & Hl & _ & Hc).
    destruct ws as [|w1 ws]; [simpl in Hl; lia|].
    destruct Hc as [H1 _]. destruct (IHa Hn _ _ H1) as (x & Hx & Hm).
    exists x. split; [|exact Hm]. cbn [concat]. apply in_or_app. left. exact Hx.
  - eauto.
Qed.

(** A pattern that needs a line feed finds nothing in a text without
    one. *)
Lemma needs_line_feed (fl : flags) (r : regex) (text : str) :
  no_bol r = true -> needs 10 r = true -> ~ In 10 text -> re_search r text fl = None.
Proof.
  intros Hb Hn Ht. destruct (re_search r text fl) as [mt|] eqn:E; [|reflexivity].
  exfalso. apply search_from_sound in E as (pre & suf & st' & -> & Hd & _).
  apply (den_accepts fl r Hb) in Hd as (w & Ha & Hw).
  destruct (accepts_needs fl 10 r Hn _ _ Hw) as (x & Hx & Hm).
  apply lit_match_line_feed in Hm. subst x.
  destruct Ha as (Hr & _). cbn [rest] in Hr.
  apply Ht. apply in_or_app. right. rewrite Hr. apply in_or_app. left. exact Hx.
Qed.

(** X16: the product patterns of a cleaned text.  Three of the four
    product patterns of the Flipkart parser need a line feed, and the
    text that [process_invoices] hands to the parser has none: they find
    nothing, and the product name is that of the third pattern, the text
    before "HSN", or "N/A". *)
Theorem flipkart_product_of_a_cleaned_text (full_text filename : str) :
  let text := clean_text full_text in
  let pattern i := nth i Flipkart.product_patterns RFail in
  Forall (fun p => re_search p text I_DOTALL = None) [pattern 0; pattern 1; pattern 3]%nat /\
  extract_flipkart_invoice text filename !! "Product Name"%string
  = Some (Field.flipkart_product [pattern 2%nat] text (PStr (py "N/A"))).
Proof.
  cbv zeta.
  assert (H : Forall (fun p => re_search p (clean_text full_text) I_DOTALL = None)
                [nth 0 Flipkart.product_patterns RFail;
                 nth 1 Flipkart.product_patterns RFail;
                 nth 3 Flipkart.product_patterns RFail]).
  { repeat (apply Forall_cons; split;
            [apply needs_line_feed;
             [reflexivity|reflexivity|apply clean_text_no_line_feed]|]).
    apply List.Forall_nil. }
  split; [exact H|].
  flipkart_field.
  apply Forall_cons in H as [H0 H]. apply Forall_cons in H as [H1 H].
  apply Forall_cons in H as [H3 _].
  unfold Flipkart.product_patterns in *. cbn [nth] in *.
  cbn [Field.flipkart_product]. rewrite H0, H1, H3. reflexivity.
Qed.

(** ** The pages of a file *)

Lemma words_from_end (word : str) :
  words_from word [] = if is_empty word then [] else [word].
Proof. reflexivity. Qed.

(** White space between two texts separates their words. *)
Lemma words_from_separated (c : char) (b : str) :
  isspace c = true ->
  forall a word, words_from word (a ++ c :: b) = words_from word a ++ words b.
Proof.
  intros Hc. induction a as [|x a IH]; intros word.
  - cbn [app words_from]. rewrite Hc. destruct (is_empty word); reflexivity.
  - cbn [app words_from]. destruct (isspace x).
    + rewrite IH. destruct (is_empty word); reflexivity.
    + apply IH.
Qed.

Lemma words_of_lines (parts : list str) :
  words (join [10] parts) = flat_map words parts.
Proof.
  induction parts as [|p parts IH]; [reflexivity|].
  destruct parts as [|q parts].
  - cbn [join flat_map]. rewrite app_nil_r. reflexivity.
  - change (join [10] (p :: q :: parts)) with (p ++ 10 :: join [10] (q :: parts)).
    unfold words at 1. rewrite words_from_separated by reflexivity.
    rewrite IH. reflexivity.
Qed.

Lemma words_of_pages (pages : list pyval) :
  words (full_text pages) = flat_map page_words pages.
Proof.
  unfold full_text. cbv zeta. rewrite words_of_lines.
  induction pages as [|page pages IH]; [reflexivity|].
  cbn [flat_map]. rewrite flat_map_app, IH. f_equal.
  destruct page as [|s]; [reflexivity|]. cbn [falsy page_words].
  destruct s; [reflexivity|]. cbn [is_empty flat_map str_of]. apply app_nil_r.
Qed.

(** X17: the text of a file.  The text that the parsers get for a file
    is the words of its pages, in order, with one space between them: a
    page break separates words as white space does, and a page without
    text, for which [extract_text] gave [None] or the empty string, adds
    nothing. *)
Theorem cleaned_text_of_the_pages (pages : list pyval) :
  clean_text (full_text pages) = join [32] (flat_map page_words pages).
Proof. rewrite clean_text_words, words_of_pages. reflexivity. Qed.

(** ** What the groups hold *)

(** *** Lower case, digits and white space *)

Lemma apart_spec (lo hi : N) (ranges : list (N * N)) (y : N) :
  apart lo hi ranges = true -> lo <= y <= hi -> existsb (in_range y) ranges = false.
Proof.
  unfold apart. induction ranges as [|[a b] ranges IH]; cbn [forallb existsb];
    intros H Hy; [reflexivity|].
  apply andb_true_iff in H as [Hab H]. rewrite (IH H Hy), orb_false_r.
  unfold in_range. cbn [fst snd].
  apply orb_true_iff in Hab as [Hab|Hab]; apply N.ltb_lt in Hab.
  - apply andb_false_iff. right. apply N.leb_gt. lia.
  - apply andb_false_iff. left. apply N.leb_gt. lia.
Qed.

(** A code point that the table of lower cases changes lies in a run,
    and so does its image. *)
Lemma lookup_run_cases (runs : list (N * N * N * N)) (x : char) :
  lookup_run x runs = x \/
  exists lo hi stride img,
    In (lo, hi, stride, img) runs /\ lo <= x <= hi /\
    img <= lookup_run x runs <= img + (hi - lo).
Proof.
  induction runs as [|[[[lo hi] stride] img] runs IH]; cbn [lookup_run];
    [left; reflexivity|].
  destruct (_ && _ && _) eqn:E.
  - right. apply andb_true_iff in E as [E _]. apply andb_true_iff in E as [E1 E2].
    apply N.leb_le in E1, E2.
    exists lo, hi, stride, img. split; [left; reflexivity|]. lia.
  - destruct IH as [IH|(lo' & hi' & s' & i' & Hin & H)]; [left; exact IH|].
    right. exists lo', hi', s', i'. split; [right; exact Hin|exact H].
Qed.

(** No lower case of another code point is a decimal digit. *)
Lemma tolower_decimal (x : char) : isdecimal (tolower x) = true -> tolower x = x.
Proof.
  intros H. destruct (lookup_run_cases lower_runs x) as [E|(lo & hi & s & i & Hin & _ & Hy)];
    [exact E|]. exfalso.
  assert (Hc : forallb (fun '(lo, hi, _, img) => apart img (img + (hi - lo)) decimal_ranges)
                       lower_runs = true) by (vm_compute; reflexivity).
  rewrite forallb_forall in Hc. specialize (Hc _ Hin). cbn beta iota in Hc.
  unfold isdecimal, tolower in H. rewrite (apart_spec _ _ _ _ Hc Hy) in H. discriminate.
Qed.

(** The table of lower cases changes no white space. *)
Lemma tolower_space (x : char) : isspace x = true -> tolower x = x.
Proof.
  intros H. destruct (lookup_run_cases lower_runs x) as [E|(lo & hi & s & i & Hin & Hx & _)];
    [exact E|]. exfalso.
  assert (Hc : forallb (fun '(lo, hi, _, _) =>
                          apart lo hi
                            [(9, 13); (28, 32); (133, 133); (160, 160); (5760, 5760);
                             (8192, 8202); (8232, 8233); (8239, 8239); (8287, 8287);
                             (12288, 12288)])
                       lower_runs = true) by (vm_compute; reflexivity).
  rewrite forallb_forall in Hc. specialize (Hc _ Hin). cbn beta iota in Hc.
  unfold isspace in H. rewrite (apart_spec _ _ _ _ Hc Hx) in H. discriminate.
Qed.

(** The class [\d], whatever the flags. *)
Lemma digit_class (fl : flags) (x : char) :
  set_match fl false [IDigit] x = true -> isdecimal x = true.
Proof.
  unfold set_match. cbn [existsb item_match xorb]. rewrite orb_false_r.
  destruct (IGNORECASE fl); [|auto].
  intros H. rewrite <- (tolower_decimal x H). exact H.
Qed.

(** *** From the pattern to the group *)

Section Groups.
Variable fl : flags.

Lemma den_consumes (Q : char -> Prop) (r : regex) :
  consumes fl Q r ->
  forall st st', den fl r st st' ->
    exists w, ahead st st' w /\ Forall Q w /\ (min_len r <= length w)%nat.
Proof.
  induction r as [| c | | neg items | a IHa b IHb | a IHa b IHb
                 | lo hi greedy a IHa | i a IHa | a IHa | | ];
    cbn [consumes den min_len]; intros HQ st st' H.
  - subst. exists []. split; [apply ahead_refl|]. split; [constructor|simpl; lia].
  - destruct (one_ahead _ _ _ H) as (x & Hx & Ha). exists [x].
    split; [exact Ha|]. split; [constructor; [apply HQ, Hx|constructor]|simpl; lia].
  - destruct (one_ahead _ _ _ H) as (x & Hx & Ha). exists [x].
    split; [exact Ha|]. split; [constructor; [apply HQ, Hx|constructor]|simpl; lia].
  - destruct (one_ahead _ _ _ H) as (x & Hx & Ha). exists [x].
    split; [exact Ha|]. split; [constructor; [apply HQ, Hx|constructor]|simpl; lia].
  - destruct HQ as [Ha Hb]. destruct H as (st1 & H1 & H2).
    destruct (IHa Ha _ _ H1) as (w1 & A1 & F1 & L1).
    destruct (IHb Hb _ _ H2) as (w2 & A2 & F2 & L2).
    exists (w1 ++ w2). split; [eapply ahead_trans; eauto|].
    split; [apply Forall_app; auto|rewrite length_app; lia].
  - destruct HQ as [Ha Hb]. destruct H as [H|H].
    + destruct (IHa Ha _ _ H) as (w & A & F & L). exists w.
      split; [exact A|]. split; [exact F|].
      etransitivity; [apply Nat.le_min_l|exact L].
    + destruct (IHb Hb _ _ H) as (w & A & F & L). exists w.
      split; [exact A|]. split; [exact F|].
      etransitivity; [apply Nat.le_min_r|exact L].
  - destruct H as (n & Hn & _ & H).
    assert (Hp : forall n st st', pow (den fl a) n st st' ->
               exists w, ahead st st' w /\ Forall Q w /\ (n * min_len a <= length w)%nat).
    { clear - IHa HQ. induction n as [|n IHn]; cbn [pow]; intros st st' H.
      - subst. exists []. split; [apply ahead_refl|]. split; [constructor|simpl; lia].
      - destruct H as (st1 & H1 & H2).
        destruct (IHa HQ _ _ H1) as (w1 & A1 & F1 & L1).
        destruct (IHn _ _ H2) as (w2 & A2 & F2 & L2).
        exists (w1 ++ w2). split; [eapply ahead_trans; eauto|].
        split; [apply Forall_app; auto|rewrite length_app; simpl; lia]. }
    destruct (Hp _ _ _ H) as (w & A & F & L). exists w.
    split; [exact A|]. split; [exact F|].
    etransitivity; [apply Nat.mul_le_mono_r, Hn|exact L].
  - destruct H as (st1 & H1 & ->).
    destruct (IHa HQ _ _ H1) as (w & A & F & L). exists w.
    split; [|split; assumption]. destruct A as [Hr Hp]. split; assumption.
  - destruct H as (st1 & _ & ->). exists [].
    split; [split; simpl; [reflexivity|lia]|]. split; [constructor|simpl; lia].
  - destruct H as [_ ->]. exists []. split; [apply ahead_refl|].
    split; [constructor|simpl; lia].
  - destruct H as [_ ->]. exists []. split; [apply ahead_refl|].
    split; [constructor|simpl; lia].
Qed.

Lemma den_captures (i n : nat) (Q : char -> Prop) (r : regex) :
  captures fl i n Q r ->
  forall st st', den fl r st st' -> holds_group i n Q st -> holds_group i n Q st'.
Proof.
  induction r as [| c | | neg items | a IHa b IHb | a IHa b IHb
                 | lo hi greedy a IHa | j a IHa | a IHa | | ];
    cbn [captures den]; intros HQ st st' H Hs.
  - subst. exact Hs.
  - destruct H as (x & _ & _ & _ & Hc). unfold holds_group. rewrite Hc. exact Hs.
  - destruct H as (x & _ & _ & _ & Hc). unfold holds_group. rewrite Hc. exact Hs.
  - destruct H as (x & _ & _ & _ & Hc). unfold holds_group. rewrite Hc. exact Hs.
  - destruct HQ as [Ha Hb]. destruct H as (st1 & H1 & H2). eauto.
  - destruct HQ as [Ha Hb]. destruct H as [H|H]; eauto.
  - destruct H as (k & _ & _ & H).
    refine (pow_ind_rel _ (fun s s' => holds_group i n Q s -> holds_group i n Q s')
                        _ _ _ _ _ H Hs).
    + auto.
    + intros s s1 s' H1 H2 Hi. apply H2. eapply IHa; eauto.
  - destruct HQ as [Hj Ha]. destruct H as (st1 & H1 & ->).
    pose proof (IHa Ha _ _ H1 Hs) as Hs1.
    intros g. unfold set_cap. cbn [caps assoc].
    destruct (i =? j)%nat eqn:E; [|apply Hs1].
    intros [= <-]. destruct Hj as [Hn Hc].
    destruct (den_consumes Q a Hc _ _ H1) as (w & [Hr Hp] & F & L).
    replace (pos st1 - pos st)%nat with (length w) by lia.
    rewrite Hr, take_app_length. split; [lia|exact F].
  - destruct H as (st1 & H1 & ->). intros g. cbn [caps]. eapply IHa; eauto.
  - destruct H as [_ ->]. exact Hs.
  - destruct H as [_ ->]. exact Hs.
Qed.

(** What a search has put in group [i]. *)
Lemma search_captures (i n : nat) (Q : char -> Prop) (r : regex) (s : str) (mt : rmatch) :
  captures fl i n Q r -> re_search r s fl = Some mt ->
  forall g, group mt i = Some g -> (n <= length g)%nat /\ Forall Q g.
Proof.
  intros HQ H. apply search_from_sound in H as (pre & suf & st' & -> & Hd & ->).
  unfold group. cbn [m_groups].
  apply (den_captures i n Q r HQ _ _ Hd). intros g. cbn [caps assoc]. discriminate.
Qed.

End Groups.

(** *** Numbers *)

Lemma not_nil_of_length {A : Type} (l : list A) : (1 <= length l)%nat -> l <> [].
Proof. destruct l; simpl; [lia|discriminate]. Qed.

Lemma period_class (x : char) : lit_match NOFLAG 46 x = true -> x = 46.
Proof. apply N.eqb_eq. Qed.

(** Settles [captures] for a pattern written out. *)
Ltac group_holds :=
  cbn [captures consumes min_len Nat.eqb Nat.mul Nat.add Nat.min];
  repeat match goal with |- _ /\ _ => split end;
  first
    [ exact Logic.I
    | lia
    | intros ? ?; first [ eapply digit_class; eassumption
                        | left; eapply digit_class; eassumption
                        | right; apply period_class; assumption ] ].

Lemma quantity_is_number (fl : flags) (r : regex) (text : str) :
  binds 1 r = true -> captures fl 1 1 (fun c => isdecimal c = true) r ->
  is_number (Some (Field.quantity (re_search r text fl) (PStr (py "1")))).
Proof.
  intros Hb Hc. destruct (re_search r text fl) as [mt|] eqn:E; cbn [Field.quantity].
  - destruct (search_binds fl 1 r text mt Hb E) as [g Hg].
    destruct (search_captures fl 1 1 _ r text mt Hc E g Hg) as [Hl HF].
    unfold group_val. rewrite Hg. exists g.
    split; [reflexivity|]. split; [apply not_nil_of_length, Hl|exact HF].
  - exists (py "1"). split; [reflexivity|]. split; [discriminate|].
    repeat constructor.
Qed.

Lemma tax_rate_is_rate (Q : char -> Prop) (r : regex) (text : str) :
  binds 1 r = true -> captures NOFLAG 1 1 Q r ->
  is_rate Q (Some (Field.tax_rate (re_search r text NOFLAG) (PStr (py "N/A")))).
Proof.
  intros Hb Hc. destruct (re_search r text NOFLAG) as [mt|] eqn:E; cbn [Field.tax_rate].
  - right. destruct (search_binds NOFLAG 1 r text mt Hb E) as [g Hg].
    destruct (search_captures NOFLAG 1 1 Q r text mt Hc E g Hg) as [Hl HF].
    unfold group_val. rewrite Hg. exists g.
    split; [reflexivity|]. split; [apply not_nil_of_length, Hl|exact HF].
  - left. reflexivity.
Qed.

(** X18: the quantity and the tax rate.  Whatever the text, "Quantity"
    in the record of either parser is a non-empty string of decimal
    digits, "1" when nothing was found; and "Tax Rate" is "N/A" or a
    non-empty string followed by "%", of decimal digits for Amazon and
    of decimal digits and periods for Flipkart. *)
Theorem quantity_and_tax_rate (text filename : str) :
  is_number (extract_amazon_invoice text filename !! "Quantity"%string) /\
  is_rate (fun c => isdecimal c = true)
          (extract_amazon_invoice text filename !! "Tax Rate"%string) /\
  is_number (extract_flipkart_invoice text filename !! "Quantity"%string) /\
  is_rate (fun c => isdecimal c = true \/ c = 46)
          (extract_flipkart_invoice text filename !! "Tax Rate"%string).
Proof.
  repeat split.
  - amazon_field. apply quantity_is_number; [reflexivity|].
    unfold Amazon.qty_pattern. group_holds.
  - amazon_field. apply tax_rate_is_rate; [reflexivity|].
    unfold Amazon.tax_rate_pattern. group_holds.
  - flipkart_field. apply quantity_is_number; [reflexivity|].
    unfold Flipkart.qty_pattern. group_holds.
  - flipkart_field. apply tax_rate_is_rate; [reflexivity|].
    unfold Flipkart.tax_rate_pattern. group_holds.
Qed.

(** *** Classes of plain characters *)

Lemma lit_match_caseless (fl : flags) (c x : char) :
  caseless c -> lit_match fl c x = true -> x = c.
Proof.
  intros [Hc Hf]. unfold lit_match. destruct (IGNORECASE fl); [|apply N.eqb_eq].
  rewrite Hf. unfold mem. cbn [existsb]. rewrite orb_false_r. intros H.
  apply N.eqb_eq in H. destruct (tolower_image x) as [E|E]; [congruence|lia].
Qed.

Lemma in_range_list (lo hi c : N) : In c (range lo hi) -> lo <= c <= hi.
Proof.
  unfold range. intros H. apply in_map_iff in H as (n & <- & Hn).
  apply in_seq in Hn. lia.
Qed.

Lemma class_holds (fl : flags) (items : list citem) (x : char) :
  Forall plain_item items -> set_match fl false items x = true ->
  Exists (fun it => in_item it x) items.
Proof.
  unfold set_match. cbn [xorb]. induction 1 as [|it items Hp _ IH]; cbn [existsb];
    [discriminate|].
  intros H. apply orb_true_iff in H as [H|H]; [|right; apply IH, H]. left.
  destruct it as [c|lo hi| |]; cbn [item_match plain_item in_item] in *.
  - eapply lit_match_caseless; eassumption.
  - destruct (IGNORECASE fl).
    + apply existsb_exists in H as (c & Hin & Hm).
      rewrite Forall_forall in Hp.
      apply (lit_match_caseless fl c x) in Hm; [|apply Hp, list_elem_of_In, Hin].
      subst c. apply in_range_list, Hin.
    + apply andb_true_iff in H as [H1 H2]. apply N.leb_le in H1, H2. lia.
  - destruct (IGNORECASE fl); [|exact H]. rewrite <- (tolower_decimal x H). exact H.
  - contradiction.
Qed.

(** The digits, the hyphen, the period and the slash have no other
    case. *)
Lemma caseless_45_to_57 : Forall caseless (range 45 57).
Proof.
  replace (range 45 57) with [45; 46; 47; 48; 49; 50; 51; 52; 53; 54; 55; 56; 57]
    by (vm_compute; reflexivity).
  repeat (apply List.Forall_cons; [split; [reflexivity|vm_compute; reflexivity]|]).
  apply List.Forall_nil.
Qed.

Lemma plain_date_items :
  Forall plain_item [IRange 48 57; IChar 45; IChar 46; IChar 47].
Proof.
  pose proof caseless_45_to_57 as H. rewrite Forall_forall in H.
  repeat (apply List.Forall_cons; [|]); try apply List.Forall_nil; cbn [plain_item];
    apply H; apply list_elem_of_In; vm_compute; tauto.
Qed.

(** A class made of digits [0-9], hyphens, periods and slashes holds
    code points from "-" to "9" alone, among which is no white space. *)
Lemma date_class (fl : flags) (items : list citem) (x : char) :
  Forall (fun it => In it [IRange 48 57; IChar 45; IChar 46; IChar 47]) items ->
  set_match fl false items x = true ->
  Exists (fun it => in_item it x) items /\ 45 <= x <= 57.
Proof.
  intros Hi H.
  assert (Hp : Forall plain_item items).
  { eapply Forall_impl; [exact Hi|]. intros it Hin.
    pose proof plain_date_items as Hd. rewrite Forall_forall in Hd.
    apply Hd, list_elem_of_In, Hin. }
  pose proof (class_holds fl items x Hp H) as He. split; [exact He|].
  rewrite Exists_exists in He. destruct He as (it & Hin & Hx).
  rewrite Forall_forall in Hi. specialize (Hi it Hin). simpl in Hi.
  repeat (destruct Hi as [<-|Hi]; [cbn [in_item] in Hx; lia|]). contradiction.
Qed.

Lemma from_hyphen_to_nine_solid (g : str) : Forall (fun x => 45 <= x <= 57) g -> solid g.
Proof.
  intros H. eapply Forall_impl; [exact H|]. intros x Hx. cbv beta in Hx.
  destruct (isspace x) eqn:E; [|reflexivity]. exfalso.
  unfold isspace in E. cbn [existsb] in E.
  repeat (apply orb_true_iff in E as [E|E];
          [apply andb_true_iff in E as [E1 E2]; apply N.leb_le in E1, E2;
           simpl in E1, E2; lia|]).
  discriminate.
Qed.

Lemma lstrip_solid (g : str) : solid g -> lstrip g = g.
Proof. destruct 1 as [|x g Hx _]; [reflexivity|]. cbn [lstrip]. rewrite Hx. reflexivity. Qed.

Lemma strip_solid (g : str) : solid g -> strip g = g.
Proof.
  intros H. unfold strip, rstrip. rewrite (lstrip_solid g H).
  rewrite lstrip_solid; [apply rev_involutive|]. apply Forall_rev, H.
Qed.

(** *** Numbers and dates *)

Lemma first_match_some (patterns : list regex) (text : str) (fl : flags) (mt : rmatch) :
  Field.first_match patterns text fl = Some mt ->
  exists p, In p patterns /\ re_search p text fl = Some mt.
Proof.
  induction patterns as [|p ps IH]; cbn [Field.first_match]; [discriminate|].
  destruct (re_search p text fl) as [mt'|] eqn:E.
  - intros [= <-]. exists p. split; [left; reflexivity|exact E].
  - intros H. destruct (IH H) as (q & Hq & Eq). exists q. split; [right; exact Hq|exact Eq].
Qed.

Lemma stripped_is_code (Q : char -> Prop) (o : option rmatch) :
  (forall x, Q x -> 45 <= x <= 57) ->
  (forall mt g, o = Some mt -> group mt 1 = Some g -> (1 <= length g)%nat /\ Forall Q g) ->
  is_code Q (Some (Field.stripped o (PStr (py "N/A")))).
Proof.
  intros HQ H. destruct o as [mt|]; cbn [Field.stripped]; [|left; reflexivity].
  destruct (group mt 1) as [g|] eqn:Hg; [|left; reflexivity].
  destruct (H mt g eq_refl Hg) as [Hl HF]. right. exists g.
  rewrite strip_solid.
  - split; [reflexivity|]. split; [apply not_nil_of_length, Hl|exact HF].
  - apply from_hyphen_to_nine_solid. eapply Forall_impl; [exact HF|]. exact HQ.
Qed.

(** Settles [captures] for a pattern whose group is a class of digits,
    hyphens, periods and slashes. *)
Ltac group_of_class :=
  cbn [captures consumes min_len Nat.eqb Nat.mul Nat.add Nat.min];
  repeat match goal with |- _ /\ _ => split end;
  first
    [ exact Logic.I
    | lia
    | let x := fresh "x" in let Hx := fresh "Hx" in
      intros x Hx; cbv beta;
      apply date_class in Hx as [Hx Hb];
      [ repeat (apply Exists_cons in Hx as [Hx|Hx];
                [cbn [in_item] in Hx; first [lia | right; exact Hx | left; lia]|]);
        apply Exists_nil in Hx; contradiction
      | repeat constructor; simpl; tauto ] ].

(** X19: the order number and the HSN code.  Whatever the text, in the
    record of the Amazon parser "Order Number" is "N/A" or a non-empty
    string of digits 0 to 9 and hyphens, and "HSN Code" is "N/A" or a
    non-empty string of digits 0 to 9, whatever the case-insensitive
    matching; the capture needs no trimming. *)
Theorem amazon_numbers (text filename : str) :
  is_code (fun x => 48 <= x <= 57 \/ x = 45)
          (extract_amazon_invoice text filename !! "Order Number"%string) /\
  is_code (fun x => 48 <= x <= 57)
          (extract_amazon_invoice text filename !! "HSN Code"%string).
Proof.
  split.
  - amazon_field. apply stripped_is_code; [intros x [H| ->]; lia|].
    intros mt g E Hg. apply first_match_some in E as (p & Hp & E).
    refine (search_captures I 1 1 _ p text mt _ E g Hg).
    unfold Amazon.order_patterns in Hp. simpl in Hp.
    repeat (destruct Hp as [<-|Hp]; [group_of_class|]). contradiction.
  - amazon_field. apply stripped_is_code; [intros x H; lia|].
    intros mt g E Hg.
    refine (search_captures I 1 1 _ _ text mt _ E g Hg).
    unfold Amazon.hsn_pattern. group_of_class.
Qed.

(** What [standardize_date] makes of a string stays within the code
    points of the string and the slash. *)
Lemma standardize_date_within (Q : char -> Prop) (date_str r : str) :
  Q 47 -> date_str <> [] -> Forall Q date_str ->
  standardize_date date_str = Ok r ->
  r = py "N/A" \/ (r <> [] /\ Forall Q r).
Proof.
  intros Hslash Hne HF. unfold standardize_date.
  destruct (is_empty date_str || eqb date_str (py "N/A")).
  { intros [= <-]. left. reflexivity. }
  rewrite date_patterns_eq. cbn [standardize_with].
  assert (Hany : forall n1 n2 n3 sep mt,
    re_search (date_pattern n1 n2 n3 sep) date_str NOFLAG = Some mt ->
    forall r',
      match len (group_val mt 1) with
      | Ok n =>
        if (n =? 4)%nat
        then Ok (str_of (group_val mt 3) ++ py "/" ++ str_of (group_val mt 2)
                 ++ py "/" ++ str_of (group_val mt 1))
        else Ok (str_of (group_val mt 1) ++ py "/" ++ str_of (group_val mt 2)
                 ++ py "/" ++ str_of (group_val mt 3))
      | Raise e => Raise e
      end = Ok r' ->
      r' <> [] /\ Forall Q r').
  { intros n1 n2 n3 sep mt E r' Hr.
    apply date_pattern_search in E
      as (w1 & w2 & w3 & pre & post & Hs & _ & _ & _ & _ & G1 & G2 & G3).
    rewrite G1, G2, G3 in Hr. cbn [len str_of] in Hr.
    rewrite Hs in HF.
    apply Forall_app in HF as [_ HF]. apply Forall_app in HF as [F1 HF].
    apply Forall_app in HF as [_ HF]. apply Forall_app in HF as [F2 HF].
    apply Forall_app in HF as [_ HF]. apply Forall_app in HF as [F3 _].
    assert (Hs47 : Forall Q (py "/")) by (constructor; [exact Hslash|constructor]).
    destruct (length w1 =? 4)%nat.
    - replace r' with (w3 ++ py "/" ++ w2 ++ py "/" ++ w1) by congruence.
      split; [destruct w3; discriminate|].
      repeat first [assumption | apply Forall_app_2].
    - replace r' with (w1 ++ py "/" ++ w2 ++ py "/" ++ w3) by congruence.
      split; [destruct w1; discriminate|].
      repeat first [assumption | apply Forall_app_2]. }
  destruct (re_search (date_pattern 2 2 4 46) date_str NOFLAG) as [mt|] eqn:E1.
  { intros Hr. right. eapply Hany; eauto. }
  destruct (re_search (date_pattern 2 2 4 47) date_str NOFLAG) as [mt|] eqn:E2.
  { intros Hr. right. eapply Hany; eauto. }
  destruct (re_search (date_pattern 2 2 4 45) date_str NOFLAG) as [mt|] eqn:E3.
  { intros Hr. right. eapply Hany; eauto. }
  destruct (re_search (date_pattern 4 2 2 45) date_str NOFLAG) as [mt|] eqn:E4.
  { intros Hr. right. eapply Hany; eauto. }
  intros [= <-]. right. split; assumption.
Qed.

Lemma date_is_code (r : regex) (text : str) :
  binds 1 r = true -> captures I 1 1 (fun x => 45 <= x <= 57) r ->
  is_code (fun x => 45 <= x <= 57)
          (Some (Field.date (re_search r text I) (PStr (py "N/A")))).
Proof.
  intros Hb Hc. destruct (re_search r text I) as [mt|] eqn:E; cbn [Field.date];
    [|left; reflexivity].
  destruct (search_binds I 1 r text mt Hb E) as [g Hg]. rewrite Hg.
  destruct (search_captures I 1 1 _ r text mt Hc E g Hg) as [Hl HF].
  rewrite (strip_solid g (from_hyphen_to_nine_solid g HF)).
  destruct (standardize_date g) as [d|e] eqn:Ed; [|left; reflexivity].
  apply (standardize_date_within (fun x => 45 <= x <= 57)) in Ed as [->|[Hne Hd]].
  - left. reflexivity.
  - right. exists d. auto.
  - lia.
  - apply not_nil_of_length, Hl.
  - exact HF.
Qed.

(** X20: the dates.  Whatever the text, "Order Date" and "Invoice Date"
    in the record of either parser are "N/A" or a non-empty string of
    digits 0 to 9, hyphens, periods and slashes: the capture, or the
    date that [standardize_date] made of it. *)
Theorem dates_are_plain (text filename : str) :
  Forall (fun key =>
            is_code (fun x => 45 <= x <= 57)
                    (extract_amazon_invoice text filename !! key) /\
            is_code (fun x => 45 <= x <= 57)
                    (extract_flipkart_invoice text filename !! key))
         ["Order Date"; "Invoice Date"]%string.
Proof.
  repeat (apply Forall_cons; split; [split|]); try apply List.Forall_nil.
  - amazon_field. apply date_is_code; [reflexivity|].
    unfold Amazon.order_date_pattern. group_of_class.
  - flipkart_field. apply date_is_code; [reflexivity|].
    unfold Flipkart.order_date_pattern. group_of_class.
  - amazon_field. apply date_is_code; [reflexivity|].
    unfold Amazon.invoice_date_pattern. group_of_class.
  - flipkart_field. apply date_is_code; [reflexivity|].
    unfold Flipkart.invoice_date_pattern. group_of_class.
Qed.

(** ** The addresses, word by word *)

Lemma lstrip_spaces (s : str) :
  exists w, s = w ++ lstrip s /\ Forall (fun c => isspace c = true) w.
Proof.
  induction s as [|c t (w & IH & Hw)]; [exists []; split; [reflexivity|constructor]|].
  cbn [lstrip]. destruct (isspace c) eqn:Hc.
  - exists (c :: w). split; [simpl; rewrite <- IH; reflexivity|constructor; assumption].
  - exists []. split; [reflexivity|constructor].
Qed.

Lemma rstrip_spaces (s : str) :
  exists w, s = rstrip s ++ w /\ Forall (fun c => isspace c = true) w.
Proof.
  unfold rstrip. destruct (lstrip_spaces (rev s)) as (w & Hw & HF).
  exists (rev w). split; [|apply Forall_rev, HF].
  rewrite <- rev_app_distr, <- Hw, rev_involutive. reflexivity.
Qed.

Lemma words_from_spaces (w : str) :
  Forall (fun c => isspace c = true) w ->
  forall word, words_from word w = words_from word [].
Proof.
  induction 1 as [|c w Hc _ IH]; intros word; [reflexivity|].
  cbn [words_from]. rewrite Hc, (IH []). cbn [words_from is_empty].
  destruct (is_empty word); reflexivity.
Qed.

Lemma words_from_app_spaces (w : str) :
  Forall (fun c => isspace c = true) w ->
  forall a word, words_from word (a ++ w) = words_from word a.
Proof.
  intros Hw. induction a as [|x a IH]; intros word.
  - apply (words_from_spaces w Hw).
  - cbn [app words_from]. rewrite !IH. reflexivity.
Qed.

Lemma words_lstrip (s : str) : words_from [] (lstrip s) = words_from [] s.
Proof.
  induction s as [|c t IH]; [reflexivity|].
  cbn [lstrip]. destruct (isspace c) eqn:Hc; [|reflexivity].
  cbn [words_from is_empty]. rewrite Hc. exact IH.
Qed.

Lemma words_strip (s : str) : words (strip s) = words s.
Proof.
  unfold strip, words. rewrite <- (words_lstrip s).
  destruct (rstrip_spaces (lstrip s)) as (w & Hw & HF).
  rewrite <- (words_from_app_spaces w HF (rstrip (lstrip s)) []), <- Hw. reflexivity.
Qed.

Lemma collapse_from_last (c : char) :
  isspace c = false ->
  forall x in_run, collapse_from in_run (x ++ [c]) = collapse_from in_run x ++ [c].
Proof.
  intros Hc. induction x as [|a x IH]; intros in_run; cbn [app collapse_from].
  - rewrite Hc. reflexivity.
  - destruct (isspace a); [destruct in_run|]; rewrite IH; reflexivity.
Qed.

(** The white space of a trimmed text, collapsed, leaves the text
    trimmed. *)
Lemma collapse_strip (s : str) :
  collapse_from false (strip s) = join [32] (words s).
Proof.
  rewrite <- words_strip. unfold words. rewrite <- (strip_collapse (strip s) false).
  remember (strip s) as S eqn:E. symmetry in E.
  destruct S as [|c t]; [reflexivity|].
  pose proof (strip_head s c t E) as Hc.
  assert (Hl : lstrip (collapse_from false (c :: t)) = collapse_from false (c :: t))
    by (cbn [collapse_from]; rewrite Hc; cbn [lstrip]; rewrite Hc; reflexivity).
  rewrite Hl.
  destruct (exists_last (l := c :: t) ltac:(discriminate)) as (x & z & Ez).
  rewrite Ez in E |- *.
  pose proof (strip_last s x z E) as Hz.
  rewrite (collapse_from_last z Hz). symmetry. apply rstrip_app_nonspace, Hz.
Qed.

Lemma address_words (o : option rmatch) :
  Field.address o (PStr (py "N/A"))
  = match o with
    | Some mt =>
      match group mt 1 with
      | Some span => PStr (take 150 (join [32] (words span)))
      | None => PStr (py "N/A")
      end
    | None => PStr (py "N/A")
    end.
Proof.
  destruct o as [mt|]; [|reflexivity]. cbn [Field.address].
  destruct (group mt 1) as [span|]; [|reflexivity].
  unfold Address.value. rewrite re_sub_whitespace_run, collapse_strip. reflexivity.
Qed.

Lemma address_words_of_span (pattern : regex) (text : str) :
  binds 1 pattern = true ->
  words_of_span pattern text
    (Some (Field.address (re_search pattern text I_DOTALL) (PStr (py "N/A")))).
Proof.
  intros Hb. unfold words_of_span. rewrite address_words.
  destruct (re_search pattern text I_DOTALL) as [mt|] eqn:E; [|reflexivity].
  destruct (search_binds I_DOTALL 1 pattern text mt Hb E) as [span Hs].
  exists span. rewrite Hs. auto.
Qed.

(** X21: the addresses, word by word.  An address field of either
    parser is "N/A" when its pattern finds nothing, and otherwise the
    words of the captured span with one space between them, cut after
    150 code points: no line break and no run of white space is left,
    and the cut may fall inside a word. *)
Theorem addresses_are_single_spaced (text filename : str) :
  words_of_span Amazon.billing_pattern text
    (extract_amazon_invoice text filename !! "Billing Address"%string) /\
  words_of_span Amazon.shipping_address_pattern text
    (extract_amazon_invoice text filename !! "Shipping Address"%string) /\
  words_of_span Flipkart.billing_pattern text
    (extract_flipkart_invoice text filename !! "Billing Address"%string) /\
  words_of_span Flipkart.shipping_address_pattern text
    (extract_flipkart_invoice text filename !! "Shipping Address"%string).
Proof.
  repeat split.
  - amazon_field. apply address_words_of_span. reflexivity.
  - amazon_field. apply address_words_of_span. reflexivity.
  - flipkart_field. apply address_words_of_span. reflexivity.
  - flipkart_field. apply address_words_of_span. reflexivity.
Qed.

(** ** The captures that run to a stop *)

(** A greedy repetition of a class, followed by something that cannot
    fail, takes the whole run. *)
Lemma greedy_total (P : char -> bool) (K : cont) :
  (forall st, K st <> None) ->
  forall fuel st,
    (length (rest st) <= fuel)%nat ->
    rep_more (step P) true K fuel st
    = K (advance st (length (take_while P (rest st)))).
Proof.
  intros HK. induction fuel as [|f IH]; intros st Hf; cbn [rep_more].
  - destruct (rest st) as [|x t] eqn:Hr; [|simpl in Hf; lia].
    cbn [take_while length]. rewrite advance_0. reflexivity.
  - unfold step. destruct (rest st) as [|x t] eqn:Hr.
    + cbn [take_while length]. rewrite advance_0. reflexivity.
    + cbn [take_while]. destruct (P x) eqn:Hx.
      * cbn [pos].
        replace (pos st <? S (pos st))%nat with true
          by (symmetry; apply Nat.ltb_lt; lia).
        rewrite IH by (cbn [rest]; simpl in Hf; lia).
        cbn [rest length]. rewrite (advance_S st x t _ Hr).
        specialize (HK (advance {| pos := S (pos st); rest := t; caps := caps st |}
                                (length (take_while P t)))).
        destruct (K _); [reflexivity|contradiction].
      * cbn [length]. rewrite advance_0. reflexivity.
Qed.

Lemma take_while_spec {A : Type} (f : A -> bool) (l : list A) :
  Forall (fun x => f x = true) (take_while f l) /\
  l = take_while f l ++ drop (length (take_while f l)) l /\
  match drop (length (take_while f l)) l with
  | [] => True
  | y :: _ => f y = false
  end.
Proof.
  induction l as [|x l (IH1 & IH2 & IH3)]; cbn [take_while].
  - repeat split. constructor.
  - destruct (f x) eqn:E; cbn [length drop app].
    + split; [constructor; assumption|]. split; [f_equal; exact IH2|exact IH3].
    + split; [constructor|]. split; [reflexivity|exact E].
Qed.

Lemma caseless_self (fl : flags) (c : char) : caseless c -> lit_match fl c c = true.
Proof.
  intros [_ Hf]. unfold lit_match. destruct (IGNORECASE fl); [|apply N.eqb_refl].
  rewrite Hf. unfold fold_set in Hf. injection Hf as Hl _. rewrite Hl.
  unfold mem. cbn [existsb]. rewrite N.eqb_refl. reflexivity.
Qed.

Lemma all_but_class (fl : flags) (stops : list char) (x : char) :
  Forall caseless stops ->
  set_match fl true (all_but stops) x = negb (existsb (N.eqb x) stops).
Proof.
  intros H.
  assert (E : existsb (fun it => item_match fl it x) (all_but stops)
              = existsb (N.eqb x) stops).
  { unfold all_but. induction H as [|c stops Hc _ IH]; [reflexivity|].
    cbn [map existsb item_match]. rewrite IH. f_equal.
    destruct (x =? c) eqn:E.
    - apply N.eqb_eq in E. subst. apply caseless_self, Hc.
    - destruct (lit_match fl c x) eqn:El; [|reflexivity].
      apply (lit_match_caseless fl c x Hc) in El. subst. rewrite N.eqb_refl in E.
      discriminate. }
  unfold set_match. rewrite E. destruct (existsb _ _); reflexivity.
Qed.

Lemma not_stop (stops : list char) (x : char) :
  negb (existsb (N.eqb x) stops) = true <-> ~ In x stops.
Proof.
  rewrite negb_true_iff. split.
  - intros H Hin. assert (E : existsb (N.eqb x) stops = true)
      by (apply existsb_exists; exists x; split; [exact Hin|apply N.eqb_refl]).
    congruence.
  - intros H. destruct (existsb _ _) eqn:E; [|reflexivity].
    apply existsb_exists in E as (y & Hy & Ey). apply N.eqb_eq in Ey. subst. contradiction.
Qed.

Lemma greedy_match (fl : flags) (pattern : regex) (stops : list char) (p : nat) (s : str)
  (mt : rmatch) :
  ends_greedy pattern stops ->
  match_at fl pattern false p s = Some mt ->
  exists g, group mt 1 = Some g /\ runs_to stops s g.
Proof.
  intros [Hshape Hc] H. unfold match_at in H.
  destruct (m fl pattern _ _) as [st'|] eqn:E; [|discriminate].
  injection H as <-. rewrite Hshape in E.
  apply m_seq_sound in E as (st1 & Hd & E).
  apply den_ahead in Hd as (marker & Hr & _). cbn [rest] in Hr.
  unfold greedy_group in E. cbn [m rep_must andb] in E. unfold step at 1 in E.
  destruct (rest st1) as [|x t] eqn:Hr1; [discriminate|].
  destruct (set_match fl true (all_but stops) x) eqn:Hx; [|discriminate].
  cbn [rest] in E.
  rewrite greedy_total in E by (try (intros ?; discriminate); cbn [rest]; lia).
  injection E as <-. cbn [rest].
  destruct (take_while_spec (set_match fl true (all_but stops)) t) as (HF & Ht & Ha).
  set (run := take_while (set_match fl true (all_but stops)) t) in *.
  exists (x :: run). split.
  - unfold group. cbn [m_groups set_cap caps assoc Nat.eqb advance pos].
    f_equal. rewrite Hr1.
    replace (S (pos st1) + length run - pos st1)%nat with (S (length run)) by lia.
    cbn [take]. f_equal. rewrite Ht at 1. apply take_app_length.
  - split; [discriminate|]. split.
    + constructor.
      * apply not_stop. rewrite <- (all_but_class fl stops x Hc). exact Hx.
      * eapply Forall_impl; [exact HF|]. intros y Hy. cbv beta in Hy.
        apply not_stop. rewrite <- (all_but_class fl stops y Hc). exact Hy.
    + exists marker, (drop (length run) t). split.
      * rewrite Hr. cbn [app]. rewrite <- Ht. reflexivity.
      * destruct (drop (length run) t) as [|y u]; [exact Logic.I|].
        rewrite (all_but_class fl stops y Hc) in Ha.
        destruct (in_dec N.eq_dec y stops) as [Hin|Hin]; [exact Hin|].
        apply not_stop in Hin. congruence.
Qed.

Lemma greedy_search (fl : flags) (pattern : regex) (stops : list char) (text : str)
  (mt : rmatch) :
  ends_greedy pattern stops ->
  re_search pattern text fl = Some mt ->
  exists g, group mt 1 = Some g /\ runs_to stops text g.
Proof.
  intros Hs H. apply search_from_at in H as (pre & suf & -> & H).
  apply (greedy_match _ _ _ _ _ _ Hs) in H
    as (g & Hg & Hne & HF & before & after & -> & Ha).
  exists g. split; [exact Hg|]. split; [exact Hne|]. split; [exact HF|].
  exists (pre ++ before), after. rewrite <- app_assoc. auto.
Qed.

(** *** A substitution that finds nothing *)

Lemma match_at_needs (c : char) (r : regex) (adv : bool) (p : nat) (s : str) :
  no_bol r = true -> needs c r = true -> ~ In c s ->
  match_at NOFLAG r adv p s = None.
Proof.
  intros Hb Hn Hs. unfold match_at.
  destruct (m NOFLAG r _ _) as [st'|] eqn:E; [|reflexivity]. exfalso.
  apply m_sound in E as (st1 & Hd & _).
  apply (den_accepts NOFLAG r Hb) in Hd as (w & [Hr _] & Hw).
  destruct (accepts_needs NOFLAG c r Hn _ _ Hw) as (x & Hx & Hm).
  unfold lit_match in Hm. cbn [IGNORECASE NOFLAG] in Hm. apply N.eqb_eq in Hm. subst x.
  cbn [rest] in Hr. apply Hs. rewrite Hr. apply in_or_app. left. exact Hx.
Qed.

Lemma re_sub_needs (c : char) (r : regex) (repl s : str) :
  no_bol r = true -> needs c r = true -> ~ In c s -> re_sub r repl s = s.
Proof.
  intros Hb Hn. unfold re_sub.
  assert (H : forall p, ~ In c s -> sub_from NOFLAG r repl 0 p s = s); [|apply H].
  induction s as [|x t IH]; intros p Hs; cbn [sub_from].
  - rewrite (match_at_needs c r false p [] Hb Hn Hs). reflexivity.
  - rewrite (match_at_needs c r false p (x :: t) Hb Hn Hs).
    rewrite IH; [reflexivity|]. intros H. apply Hs. right. exact H.
Qed.

Lemma strip_strip (s : str) : strip (strip s) = strip s.
Proof.
  remember (strip s) as S eqn:E. symmetry in E.
  destruct S as [|c t]; [reflexivity|].
  pose proof (strip_head s c t E) as Hc.
  destruct (exists_last (l := c :: t) ltac:(discriminate)) as (x & z & Ez).
  unfold strip. cbn [lstrip]. rewrite Hc. rewrite Ez in E |- *.
  apply rstrip_app_nonspace. exact (strip_last s x z E).
Qed.

Lemma caseless_stops : caseless 10 /\ caseless 42 /\ caseless 44.
Proof. repeat split; vm_compute; reflexivity. Qed.

(** X22: the captures that run to a stop.  Whatever the text, "Payment
    Mode" of the Amazon parser is "N/A" or, trimmed, all that follows the
    marker up to the end of the line or of the text; "Seller Name" is
    "N/A" or, trimmed and cut after 100 code points, all that follows the
    marker up to an asterisk, the end of the line or the end of the text
    for Amazon, and up to a comma, the end of the line or the end of the
    text for Flipkart.  The capture of the Amazon parser holds no
    asterisk, so that the substitution that cuts it at an asterisk changes
    nothing. *)
Theorem captures_run_to_a_stop (text filename : str) :
  greedy_field Amazon.payment_pattern [10] strip text
    (extract_amazon_invoice text filename !! "Payment Mode"%string) /\
  greedy_field Amazon.seller_pattern [10; 42] (fun g => take 100 (strip g)) text
    (extract_amazon_invoice text filename !! "Seller Name"%string) /\
  greedy_field Flipkart.seller_pattern [44; 10] (fun g => take 100 (strip g)) text
    (extract_flipkart_invoice text filename !! "Seller Name"%string).
Proof.
  destruct caseless_stops as (C10 & C42 & C44).
  repeat split; unfold greedy_field.
  - amazon_field.
    destruct (re_search Amazon.payment_pattern text I) as [mt|] eqn:E; [|reflexivity].
    destruct (greedy_search I Amazon.payment_pattern [10] text mt) as (g & Hg & Hr);
      [split; [reflexivity|repeat constructor; assumption]|exact E|].
    exists g. cbn [Field.stripped]. rewrite Hg. auto.
  - amazon_field.
    destruct (re_search Amazon.seller_pattern text I) as [mt|] eqn:E; [|reflexivity].
    destruct (greedy_search I Amazon.seller_pattern [10; 42] text mt) as (g & Hg & Hr);
      [split; [reflexivity|repeat constructor; assumption]|exact E|].
    exists g. cbn [Field.amazon_seller]. rewrite Hg.
    split; [reflexivity|]. split; [exact Hr|].
    destruct Hr as (_ & HF & _).
    rewrite (re_sub_needs 42 Amazon.after_star [] (strip g)); try reflexivity.
    + rewrite strip_strip. reflexivity.
    + intros Hin. apply strip_in in Hin. rewrite Forall_forall in HF.
      apply (HF 42); [apply list_elem_of_In, Hin|right; left; reflexivity].
  - flipkart_field.
    destruct (re_search Flipkart.seller_pattern text I) as [mt|] eqn:E; [|reflexivity].
    destruct (greedy_search I Flipkart.seller_pattern [44; 10] text mt) as (g & Hg & Hr);
      [split; [reflexivity|repeat constructor; assumption]|exact E|].
    exists g. cbn [Field.flipkart_seller]. rewrite Hg. auto.
Qed.

(** X23: the payment mode of a cleaned text.  The text that
    [process_invoices] hands to the Amazon parser has no line feed: the
    capture after "Mode of Payment" goes on to the end of the text, and
    "Payment Mode" holds, trimmed, all of the document that follows the
    marker. *)
Theorem payment_mode_of_a_cleaned_text (full_text filename : str) :
  let text := clean_text full_text in
  match re_search Amazon.payment_pattern text I with
  | Some mt =>
    exists before g,
      text = before ++ g /\ group mt 1 = Some g /\
      extract_amazon_invoice text filename !! "Payment Mode"%string
      = Some (PStr (strip g))
  | None =>
    extract_amazon_invoice text filename !! "Payment Mode"%string
    = Some (PStr (py "N/A"))
  end.
Proof.
  cbv zeta. destruct caseless_stops as (C10 & _ & _). amazon_field.
  destruct (re_search Amazon.payment_pattern (clean_text full_text) I) as [mt|] eqn:E;
    [|reflexivity].
  destruct (greedy_search I Amazon.payment_pattern [10] (clean_text full_text) mt)
    as (g & Hg & Hr);
    [split; [reflexivity|repeat constructor; assumption]|exact E|].
  destruct Hr as (_ & _ & before & after & Ht & Ha).
  exists before, g. cbn [Field.stripped]. rewrite Hg.
  split; [|auto]. destruct after as [|y after]; [rewrite Ht, app_nil_r; reflexivity|].
  exfalso. destruct Ha as [<-|[]].
  apply (clean_text_no_line_feed full_text). rewrite Ht.
  apply in_or_app. right. apply in_or_app. right. left. reflexivity.
Qed.
